(** * SqlInt: the employee record store of [main.py] over SQLite

    [main.py] keeps employee records in one SQLite table, [employees], and
    talks to it only through SQL text handed to Python's [sqlite3] module.
    Column names coming from the caller are spliced into that text, so what
    the program does is decided by how the engine reads the text.  The
    development therefore has three layers:

    - the statements of [main.py], built as strings exactly as the source
      builds them (f-strings and [', '.join]);
    - a model of the part of SQLite the program reaches: a tokenizer, a
      parser for the statement shapes of [main.py], and their execution on
      one rowid table, with column affinity, NOT NULL, the INTEGER PRIMARY
      KEY and per-connection transactions as the [sqlite3] module drives
      them in its default mode (Python 3.6 and later, SQLite 3.40: an
      implicit BEGIN before INSERT, UPDATE and DELETE only, so that ALTER
      TABLE takes effect at once when no transaction is open);
    - the functions of [main.py] on top of it.

    The engine model is partial on purpose.  Where SQLite's behaviour is not
    modelled (characters outside words, blanks and the punctuation of the
    statements; keywords in name position; rendering of a float as text;
    reading a number out of text; rowid exhaustion) the model answers
    [Unmodelled] instead of guessing, and a call that meets such a case
    answers [NoModel].  Floats are modelled by the rationals they denote;
    limits on statement and value length are left out.

    The file has the definitions first (values, tokenizer, parser, table,
    connection, the functions of [main.py], the vocabulary of the
    properties, the store across calls, [main()] and its pages), then the
    proofs: the parser on the statements of the program, the execution of
    each statement, the properties C1 to C10, and further properties of
    the code, X1 to X22: what every sequence of calls with plain
    arguments keeps, how the calls compose, and what the pages of [main()]
    do. *)

From Stdlib Require Import ZArith QArith List String Ascii Bool Lia DecimalString
  Sorted Permutation.
Import ListNotations.

Local Open Scope string_scope.
Local Open Scope Z_scope.

(** ** Python and SQLite values

    The [sqlite3] module maps [None], [int], [float] and [str] one to one to
    the storage classes NULL, INTEGER, REAL and TEXT, in both directions, so
    one type serves on both sides.  A float is the rational it denotes, so
    the floats of the model are the finite ones: NaN, which the module
    writes as NULL, and the infinities are no values of the model, and
    neither is [bytes], the storage class BLOB.  The properties are about
    calls whose values are of these four kinds. *)

Inductive value : Type :=
| Null
| Integer (z : Z)
| Real (q : Q)
| Text (s : string).

(** Python truthiness, as used by [if department:] and [if min_salary:]. *)
Definition truthy (v : value) : bool :=
  match v with
  | Null => false
  | Integer z => negb (z =? 0)
  | Real q => negb (Qeq_bool q 0)
  | Text s => negb (s =? EmptyString)%string
  end.

(** Python's [==] between two values of these types. *)
Definition py_eq (a b : value) : bool :=
  match a, b with
  | Null, Null => true
  | Integer x, Integer y => x =? y
  | Integer x, Real y => Qeq_bool (inject_Z x) y
  | Real x, Integer y => Qeq_bool x (inject_Z y)
  | Real x, Real y => Qeq_bool x y
  | Text x, Text y => (x =? y)%string
  | _, _ => false
  end.

(** The exceptions of the [sqlite3] module the program can meet. *)
Inductive error : Type :=
| OperationalError
| IntegrityError
| ProgrammingError
| OverflowError.

(** Result of an engine step: a value, an exception, or no answer from the
    model. *)
Inductive outcome (A : Type) : Type :=
| Ok (a : A)
| Raise (e : error)
| Unmodelled.
Arguments Ok {A} a.
Arguments Raise {A} e.
Arguments Unmodelled {A}.

Definition obind {A B} (o : outcome A) (f : A -> outcome B) : outcome B :=
  match o with
  | Ok a => f a
  | Raise e => Raise e
  | Unmodelled => Unmodelled
  end.

Fixpoint omap {A B} (f : A -> outcome B) (l : list A) : outcome (list B) :=
  match l with
  | [] => Ok []
  | a :: l' => obind (f a) (fun b => obind (omap f l') (fun bs => Ok (b :: bs)))
  end.

(** ** Characters and words *)

Definition is_digit (c : ascii) : bool :=
  let n := nat_of_ascii c in ((48 <=? n) && (n <=? 57))%nat.

Definition is_upper (c : ascii) : bool :=
  let n := nat_of_ascii c in ((65 <=? n) && (n <=? 90))%nat.

Definition is_lower (c : ascii) : bool :=
  let n := nat_of_ascii c in ((97 <=? n) && (n <=? 122))%nat.

Definition word_char (c : ascii) : bool :=
  is_digit c || is_upper c || is_lower c || (c =? "_")%char.

Definition space_char (c : ascii) : bool :=
  let n := nat_of_ascii c in
  ((n =? 32) || (n =? 9) || (n =? 10) || (n =? 12) || (n =? 13))%nat.

(** ASCII-only case folding, as SQLite compares names and keywords. *)
Definition upper_char (c : ascii) : ascii :=
  if is_lower c then ascii_of_nat (nat_of_ascii c - 32) else c.

Fixpoint upper (s : string) : string :=
  match s with
  | EmptyString => EmptyString
  | String c s' => String (upper_char c) (upper s')
  end.

Definition ieq (a b : string) : bool := (upper a =? upper b)%string.

Fixpoint all_chars (p : ascii -> bool) (s : string) : bool :=
  match s with
  | EmptyString => true
  | String c s' => p c && all_chars p s'
  end.

Fixpoint any_char (p : ascii -> bool) (s : string) : bool :=
  match s with
  | EmptyString => false
  | String c s' => p c || any_char p s'
  end.

(** [contains pat s]: [pat] occurs in [s]. *)
Fixpoint contains (pat s : string) : bool :=
  prefix pat s ||
  match s with
  | EmptyString => false
  | String _ s' => contains pat s'
  end.

(** ** Tokens *)

Inductive token : Type :=
| TWord (w : string)
| TLp | TRp | TComma | TEq | TStar | TQm | TSemi | TGe | TLe.

Definition flush (acc : string) (ts : list token) : list token :=
  match acc with
  | EmptyString => ts
  | _ => TWord acc :: ts
  end.

(** The tokenizer on the characters the statements of [main.py] are made
    of.  [acc] is the word being read.  [None]: a character, or a use of
    one, that the model does not cover (quotes, comments, [?NNN], a lone
    [<] or [>], ...). *)
Fixpoint lex (acc : string) (s : string) : option (list token) :=
  match s with
  | EmptyString => Some (flush acc [])
  | String c s' =>
    if word_char c then lex (acc ++ String c EmptyString) s'
    else
      option_map (flush acc)
        (if space_char c then lex EmptyString s'
         else if (c =? "(")%char then option_map (cons TLp) (lex EmptyString s')
         else if (c =? ")")%char then option_map (cons TRp) (lex EmptyString s')
         else if (c =? ",")%char then option_map (cons TComma) (lex EmptyString s')
         else if (c =? "=")%char then option_map (cons TEq) (lex EmptyString s')
         else if (c =? "*")%char then option_map (cons TStar) (lex EmptyString s')
         else if (c =? ";")%char then option_map (cons TSemi) (lex EmptyString s')
         else if (c =? "?")%char then
           match s' with
           | String d _ => if word_char d then None
                           else option_map (cons TQm) (lex EmptyString s')
           | EmptyString => Some [TQm]
           end
         else if (c =? ">")%char then
           match s' with
           | String "=" s'' => option_map (cons TGe) (lex EmptyString s'')
           | _ => None
           end
         else if (c =? "<")%char then
           match s' with
           | String "=" s'' => option_map (cons TLe) (lex EmptyString s'')
           | _ => None
           end
         else None)
  end.

Definition tokenize (s : string) : option (list token) := lex EmptyString s.

(** SQLite's keywords (release 3.40). *)
Definition keywords : list string :=
  ["ABORT"; "ACTION"; "ADD"; "AFTER"; "ALL"; "ALTER"; "ALWAYS"; "ANALYZE";
   "AND"; "AS"; "ASC"; "ATTACH"; "AUTOINCREMENT"; "BEFORE"; "BEGIN";
   "BETWEEN"; "BY"; "CASCADE"; "CASE"; "CAST"; "CHECK"; "COLLATE"; "COLUMN";
   "COMMIT"; "CONFLICT"; "CONSTRAINT"; "CREATE"; "CROSS"; "CURRENT";
   "CURRENT_DATE"; "CURRENT_TIME"; "CURRENT_TIMESTAMP"; "DATABASE";
   "DEFAULT"; "DEFERRABLE"; "DEFERRED"; "DELETE"; "DESC"; "DETACH";
   "DISTINCT"; "DO"; "DROP"; "EACH"; "ELSE"; "END"; "ESCAPE"; "EXCEPT";
   "EXCLUDE"; "EXCLUSIVE"; "EXISTS"; "EXPLAIN"; "FAIL"; "FILTER"; "FIRST";
   "FOLLOWING"; "FOR"; "FOREIGN"; "FROM"; "FULL"; "GENERATED"; "GLOB";
   "GROUP"; "GROUPS"; "HAVING"; "IF"; "IGNORE"; "IMMEDIATE"; "IN"; "INDEX";
   "INDEXED"; "INITIALLY"; "INNER"; "INSERT"; "INSTEAD"; "INTERSECT";
   "INTO"; "IS"; "ISNULL"; "JOIN"; "KEY"; "LAST"; "LEFT"; "LIKE"; "LIMIT";
   "MATCH"; "MATERIALIZED"; "NATURAL"; "NO"; "NOT"; "NOTHING"; "NOTNULL";
   "NULL"; "NULLS"; "OF"; "OFFSET"; "ON"; "OR"; "ORDER"; "OTHERS"; "OUTER";
   "OVER"; "PARTITION"; "PLAN"; "PRAGMA"; "PRECEDING"; "PRIMARY"; "QUERY";
   "RAISE"; "RANGE"; "RECURSIVE"; "REFERENCES"; "REGEXP"; "REINDEX";
   "RELEASE"; "RENAME"; "REPLACE"; "RESTRICT"; "RETURNING"; "RIGHT";
   "ROLLBACK"; "ROW"; "ROWS"; "SAVEPOINT"; "SELECT"; "SET"; "TABLE"; "TEMP";
   "TEMPORARY"; "THEN"; "TIES"; "TO"; "TRANSACTION"; "TRIGGER"; "UNBOUNDED";
   "UNION"; "UNIQUE"; "UPDATE"; "USING"; "VACUUM"; "VALUES"; "VIEW";
   "VIRTUAL"; "WHEN"; "WHERE"; "WINDOW"; "WITH"; "WITHOUT"].

Definition is_keyword (w : string) : bool :=
  existsb (String.eqb (upper w)) keywords.

(** A word the engine reads as a plain name: not empty, not starting with a
    digit, not a keyword.  (A keyword in name position is a syntax error for
    some keywords and a name for others; the model covers neither.) *)
Definition is_ident (w : string) : bool :=
  match w with
  | EmptyString => false
  | String c _ => negb (is_digit c) && all_chars word_char w && negb (is_keyword w)
  end.

(** ** Statements

    The statement shapes [main.py] sends.  The table is always [employees];
    every [?] is a positional parameter. *)

Inductive cmp : Type := CEq | CGe | CLe.

(** One conjunct of a WHERE clause: the literal [1=1], or [column op ?]. *)
Inductive atom : Type :=
| ATrue
| ACmp (col : string) (op : cmp).

Record coldef : Type := {
  dname : string;
  dtype : list string;
  dnotnull : bool;
  dpk : bool
}.

Inductive stmt : Type :=
| SCreate (defs : list coldef)
| SInsert (names : list string) (nvals : nat)
| SUpdate (sets : list string) (cond : list atom)
| SDelete (cond : list atom)
| SSelect (cond : list atom)
| SAlterAdd (def : coldef)
| SPragma.

(** ** Parser *)

Fixpoint expect (ks : list string) (ts : list token) : option (list token) :=
  match ks with
  | [] => Some ts
  | k :: ks' =>
    match ts with
    | TWord w :: ts' => if (upper w =? k)%string then expect ks' ts' else None
    | _ => None
    end
  end.

Definition expect_table (ts : list token) : option (list token) :=
  match ts with
  | TWord w :: ts' => if ieq w "employees" then Some ts' else None
  | _ => None
  end.

Definition at_end (ts : list token) : bool :=
  match ts with
  | [] | [TSemi] => true
  | _ => false
  end.

Fixpoint strip_semi (ts : list token) : list token :=
  match ts with
  | [] => []
  | [TSemi] => []
  | t :: ts' => t :: strip_semi ts'
  end.

Fixpoint parse_idlist (ts : list token) : option (list string * list token) :=
  match ts with
  | TWord w :: rest =>
    if is_ident w then
      match rest with
      | TComma :: rest' =>
        match parse_idlist rest' with
        | Some (ws, r) => Some (w :: ws, r)
        | None => None
        end
      | _ => Some ([w], rest)
      end
    else None
  | _ => None
  end.

Fixpoint parse_qmarks (ts : list token) : option (nat * list token) :=
  match ts with
  | TQm :: rest =>
    match rest with
    | TComma :: rest' =>
      match parse_qmarks rest' with
      | Some (n, r) => Some (S n, r)
      | None => None
      end
    | _ => Some (1%nat, rest)
    end
  | _ => None
  end.

Fixpoint parse_sets (ts : list token) : option (list string * list token) :=
  match ts with
  | TWord w :: TEq :: TQm :: rest =>
    if is_ident w then
      match rest with
      | TComma :: rest' =>
        match parse_sets rest' with
        | Some (ws, r) => Some (w :: ws, r)
        | None => None
        end
      | _ => Some ([w], rest)
      end
    else None
  | _ => None
  end.

Definition parse_atom (a : string) (o b : token) : option atom :=
  match o, b with
  | TEq, TWord b' =>
    if ((a =? "1") && (b' =? "1"))%string then Some ATrue else None
  | TEq, TQm => if is_ident a then Some (ACmp a CEq) else None
  | TGe, TQm => if is_ident a then Some (ACmp a CGe) else None
  | TLe, TQm => if is_ident a then Some (ACmp a CLe) else None
  | _, _ => None
  end.

Fixpoint parse_conj (ts : list token) : option (list atom) :=
  match ts with
  | TWord a :: o :: b :: rest =>
    match parse_atom a o b with
    | Some x =>
      match rest with
      | [] | [TSemi] => Some [x]
      | TWord k :: rest' =>
        if ieq k "AND" then option_map (cons x) (parse_conj rest') else None
      | _ => None
      end
    | None => None
    end
  | _ => None
  end.

Definition parse_where (ts : list token) : option (list atom) :=
  if at_end ts then Some []
  else match ts with
       | TWord k :: r => if ieq k "WHERE" then parse_conj r else None
       | _ => None
       end.

(** The words of a type name: the plain names that follow the column
    name. *)
Fixpoint type_words (ts : list token) : list string * list token :=
  match ts with
  | TWord w :: ts' =>
    if is_ident w then let (ws, r) := type_words ts' in (w :: ws, r)
    else ([], ts)
  | _ => ([], ts)
  end.

(** Column constraints, as far as [create_table] uses them. *)
Fixpoint constraints (ts : list token) (nn pk : bool) : option (bool * bool) :=
  match ts with
  | [] => Some (nn, pk)
  | TWord a :: TWord b :: ts' =>
    if ieq a "PRIMARY" && ieq b "KEY" then constraints ts' nn true
    else if ieq a "NOT" && ieq b "NULL" then constraints ts' true pk
    else None
  | _ => None
  end.

Definition parse_coldef (ts : list token) : option coldef :=
  match ts with
  | TWord n :: ts' =>
    if is_ident n then
      let (ty, r) := type_words ts' in
      match constraints r false false with
      | Some (nn, pk) =>
        Some {| dname := n; dtype := ty; dnotnull := nn; dpk := pk |}
      | None => None
      end
    else None
  | _ => None
  end.

Fixpoint split_commas (cur : list token) (ts : list token) : list (list token) :=
  match ts with
  | [] => [rev cur]
  | TComma :: ts' => rev cur :: split_commas [] ts'
  | t :: ts' => split_commas (t :: cur) ts'
  end.

(** Tokens up to the first closing parenthesis, and what follows it. *)
Fixpoint until_rp (ts : list token) : option (list token * list token) :=
  match ts with
  | [] => None
  | TRp :: ts' => Some ([], ts')
  | TLp :: _ => None
  | t :: ts' =>
    match until_rp ts' with
    | Some (body, r) => Some (t :: body, r)
    | None => None
    end
  end.

Fixpoint all_some {A} (l : list (option A)) : option (list A) :=
  match l with
  | [] => Some []
  | Some a :: l' => option_map (cons a) (all_some l')
  | None :: _ => None
  end.

Definition parse_create (ts : list token) : option stmt :=
  match expect_table ts with
  | Some (TLp :: r) =>
    match until_rp r with
    | Some (body, r') =>
      if at_end r' then
        option_map SCreate (all_some (map parse_coldef (split_commas [] body)))
      else None
    | None => None
    end
  | _ => None
  end.

Definition parse_insert (ts : list token) : option stmt :=
  match expect_table ts with
  | Some (TLp :: r) =>
    match parse_idlist r with
    | Some (names, TRp :: r1) =>
      match expect ["VALUES"] r1 with
      | Some (TLp :: r2) =>
        match parse_qmarks r2 with
        | Some (n, TRp :: r3) => if at_end r3 then Some (SInsert names n) else None
        | _ => None
        end
      | _ => None
      end
    | _ => None
    end
  | _ => None
  end.

Definition parse_update (ts : list token) : option stmt :=
  match expect_table ts with
  | Some r =>
    match expect ["SET"] r with
    | Some r1 =>
      match parse_sets r1 with
      | Some (names, r2) => option_map (SUpdate names) (parse_where r2)
      | None => None
      end
    | None => None
    end
  | None => None
  end.

Definition parse_alter (ts : list token) : option stmt :=
  match expect_table ts with
  | Some r =>
    match expect ["ADD"; "COLUMN"] r with
    | Some r1 =>
      match parse_coldef (strip_semi r1) with
      | Some d => if dnotnull d || dpk d then None else Some (SAlterAdd d)
      | None => None
      end
    | None => None
    end
  | None => None
  end.

Definition parse_pragma (ts : list token) : option stmt :=
  match ts with
  | TWord f :: TLp :: r =>
    if ieq f "table_info" then
      match expect_table r with
      | Some (TRp :: r') => if at_end r' then Some SPragma else None
      | _ => None
      end
    else None
  | _ => None
  end.

Definition first_of {A} (a b : option A) : option A :=
  match a with
  | Some _ => a
  | None => b
  end.

Definition obind_opt {A B} (o : option A) (f : A -> option B) : option B :=
  match o with
  | Some a => f a
  | None => None
  end.

Definition parse (ts : list token) : option stmt :=
  first_of (obind_opt (expect ["CREATE"; "TABLE"; "IF"; "NOT"; "EXISTS"] ts) parse_create)
  (first_of (obind_opt (expect ["INSERT"; "INTO"] ts) parse_insert)
  (first_of (obind_opt (expect ["UPDATE"] ts) parse_update)
  (first_of (obind_opt (expect ["DELETE"; "FROM"] ts)
               (fun r => obind_opt (expect_table r)
                           (fun r' => option_map SDelete (parse_where r'))))
  (first_of (obind_opt (expect ["SELECT"] ts)
               (fun r => match r with
                         | TStar :: r1 =>
                           obind_opt (expect ["FROM"] r1)
                             (fun r2 => obind_opt (expect_table r2)
                                (fun r3 => option_map SSelect (parse_where r3)))
                         | _ => None
                         end))
  (first_of (obind_opt (expect ["ALTER"; "TABLE"] ts) parse_alter)
            (obind_opt (expect ["PRAGMA"] ts) parse_pragma)))))).

Definition parse_sql (sql : string) : option stmt :=
  obind_opt (tokenize sql) parse.

(** ** The statement texts of [main.py] *)

Definition sql_create_employees_table : string :=
" CREATE TABLE IF NOT EXISTS employees (
                                            id integer PRIMARY KEY,
                                            name text NOT NULL,
                                            department text NOT NULL,
                                            salary real
                                        ); ".

(** [', '.join(xs)] *)
Definition join (sep : string) (xs : list string) : string := concat sep xs.

Definition insert_sql (keys : list string) : string :=
  let columns := join ", " keys in
  let placeholders := join ", " (repeat "?" (List.length keys)) in
  "INSERT INTO employees (" ++ columns ++ ") VALUES (" ++ placeholders ++ ")".

Definition update_sql (keys : list string) : string :=
  let columns := join ", " (map (fun col => col ++ " = ?") keys) in
  "UPDATE employees SET " ++ columns ++ " WHERE id = ?".

Definition delete_sql : string := "DELETE FROM employees WHERE id=?".
Definition select_all_sql : string := "SELECT * FROM employees".
Definition select_by_id_sql : string := "SELECT * FROM employees WHERE id=?".

Definition alter_sql (column : string) : string :=
  "ALTER TABLE employees ADD COLUMN " ++ column ++ " TEXT".

Definition pragma_sql : string := "PRAGMA table_info(employees)".

(** ** The table *)

Inductive affinity : Type :=
| AffInteger | AffText | AffBlob | AffReal | AffNumeric.

(** SQLite's rule from a declared type to a column affinity. *)
Definition affinity_of (ty : list string) : affinity :=
  let has p := existsb (fun w => contains p (upper w)) ty in
  if has "INT" then AffInteger
  else if has "CHAR" || has "CLOB" || has "TEXT" then AffText
  else if match ty with [] => true | _ => false end || has "BLOB" then AffBlob
  else if has "REAL" || has "FLOA" || has "DOUB" then AffReal
  else AffNumeric.

Record column : Type := {
  cname : string;
  caff : affinity;
  cnotnull : bool
}.

Definition row : Type := (Z * list value)%type.

(** A rowid table whose INTEGER PRIMARY KEY column [pkname] is the rowid.
    [cols] are the other columns in declaration order; a row is its rowid
    and one value per column; rows are kept in rowid order, the order of a
    table scan. *)
Record table : Type := {
  pkname : string;
  cols : list column;
  rows : list row
}.

(** The database file: the table, once created. *)
Definition database : Type := option table.

Definition min_int64 : Z := - 2 ^ 63.
Definition max_int64 : Z := 2 ^ 63 - 1.

Definition in_int64 (v : value) : bool :=
  match v with
  | Integer z => (min_int64 <=? z) && (z <=? max_int64)
  | _ => true
  end.

(** Integers a float holds exactly. *)
Definition exact_float (z : Z) : bool := (- 2 ^ 53 <=? z) && (z <=? 2 ^ 53).

(** An integer written in decimal, as SQLite turns it into text. *)
Definition decimal (z : Z) : string := NilZero.string_of_int (Z.to_int z).

(** Column affinity applied to a value about to be stored. *)
Definition apply_affinity (a : affinity) (v : value) : outcome value :=
  match a, v with
  | _, Null => Ok Null
  | AffBlob, _ => Ok v
  | AffText, Text _ => Ok v
  | AffText, Integer z => Ok (Text (decimal z))
  | AffText, Real _ => Unmodelled
  | AffReal, Integer z =>
    if exact_float z then Ok (Real (inject_Z z)) else Unmodelled
  | AffReal, Real _ => Ok v
  | (AffInteger | AffNumeric), Integer _ => Ok v
  | (AffInteger | AffNumeric), Real _ => Unmodelled
  | (AffReal | AffInteger | AffNumeric), Text s =>
    if any_char is_digit s then Unmodelled else Ok v
  end.

(** Affinity applied to the parameter of [column op ?] before comparing. *)
Definition compare_affinity (a : affinity) (p : value) : outcome value :=
  match a, p with
  | _, Null => Ok Null
  | AffBlob, _ => Ok p
  | AffText, Text _ => Ok p
  | AffText, Integer z => Ok (Text (decimal z))
  | AffText, Real _ => Unmodelled
  | _, Text s => if any_char is_digit s then Unmodelled else Ok p
  | _, _ => Ok p
  end.

Definition num_of (v : value) : option Q :=
  match v with
  | Integer z => Some (inject_Z z)
  | Real q => Some q
  | _ => None
  end.

(** SQLite's order on values; [None] when an operand is NULL. *)
Definition compare_values (x y : value) : option comparison :=
  match x, y with
  | Null, _ | _, Null => None
  | Text a, Text b => Some (String.compare a b)
  | Text _, _ => Some Gt
  | _, Text _ => Some Lt
  | _, _ =>
    match num_of x, num_of y with
    | Some p, Some q => Some (Qcompare p q)
    | _, _ => None
    end
  end.

(** [x op y] is true (not false, not NULL). *)
Definition cmp_true (op : cmp) (x y : value) : bool :=
  match compare_values x y, op with
  | Some Eq, _ => true
  | Some Gt, CGe => true
  | Some Lt, CLe => true
  | _, _ => false
  end.

(** *** Names *)

Inductive colref : Type :=
| RowidRef
| AttrRef (i : nat).

Fixpoint index_of (n : string) (cs : list column) : option nat :=
  match cs with
  | [] => None
  | c :: cs' =>
    if ieq (cname c) n then Some 0%nat
    else option_map S (index_of n cs')
  end.

Definition is_rowid_alias (n : string) : bool :=
  ieq n "rowid" || ieq n "_rowid_" || ieq n "oid".

(** A name is looked up among the columns, case-insensitively, and then
    among the aliases of the rowid. *)
Definition resolve (t : table) (n : string) : option colref :=
  if ieq (pkname t) n then Some RowidRef
  else match index_of n (cols t) with
       | Some i => Some (AttrRef i)
       | None => if is_rowid_alias n then Some RowidRef else None
       end.

Definition resolve_all (t : table) (ns : list string) : outcome (list colref) :=
  omap (fun n => match resolve t n with
                 | Some r => Ok r
                 | None => Raise OperationalError
                 end) ns.

Definition ref_affinity (t : table) (r : colref) : affinity :=
  match r with
  | RowidRef => AffInteger
  | AttrRef i => match nth_error (cols t) i with
                 | Some c => caff c
                 | None => AffBlob
                 end
  end.

Definition get_col (r : row) (c : colref) : value :=
  match c with
  | RowidRef => Integer (fst r)
  | AttrRef i => nth i (snd r) Null
  end.

(** *** WHERE *)

Inductive patom : Type :=
| PTrue
| PCmp (c : colref) (op : cmp).

Definition prepare_atom (t : table) (a : atom) : outcome patom :=
  match a with
  | ATrue => Ok PTrue
  | ACmp n op => match resolve t n with
                 | Some r => Ok (PCmp r op)
                 | None => Raise OperationalError
                 end
  end.

(** Pair each comparison with its parameter, converted for the column. *)
Fixpoint bind_cond (t : table) (c : list patom) (ps : list value)
  : outcome (list (colref * cmp * value)) :=
  match c with
  | [] => Ok []
  | PTrue :: c' => bind_cond t c' ps
  | PCmp r op :: c' =>
    match ps with
    | p :: ps' =>
      obind (compare_affinity (ref_affinity t r) p) (fun p' =>
      obind (bind_cond t c' ps') (fun l => Ok ((r, op, p') :: l)))
    | [] => Raise ProgrammingError
    end
  end.

Definition row_matches (c : list (colref * cmp * value)) (r : row) : bool :=
  forallb (fun x => match x with (cr, op, p) => cmp_true op (get_col r cr) p end) c.

(** *** INSERT *)

(** The parameter of the first listed name that is column [i]; NULL, the
    default, when the column is not listed. *)
Fixpoint listed_value (refs : list colref) (ps : list value) (i : nat) : value :=
  match refs, ps with
  | AttrRef j :: refs', p :: ps' =>
    if (j =? i)%nat then p else listed_value refs' ps' i
  | _ :: refs', _ :: ps' => listed_value refs' ps' i
  | _, _ => Null
  end.

(** The parameter of the last listed name that is the rowid, if any. *)
Fixpoint listed_rowid (refs : list colref) (ps : list value) (acc : option value)
  : option value :=
  match refs, ps with
  | RowidRef :: refs', p :: ps' => listed_rowid refs' ps' (Some p)
  | _ :: refs', _ :: ps' => listed_rowid refs' ps' acc
  | _, _ => acc
  end.

Fixpoint store_values (cs : list column) (i : nat) (get : nat -> value)
  : outcome (list value) :=
  match cs with
  | [] => Ok []
  | c :: cs' =>
    obind (apply_affinity (caff c) (get i)) (fun v =>
    obind (store_values cs' (S i) get) (fun vs => Ok (v :: vs)))
  end.

Fixpoint not_null_ok (cs : list column) (vs : list value) : bool :=
  match cs, vs with
  | c :: cs', v :: vs' =>
    negb (cnotnull c && match v with Null => true | _ => false end)
    && not_null_ok cs' vs'
  | _, _ => true
  end.

Definition max_rowid (rs : list row) : option Z :=
  match rs with
  | [] => None
  | r :: rs' => Some (fold_left Z.max (map fst rs') (fst r))
  end.

Definition has_rowid (rs : list row) (z : Z) : bool :=
  existsb (fun r => fst r =? z) rs.

(** A value offered as rowid must be an integer. *)
Definition as_rowid (v : value) : outcome Z :=
  match v with
  | Integer z => Ok z
  | Null => Raise IntegrityError
  | Real _ => Unmodelled
  | Text s => if any_char is_digit s then Unmodelled else Raise IntegrityError
  end.

Definition new_rowid (rs : list row) : outcome Z :=
  match max_rowid rs with
  | None => Ok 1
  | Some m => if m <? max_int64 then Ok (m + 1) else Unmodelled
  end.

Fixpoint insert_row (r : row) (rs : list row) : list row :=
  match rs with
  | [] => [r]
  | x :: rs' => if fst r <? fst x then r :: rs else x :: insert_row r rs'
  end.

Definition run_insert (t : table) (refs : list colref) (ps : list value)
  : outcome (table * Z) :=
  obind (store_values (cols t) 0 (listed_value refs ps)) (fun vs =>
  if negb (not_null_ok (cols t) vs) then Raise IntegrityError
  else
    obind (match listed_rowid refs ps None with
           | None | Some Null => new_rowid (rows t)
           | Some v => as_rowid v
           end) (fun id =>
    if has_rowid (rows t) id then Raise IntegrityError
    else Ok ({| pkname := pkname t; cols := cols t;
                rows := insert_row (id, vs) (rows t) |}, id))).

(** *** UPDATE *)

(** The parameter of the last assignment to the referenced column. *)
Fixpoint assigned (refs : list colref) (ps : list value) (c : colref)
         (acc : option value) : option value :=
  match refs, ps with
  | r :: refs', p :: ps' =>
    assigned refs' ps' c
      (match r, c with
       | RowidRef, RowidRef => Some p
       | AttrRef j, AttrRef i => if (j =? i)%nat then Some p else acc
       | _, _ => acc
       end)
  | _, _ => acc
  end.

Fixpoint update_values (cs : list column) (i : nat) (old : list value)
         (set : nat -> option value) : outcome (list value) :=
  match cs with
  | [] => Ok []
  | c :: cs' =>
    obind (match set i with
           | Some p => apply_affinity (caff c) p
           | None => Ok (nth 0 old Null)
           end) (fun v =>
    obind (update_values cs' (S i) (tl old) set) (fun vs => Ok (v :: vs)))
  end.

Definition update_row (t : table) (refs : list colref) (ps : list value) (r : row)
  : outcome row :=
  obind (update_values (cols t) 0 (snd r)
           (fun i => assigned refs ps (AttrRef i) None)) (fun vs =>
  if negb (not_null_ok (cols t) vs) then Raise IntegrityError
  else
    obind (match assigned refs ps RowidRef None with
           | None => Ok (fst r)
           | Some v => as_rowid v
           end) (fun id => Ok (id, vs))).

Fixpoint distinct_rowids (rs : list row) : bool :=
  match rs with
  | [] => true
  | r :: rs' => negb (has_rowid rs' (fst r)) && distinct_rowids rs'
  end.

Definition run_update (t : table) (refs : list colref)
           (c : list (colref * cmp * value)) (ps : list value) : outcome table :=
  obind (omap (fun r => if row_matches c r then update_row t refs ps r else Ok r)
              (rows t)) (fun rs =>
  if distinct_rowids rs
  then Ok {| pkname := pkname t; cols := cols t;
             rows := fold_right insert_row [] rs |}
  else Raise IntegrityError).

(** *** DELETE, SELECT *)

Definition run_delete (t : table) (c : list (colref * cmp * value)) : table :=
  {| pkname := pkname t; cols := cols t;
     rows := filter (fun r => negb (row_matches c r)) (rows t) |}.

(** A result row: the rowid column first, then the other columns. *)
Definition output_row (r : row) : list value := Integer (fst r) :: snd r.

Definition run_select (t : table) (c : list (colref * cmp * value))
  : list (list value) :=
  map output_row (filter (row_matches c) (rows t)).

(** *** ALTER TABLE ADD COLUMN, CREATE TABLE *)

Definition max_columns : nat := 2000.

(** All the columns of the table, the rowid column among them. *)
Definition column_count (t : table) : nat := S (List.length (cols t)).

Definition has_column (t : table) (n : string) : bool :=
  ieq (pkname t) n || existsb (fun c => ieq (cname c) n) (cols t).

Definition column_of (d : coldef) : column :=
  {| cname := dname d; caff := affinity_of (dtype d); cnotnull := dnotnull d |}.

(** The new column is appended; existing rows read NULL in it. *)
Definition run_alter (t : table) (d : coldef) : outcome table :=
  if has_column t (dname d) then Raise OperationalError
  else if (max_columns <=? column_count t)%nat then Raise OperationalError
  else Ok {| pkname := pkname t;
             cols := (cols t ++ [column_of d])%list;
             rows := map (fun r => (fst r, (snd r ++ [Null])%list)) (rows t) |}.

Fixpoint distinct_names (ns : list string) : bool :=
  match ns with
  | [] => true
  | n :: ns' => negb (existsb (ieq n) ns') && distinct_names ns'
  end.

(** Only tables whose first column is the INTEGER PRIMARY KEY, as in
    [create_table], are modelled. *)
Definition run_create (defs : list coldef) : outcome table :=
  match defs with
  | pk :: rest =>
    if negb (distinct_names (map dname defs)) then Raise OperationalError
    else if dpk pk
            && match dtype pk with [w] => ieq w "INTEGER" | _ => false end
            && negb (existsb dpk rest)
    then Ok {| pkname := dname pk; cols := map column_of rest; rows := [] |}
    else Unmodelled
  | [] => Unmodelled
  end.

(** The rows of [PRAGMA table_info]; of the six fields of a row the model
    gives the first two, the column number and the column name. *)
Definition table_info (t : table) : list (list value) :=
  map (fun p => [Integer (Z.of_nat (fst p)); Text (snd p)])
      (combine (seq 0 (S (List.length (cols t)))) (pkname t :: map cname (cols t))).

(** ** The [sqlite3] connection

    [committed] is the database as committed; [pending] is the working copy
    of the open transaction, if one is open.  Every statement of the
    connection reads and writes the working copy when there is one. *)

Record connection : Type := {
  committed : database;
  pending : option database
}.

Definition view (c : connection) : database :=
  match pending c with
  | Some d => d
  | None => committed c
  end.

Definition set_view (c : connection) (d : database) : connection :=
  match pending c with
  | Some _ => {| committed := committed c; pending := Some d |}
  | None => {| committed := d; pending := None |}
  end.

(** The implicit BEGIN of the module. *)
Definition begin (c : connection) : connection :=
  match pending c with
  | Some _ => c
  | None => {| committed := committed c; pending := Some (committed c) |}
  end.

Record cursor : Type := {
  fetched : list (list value);
  lastrowid : option Z
}.

(** A statement compiled against the schema. *)
Inductive prepared : Type :=
| PCreate (defs : list coldef)
| PInsert (refs : list colref)
| PUpdate (refs : list colref) (cond : list patom)
| PDelete (cond : list patom)
| PSelect (cond : list patom)
| PAlter (def : coldef)
| PPragma.

(** Compilation fails on a missing table, an unknown column, or a value
    list of the wrong length. *)
Definition prepare (db : database) (s : stmt) : outcome prepared :=
  match s, db with
  | SCreate defs, _ => Ok (PCreate defs)
  | SPragma, _ => Ok PPragma
  | _, None => Raise OperationalError
  | SInsert names n, Some t =>
    obind (resolve_all t names) (fun refs =>
    if (List.length names =? n)%nat then Ok (PInsert refs)
    else Raise OperationalError)
  | SUpdate sets cond, Some t =>
    obind (resolve_all t sets) (fun refs =>
    obind (omap (prepare_atom t) cond) (fun c => Ok (PUpdate refs c)))
  | SDelete cond, Some t =>
    obind (omap (prepare_atom t) cond) (fun c => Ok (PDelete c))
  | SSelect cond, Some t =>
    obind (omap (prepare_atom t) cond) (fun c => Ok (PSelect c))
  | SAlterAdd d, Some t => Ok (PAlter d)
  end.

Definition count_cmp (c : list patom) : nat :=
  List.length (filter (fun a => match a with PCmp _ _ => true | PTrue => false end) c).

Definition nparams (p : prepared) : nat :=
  match p with
  | PInsert refs => List.length refs
  | PUpdate refs c => (List.length refs + count_cmp c)%nat
  | PDelete c | PSelect c => count_cmp c
  | _ => 0%nat
  end.

(** INSERT, UPDATE and DELETE are the statements before which the module
    opens a transaction. *)
Definition is_dml (p : prepared) : bool :=
  match p with
  | PInsert _ | PUpdate _ _ | PDelete _ => true
  | _ => false
  end.

Definition no_rows (db : database) : outcome (database * cursor) :=
  Ok (db, {| fetched := []; lastrowid := None |}).

Definition step (p : prepared) (ps : list value) (db : database)
  : outcome (database * cursor) :=
  match p, db with
  | PCreate defs, Some _ => no_rows db
  | PCreate defs, None => obind (run_create defs) (fun t => no_rows (Some t))
  | PPragma, None => no_rows db
  | PPragma, Some t => Ok (db, {| fetched := table_info t; lastrowid := None |})
  | _, None => Raise OperationalError
  | PInsert refs, Some t =>
    obind (run_insert t refs ps) (fun x =>
    Ok (Some (fst x), {| fetched := []; lastrowid := Some (snd x) |}))
  | PUpdate refs c, Some t =>
    obind (bind_cond t c (skipn (List.length refs) ps)) (fun c' =>
    obind (run_update t refs c' (firstn (List.length refs) ps)) (fun t' =>
    no_rows (Some t')))
  | PDelete c, Some t =>
    obind (bind_cond t c ps) (fun c' => no_rows (Some (run_delete t c')))
  | PSelect c, Some t =>
    obind (bind_cond t c ps) (fun c' =>
    Ok (db, {| fetched := run_select t c'; lastrowid := None |}))
  | PAlter d, Some t => obind (run_alter t d) (fun t' => no_rows (Some t'))
  end.

(** Binding the parameters: their number must be the number of [?]; an
    [int] must fit in 64 bits. *)
Definition bind_check (p : prepared) (ps : list value) : outcome unit :=
  if negb (List.length ps =? nparams p)%nat then Raise ProgrammingError
  else if negb (forallb in_int64 ps) then Raise OverflowError
  else Ok tt.

(** What a call of the program does to the connection: it returns, it
    raises, or the model has no answer. *)
Inductive result (A : Type) : Type :=
| Return (a : A) (c : connection)
| Raised (e : error) (c : connection)
| NoModel.
Arguments Return {A} a c.
Arguments Raised {A} e c.
Arguments NoModel {A}.

(** [cur.execute(sql, params)] *)
Definition execute (conn : connection) (sql : string) (ps : list value)
  : result cursor :=
  match parse_sql sql with
  | None => NoModel
  | Some s =>
    match prepare (view conn) s with
    | Unmodelled => NoModel
    | Raise e => Raised e conn
    | Ok p =>
      let conn1 := if is_dml p then begin conn else conn in
      match obind (bind_check p ps) (fun _ => step p ps (view conn1)) with
      | Ok (db, cur) => Return cur (set_view conn1 db)
      | Raise e => Raised e conn1
      | Unmodelled => NoModel
      end
    end
  end.

(** [conn.commit()] *)
Definition commit (conn : connection) : result unit :=
  Return tt {| committed := view conn; pending := None |}.

(** ** The functions of [main.py]

    A function takes the connection and gives a [result]; an exception of a
    call propagates, with the connection as the call left it. *)

Definition bind {A B} (m : result A) (f : A -> connection -> result B) : result B :=
  match m with
  | Return a c => f a c
  | Raised e c => Raised e c
  | NoModel => NoModel
  end.

Notation "x <- m ;; k" := (bind m (fun x => k))
  (at level 61, m at next level, right associativity).

(** A Python [dict] with [str] keys, in insertion order. *)
Definition dict : Type := list (string * value).
Definition keys (d : dict) : list string := map fst d.
Definition values (d : dict) : list value := map snd d.

(** [sqlite3.Error] and its subclasses; [OverflowError] is not one. *)
Definition is_sqlite_error (e : error) : bool :=
  match e with
  | OverflowError => false
  | _ => true
  end.

Definition create_table (conn : connection) : result unit :=
  match execute conn sql_create_employees_table [] with
  | Return _ c => Return tt c
  | Raised e c => if is_sqlite_error e then Return tt c else Raised e c
  | NoModel => NoModel
  end.

Definition insert_employee (conn : connection) (employee : dict)
  : result (option Z) :=
  cur <- execute conn (insert_sql (keys employee)) (values employee) ;;
  fun conn => _ <- commit conn ;; fun conn => Return (lastrowid cur) conn.

Definition update_employee (conn : connection) (employee : dict)
           (employee_id : value) : result unit :=
  cur <- execute conn (update_sql (keys employee))
                 (values employee ++ [employee_id])%list ;;
  fun conn => commit conn.

Definition delete_employee (conn : connection) (id : value) : result unit :=
  cur <- execute conn delete_sql [id] ;;
  fun conn => commit conn.

Definition select_all_employees (conn : connection) : result (list (list value)) :=
  cur <- execute conn select_all_sql [] ;;
  fun conn => Return (fetched cur) conn.

Definition select_employee_by_id (conn : connection) (id : value)
  : result (option (list value)) :=
  cur <- execute conn select_by_id_sql [id] ;;
  fun conn => Return (hd_error (fetched cur)) conn.

Definition select_employees_filtered (conn : connection)
           (department min_salary max_salary : value)
  : result (list (list value)) :=
  let query := "SELECT * FROM employees WHERE 1=1" in
  let params : list value := [] in
  let (query, params) :=
    if truthy department
    then (query ++ " AND department=?", (params ++ [department])%list)
    else (query, params) in
  let (query, params) :=
    if truthy min_salary
    then (query ++ " AND salary>=?", (params ++ [min_salary])%list)
    else (query, params) in
  let (query, params) :=
    if truthy max_salary
    then (query ++ " AND salary<=?", (params ++ [max_salary])%list)
    else (query, params) in
  cur <- execute conn query params ;;
  fun conn => Return (fetched cur) conn.

(** The loop [for column in columns: cur.execute(...)]. *)
Fixpoint add_each (conn : connection) (columns : list string) : result unit :=
  match columns with
  | [] => Return tt conn
  | column :: rest =>
    cur <- execute conn (alter_sql column) [] ;;
    fun conn => add_each conn rest
  end.

Definition add_extra_columns (conn : connection) (columns : list string)
  : result unit :=
  _ <- add_each conn columns ;;
  fun conn => commit conn.

Definition get_columns (conn : connection) : result (list value) :=
  cur <- execute conn pragma_sql [] ;;
  fun conn =>
    Return (map (fun info => nth 1 info Null)
                (filter (fun info => negb (py_eq (nth 1 info Null) (Text "id")))
                        (fetched cur)))
           conn.

(** [sqlite3.connect('employee.db')] when the file is new: no table yet,
    no transaction open.  (On a file left by an earlier run the connection
    sees the table stored there.) *)
Definition create_connection : connection :=
  {| committed := None; pending := None |}.

(** ** Vocabulary of the properties and of their proofs *)

(** The tokens of [k1, k2, ..., kn]. *)
Fixpoint id_tokens (ks : list string) : list token :=
  match ks with
  | [] => []
  | [k] => [TWord k]
  | k :: ks' => TWord k :: TComma :: id_tokens ks'
  end.

(** The tokens of [?, ?, ..., ?]. *)
Fixpoint q_tokens (n : nat) : list token :=
  match n with
  | O => []
  | 1%nat => [TQm]
  | S n' => TQm :: TComma :: q_tokens n'
  end.

(** The tokens of [k1 = ?, k2 = ?, ..., kn = ?]. *)
Fixpoint set_tokens (ks : list string) : list token :=
  match ks with
  | [] => []
  | [k] => [TWord k; TEq; TQm]
  | k :: ks' => TWord k :: TEq :: TQm :: TComma :: set_tokens ks'
  end.

(** Keys that are plain names. *)
Definition idents (ks : list string) : Prop := Forall (fun k => is_ident k = true) ks.

(** The words of a column name as the engine reads it inside
    [ALTER TABLE employees ADD COLUMN ... TEXT]: defined when the name is
    made of plain names and blanks only. *)
Fixpoint words_of (ts : list token) : option (list string) :=
  match ts with
  | [] => Some []
  | TWord w :: ts' => if is_ident w then option_map (cons w) (words_of ts') else None
  | _ => None
  end.

Definition name_words (c : string) : option (list string) :=
  obind_opt (tokenize c) words_of.

(** The column definition the engine reads from the words of the name
    followed by [TEXT]: the first word is the column, the rest its type. *)
Definition added_column (ws : list string) : coldef :=
  let l := (ws ++ ["TEXT"])%list in
  {| dname := hd "TEXT" l; dtype := tl l; dnotnull := false; dpk := false |}.

(** The tokens of [ALTER TABLE employees ADD COLUMN]. *)
Definition alter_prefix : list token :=
  [TWord "ALTER"; TWord "TABLE"; TWord "employees"; TWord "ADD"; TWord "COLUMN"].

(** ** The table of the program

    What [create_table] builds and [add_extra_columns] extends: the rowid
    column is [id]; the columns start with [name], [department] and
    [salary]; names are plain and differ even when case is ignored; rows
    hold 64-bit rowids and come in strictly increasing rowid order. *)

Definition base_cols : list column :=
  [ {| cname := "name"; caff := AffText; cnotnull := true |};
    {| cname := "department"; caff := AffText; cnotnull := true |};
    {| cname := "salary"; caff := AffReal; cnotnull := false |} ].

Record employees_table (t : table) : Prop := {
  et_pk : pkname t = "id";
  et_base : exists extra, cols t = (base_cols ++ extra)%list;
  et_idents : Forall (fun c => is_ident (cname c) = true) (cols t);
  et_distinct : distinct_names (pkname t :: map cname (cols t)) = true;
  et_width : Forall (fun r => List.length (snd r) = List.length (cols t)) (rows t);
  et_rowids : Forall (fun r => in_int64 (Integer (fst r)) = true) (rows t);
  et_sorted : StronglySorted Z.lt (map fst (rows t))
}.

(** The attribute names of the table, [currentAttributes()]. *)
Definition attributes (t : table) : list string := map cname (cols t).

(** The condition [id = ?] bound to an identifier. *)
Definition by_id (id : Z) : list (colref * cmp * value) := [(RowidRef, CEq, Integer id)].

(** ** Records as the queries return them

    A returned record is the tuple [(id, name, department, salary, ...)]. *)

Definition department_of (r : list value) : value := nth 2 r Null.
Definition salary_of (r : list value) : value := nth 3 r Null.

(** The filter arguments of [queryFiltered]: an optional string and two
    optional numbers. *)
Inductive number : Type :=
| NInt (z : Z)
| NFloat (q : Q).

Definition number_value (n : number) : value :=
  match n with
  | NInt z => Integer z
  | NFloat q => Real q
  end.

Definition number_Q (n : number) : Q :=
  match n with
  | NInt z => inject_Z z
  | NFloat q => q
  end.

Definition arg_str (d : option string) : value :=
  match d with
  | Some s => Text s
  | None => Null
  end.

Definition arg_num (n : option number) : value :=
  match n with
  | Some x => number_value x
  | None => Null
  end.

(** The predicates of the specification on a returned record: department
    by string equality, salary bounds inclusive. *)
Definition in_department (s : string) (r : list value) : bool :=
  match department_of r with
  | Text s' => (s' =? s)%string
  | _ => false
  end.

Definition salary_at_least (lo : number) (r : list value) : bool :=
  match num_of (salary_of r) with
  | Some x => Qle_bool (number_Q lo) x
  | None => false
  end.

Definition salary_at_most (hi : number) (r : list value) : bool :=
  match num_of (salary_of r) with
  | Some x => Qle_bool x (number_Q hi)
  | None => false
  end.

Definition holds {A} (p : A -> list value -> bool) (a : option A) (r : list value) : bool :=
  match a with
  | Some x => p x r
  | None => true
  end.

(** [queryFiltered] as the specification words it: the records of
    [queryAll] that satisfy every supplied predicate. *)
Definition queryFiltered_spec (all : list (list value)) (d : option string)
           (lo hi : option number) : list (list value) :=
  filter (fun r => holds in_department d r
                   && holds salary_at_least lo r
                   && holds salary_at_most hi r) all.

(** The arguments the program takes as supplied: the truthy ones. *)
Definition supplied_str (d : option string) : option string :=
  match d with
  | Some s => if (s =? EmptyString)%string then None else Some s
  | None => None
  end.

Definition supplied_num (n : option number) : option number :=
  match n with
  | Some x => if Qeq_bool (number_Q x) 0 then None else Some x
  | None => None
  end.

(** Every stored salary is a number or NULL. *)
Definition salaries_numeric (t : table) : Prop :=
  Forall (fun r : row => match nth 2 (snd r) Null with
                         | Text _ => False
                         | _ => True
                         end) (rows t).

(** The query of [select_employees_filtered] by the truthiness of its
    three arguments: the text, what the parser reads, what the statement
    compiles to, its parameters and its bound conditions. *)
Definition filter_atoms (bd bl bh : bool) : list atom :=
  (ATrue :: (if bd then [ACmp "department" CEq] else [])
         ++ (if bl then [ACmp "salary" CGe] else [])
         ++ (if bh then [ACmp "salary" CLe] else []))%list.

Definition filter_patoms (bd bl bh : bool) : list patom :=
  (PTrue :: (if bd then [PCmp (AttrRef 1) CEq] else [])
         ++ (if bl then [PCmp (AttrRef 2) CGe] else [])
         ++ (if bh then [PCmp (AttrRef 2) CLe] else []))%list.

Definition filter_conds (d lo hi : value) : list (colref * cmp * value) :=
  ((if truthy d then [(AttrRef 1, CEq, d)] else [])
     ++ (if truthy lo then [(AttrRef 2, CGe, lo)] else [])
     ++ (if truthy hi then [(AttrRef 2, CLe, hi)] else []))%list.

Definition filter_query (bd bl bh : bool) : string :=
  let query := "SELECT * FROM employees WHERE 1=1" in
  let query := if bd then query ++ " AND department=?" else query in
  let query := if bl then query ++ " AND salary>=?" else query in
  if bh then query ++ " AND salary<=?" else query.

Definition filter_params (d lo hi : value) : list value :=
  ((if truthy d then [d] else [])
     ++ (if truthy lo then [lo] else [])
     ++ (if truthy hi then [hi] else []))%list.

(** An argument of the declared type: text or absent; number or absent. *)
Definition str_arg (v : value) : Prop :=
  match v with
  | Null | Text _ => True
  | _ => False
  end.

Definition num_arg (v : value) : Prop :=
  match v with
  | Null | Real _ => True
  | Integer _ => in_int64 v = true
  | Text _ => False
  end.

Definition number_ok (n : option number) : Prop :=
  match n with
  | Some (NInt z) => in_int64 (Integer z) = true
  | _ => True
  end.

(** ** Records as the caller passes them *)

(** [d[k]] *)
Fixpoint lookup (k : string) (d : dict) : option value :=
  match d with
  | [] => None
  | (k', v) :: d' => if (k' =? k)%string then Some v else lookup k d'
  end.


(** The value a record gives for a column; NULL when the record has no
    such key. *)
Definition field (e : dict) (c : column) : value :=
  match lookup (cname c) e with
  | Some v => v
  | None => Null
  end.

(** What a column of the given affinity keeps of a value it can take: the
    value itself, an [int] becoming a float in a REAL column. *)
Definition stored (a : affinity) (v : value) : value :=
  match a, v with
  | AffReal, Integer z => Real (inject_Z z)
  | _, _ => v
  end.

(** The values a column keeps as they are, up to an integer turned into
    the float of the same value: text in a TEXT column; a float, or an
    integer a float holds exactly, in a REAL column; an integer in a column
    of INTEGER or NUMERIC affinity; text that holds no digit, and so is
    never read as a number, in these three; anything in a column without
    affinity; NULL anywhere. *)
Definition storable (a : affinity) (v : value) : bool :=
  match a, v with
  | _, Null => true
  | AffBlob, _ => true
  | AffText, Text _ => true
  | AffText, _ => false
  | AffReal, Integer z => exact_float z
  | AffReal, Real _ => true
  | (AffInteger | AffNumeric), Integer _ => true
  | (AffInteger | AffNumeric), Real _ => false
  | (AffReal | AffInteger | AffNumeric), Text s => negb (any_char is_digit s)
  end.

Definition is_null (v : value) : bool :=
  match v with
  | Null => true
  | _ => false
  end.

(** The record gives the column a value of its type, and a value at all
    when the column is NOT NULL. *)
Definition accepts (e : dict) (c : column) : bool :=
  storable (caff c) (field e c) && negb (cnotnull c && is_null (field e c)).

(** A valid record: its key set is the current schema, and every value has
    the type of its attribute. *)
Record valid_record (t : table) (e : dict) : Prop := {
  vr_keys : Permutation (keys e) (attributes t);
  vr_values : forallb (accepts e) (cols t) = true;
  vr_ints : forallb in_int64 (values e) = true
}.

(** The row stored for a record. *)
Definition new_row (t : table) (e : dict) : list value :=
  map (fun c => stored (caff c) (field e c)) (cols t).

(** The identifier the next insertion gets. *)
Definition next_id (t : table) : Z :=
  match max_rowid (rows t) with
  | None => 1
  | Some m => m + 1
  end.

(** The table after the insertion of a record. *)
Definition inserted (t : table) (e : dict) : table :=
  {| pkname := pkname t; cols := cols t;
     rows := insert_row (next_id t, new_row t e) (rows t) |}.

(** The table after ADD COLUMN. *)
Definition with_column (t : table) (d : coldef) : table :=
  {| pkname := pkname t;
     cols := (cols t ++ [column_of d])%list;
     rows := map (fun r => (fst r, (snd r ++ [Null])%list)) (rows t) |}.

(** A name made of name words and blanks. *)
Definition modelled_name (c : string) : Prop := name_words c <> None.

(** The column a name adds: the first of its words, or [TEXT] when it has
    none. *)
Definition column_named (c : string) : option string :=
  option_map (fun ws => dname (added_column ws)) (name_words c).

(** ** Stores of the examples *)

(** A connection with nothing pending on a database holding the table. *)
Definition open_db (t : table) : connection :=
  {| committed := Some t; pending := None |}.

(** The table as [create_table] makes it. *)
Definition employees0 : table :=
  {| pkname := "id"; cols := base_cols; rows := [] |}.

Definition ana : dict :=
  [("name", Text "Ana"); ("department", Text "Eng"); ("salary", Integer 70000)].

Definition bo : dict :=
  [("name", Text "Bo"); ("department", Text "Sales"); ("salary", Integer 40000)].

Definition ana_row : list value := [Text "Ana"; Text "Eng"; Real (inject_Z 70000)].
Definition bo_row : list value := [Text "Bo"; Text "Sales"; Real (inject_Z 40000)].

(** After inserting Ana, then Bo. *)
Definition employees2 : table :=
  {| pkname := "id"; cols := base_cols; rows := [(1, ana_row); (2, bo_row)] |}.

(** One employee whose salary is NULL. *)
Definition employees_null : table :=
  {| pkname := "id"; cols := base_cols;
     rows := [(1, [Text "Ana"; Text "Eng"; Null])] |}.

(** One employee whose salary was stored as text. *)
Definition employees_text : table :=
  {| pkname := "id"; cols := base_cols;
     rows := [(1, [Text "Ana"; Text "Eng"; Text "n/a"])] |}.

Definition text_column (n : string) : column :=
  {| cname := n; caff := AffText; cnotnull := false |}.

(** After [add_extra_columns] of one plain name on the empty table. *)
Definition employees_plus (n : string) : table :=
  {| pkname := "id"; cols := (base_cols ++ [text_column n])%list; rows := [] |}.

(** ** The store across calls

    The functions of [main.py] as the steps of one store: any of them may be
    called next, on the connection as the call before left it, whether
    that call returned or raised. *)

Inductive call : Type :=
| CreateTable
| InsertEmployee (employee : dict)
| UpdateEmployee (employee : dict) (employee_id : value)
| DeleteEmployee (id : value)
| SelectAllEmployees
| SelectEmployeeById (id : value)
| SelectEmployeesFiltered (department min_salary max_salary : value)
| AddExtraColumns (columns : list string)
| GetColumns
| Reconnect.

(** The connection a call leaves, by return or by exception. *)
Definition left_by {A} (r : result A) : option connection :=
  match r with
  | Return _ c => Some c
  | Raised _ c => Some c
  | NoModel => None
  end.

(** [sqlite3.connect('employee.db')] in a later run of the script, the
    earlier connection being closed: the new connection sees what was
    committed, and what was left uncommitted is gone. *)
Definition reconnect (conn : connection) : connection :=
  {| committed := committed conn; pending := None |}.

Definition do_call (c : call) (conn : connection) : option connection :=
  match c with
  | CreateTable => left_by (create_table conn)
  | InsertEmployee e => left_by (insert_employee conn e)
  | UpdateEmployee e id => left_by (update_employee conn e id)
  | DeleteEmployee id => left_by (delete_employee conn id)
  | SelectAllEmployees => left_by (select_all_employees conn)
  | SelectEmployeeById id => left_by (select_employee_by_id conn id)
  | SelectEmployeesFiltered d lo hi => left_by (select_employees_filtered conn d lo hi)
  | AddExtraColumns cs => left_by (add_extra_columns conn cs)
  | GetColumns => left_by (get_columns conn)
  | Reconnect => Some (reconnect conn)
  end.

Fixpoint do_calls (cs : list call) (conn : connection) : option connection :=
  match cs with
  | [] => Some conn
  | c :: cs' =>
    match do_call c conn with
    | Some conn' => do_calls cs' conn'
    | None => None
    end
  end.

(** *** Calls with plain arguments

    The calls the properties of the store across calls are about.  Column
    names and keys are plain names.  A value is None, an [int], a float or
    a [str], as [value] has them, and goes where the column takes it
    without a conversion the model leaves out: as [salary], None, a
    float, an [int] a float holds exactly, or text without a digit; under
    another key, anything but a float; as identifier ([id], or a name
    SQLite reads as the rowid), None or an [int] of at most 2^62, which
    leaves room for the identifiers the insertions assign; in a condition
    on [id] or on [salary], anything but text with a digit in it. *)

Definition id_value (v : value) : bool :=
  match v with
  | Null => true
  | Integer z => z <=? 2 ^ 62
  | Real _ | Text _ => false
  end.

Definition not_float (v : value) : bool :=
  match v with
  | Real _ => false
  | _ => true
  end.

Definition no_numeral (v : value) : bool :=
  match v with
  | Text s => negb (any_char is_digit s)
  | _ => true
  end.

Definition plain_value (k : string) (v : value) : bool :=
  if ieq k "id" || is_rowid_alias k then id_value v
  else if ieq k "salary" then storable AffReal v
  else not_float v.

(** A record with at least one key. *)
Definition plain_record (e : dict) : bool :=
  match e with
  | [] => false
  | _ :: _ => forallb (fun kv => is_ident (fst kv) && plain_value (fst kv) (snd kv)) e
  end.

Definition plain_call (c : call) : bool :=
  match c with
  | InsertEmployee e => plain_record e
  | UpdateEmployee e id => plain_record e && no_numeral id
  | DeleteEmployee id | SelectEmployeeById id => no_numeral id
  | SelectEmployeesFiltered d lo hi => not_float d && no_numeral lo && no_numeral hi
  | AddExtraColumns cs => forallb is_ident cs
  | CreateTable | SelectAllEmployees | GetColumns | Reconnect => true
  end.

(** A stored row against the columns: one value for each column, text or
    NULL where the column is a TEXT column, no NULL where it is NOT NULL. *)
Definition text_kept (a : affinity) (v : value) : bool :=
  match a, v with
  | AffText, (Integer _ | Real _) => false
  | _, _ => true
  end.

Fixpoint row_ok (cs : list column) (vs : list value) : bool :=
  match cs, vs with
  | [], [] => true
  | c :: cs', v :: vs' =>
    text_kept (caff c) v && negb (cnotnull c && is_null v) && row_ok cs' vs'
  | _, _ => false
  end.

Definition records_ok (t : table) : Prop :=
  Forall (fun r : row => row_ok (cols t) (snd r) = true) (rows t).

(** The table of the program with well-formed rows. *)
Definition sound_table (t : table) : Prop := employees_table t /\ records_ok t.

(** No table yet, or such a table. *)
Definition sound_database (db : database) : Prop :=
  match db with
  | None => True
  | Some t => sound_table t
  end.

(** The table is there, and is such a table. *)
Definition stored_database (db : database) : Prop :=
  match db with
  | None => False
  | Some t => sound_table t
  end.

(** Both what is committed and what the connection sees. *)
Definition both (ok : database -> Prop) (conn : connection) : Prop :=
  ok (committed conn) /\ ok (view conn).


Definition ready_connection (conn : connection) : Prop := both stored_database conn.

(** A statement other than CREATE TABLE, and what the parser gives for
    ADD COLUMN: a plain name, no NOT NULL. *)
Definition statement_ok (s : stmt) : Prop :=
  match s with
  | SAlterAdd d => is_ident (dname d) = true /\ dnotnull d = false
  | SCreate _ => False
  | _ => True
  end.

Definition prepared_ok (p : prepared) : Prop :=
  match p with
  | PAlter d => is_ident (dname d) = true /\ dnotnull d = false
  | PCreate _ => False
  | _ => True
  end.

(** What such calls keep besides: every column but [salary] is a TEXT
    column, [salary] a REAL one; no identifier is above a bound. *)
Definition text_columns (t : table) : Prop :=
  Forall (fun c => caff c = if ieq (cname c) "salary" then AffReal else AffText) (cols t).

Definition rowids_up_to (n : Z) (t : table) : Prop :=
  Forall (fun r : row => fst r <= n) (rows t).

Definition plain_table (n : Z) (t : table) : Prop :=
  sound_table t /\ text_columns t /\ rowids_up_to n t.


(** The table is there, and is such a table. *)
Definition plain_stored (n : Z) (db : database) : Prop :=
  match db with
  | None => False
  | Some t => plain_table n t
  end.

(** A parameter against the column its name resolves to: an identifier
    for the rowid, a value the column takes for another column. *)
Definition param_fits (t : table) (r : colref) (p : value) : Prop :=
  match r with
  | RowidRef => id_value p = true
  | AttrRef i =>
    forall c, nth_error (cols t) i = Some c -> apply_affinity (caff c) p <> Unmodelled
  end.

(** The identifier of a returned record. *)
Definition record_id (r : list value) : Z :=
  match r with
  | Integer z :: _ => z
  | _ => 0
  end.

(** A returned record starts with an integer identifier, a name and a
    department that are text. *)
Definition record_shape (r : list value) : Prop :=
  match r with
  | Integer _ :: Text _ :: Text _ :: _ => True
  | _ => False
  end.

(** ** Tables after a call *)

(** The table after ADD COLUMN of plain names, one after the other: the
    new TEXT columns come last, and every row reads NULL in them. *)
Definition with_columns (t : table) (cs : list string) : table :=
  {| pkname := pkname t;
     cols := (cols t ++ map text_column cs)%list;
     rows := map (fun r => (fst r, (snd r ++ repeat Null (List.length cs))%list)) (rows t) |}.

(** The values of a row after an UPDATE that sets the attributes of a
    record: where the record has the column's name, what the column keeps
    of the value; the old value elsewhere. *)
Fixpoint updated_values (cs : list column) (e : dict) (old : list value) : list value :=
  match cs, old with
  | c :: cs', v :: old' =>
    match lookup (cname c) e with
    | Some x => stored (caff c) x
    | None => v
    end :: updated_values cs' e old'
  | _, _ => []
  end.

(** The table after [update_employee] of such a record on an identifier. *)
Definition updated (t : table) (e : dict) (id : Z) : table :=
  {| pkname := pkname t; cols := cols t;
     rows := map (fun r => if fst r =? id then (fst r, updated_values (cols t) e (snd r))
                           else r) (rows t) |}.

(** The record gives every column it names a value of the column's type,
    and no None where the column is NOT NULL. *)
Definition assignable (t : table) (e : dict) : bool :=
  forallb (fun c => match lookup (cname c) e with
                    | Some v => storable (caff c) v && negb (cnotnull c && is_null v)
                    | None => true
                    end) (cols t).

(** The table after the deletion of an identifier. *)
Definition without (t : table) (id : Z) : table :=
  {| pkname := pkname t; cols := cols t;
     rows := filter (fun r => negb (fst r =? id)) (rows t) |}.

(** The table after the insertion of a record under a chosen identifier. *)
Definition inserted_as (t : table) (id : Z) (e : dict) : table :=
  {| pkname := pkname t; cols := cols t;
     rows := insert_row (id, new_row t e) (rows t) |}.

(** A call that leaves the connection as it found it, by return or by
    exception. *)
Definition unchanged_by {A} (conn : connection) (r : result A) : Prop :=
  match r with
  | Return _ c => c = conn
  | Raised _ c => c = conn
  | NoModel => True
  end.

(** ** The user interface: [main()]

    One run of the script is one call of [main()], which Streamlit makes
    again after every action of the user.  What Streamlit and pandas do is
    not part of [main.py]; the model takes from them what [main()] takes:

    - a widget gives back a value.  Which value is up to the user and to
      Streamlit, so the model takes the widgets as given, [widgets], a
      value for every label and every initial value a call may pass, and
      the properties hold for all of them.  The one widget call of
      [main()] whose arguments come from the database, the salary field of
      the Update form, raises where Streamlit refuses them;
    - a call that shows something adds a [message] to what is shown;
    - [pd.DataFrame(rows, columns=...)] raises ValueError unless the
      longest row has as many fields as there are columns; the table shown
      and the CSV offered are kept as the columns and rows they are built
      from.

    A string is the sequence of its code points, taken below 256. *)

(** [str.isspace] on a character. *)
Definition py_space (c : ascii) : bool :=
  let n := nat_of_ascii c in
  (((9 <=? n) && (n <=? 13)) || ((28 <=? n) && (n <=? 32)) || (n =? 133) || (n =? 160))%nat.

(** [s.lstrip()], [s.rstrip()], [s.strip()] *)
Fixpoint lstrip (s : string) : string :=
  match s with
  | EmptyString => EmptyString
  | String c s' => if py_space c then lstrip s' else s
  end.

Fixpoint rstrip (s : string) : string :=
  match s with
  | EmptyString => EmptyString
  | String c s' =>
    match rstrip s' with
    | EmptyString => if py_space c then EmptyString else String c EmptyString
    | r => String c r
    end
  end.

Definition strip (s : string) : string := rstrip (lstrip s).

(** [s.split(sep)] for a separator of one character. *)
Fixpoint split (sep : ascii) (s : string) : list string :=
  match s with
  | EmptyString => [EmptyString]
  | String c s' =>
    if (c =? sep)%char then EmptyString :: split sep s'
    else match split sep s' with
         | w :: ws => String c w :: ws
         | [] => [String c EmptyString]
         end
  end.

(** [[column.strip() for column in extra_columns.split(',')]] *)
Definition extra_columns_list (extra_columns : string) : list string :=
  map strip (split "," extra_columns).

Definition lower_char (c : ascii) : ascii :=
  if is_upper c then ascii_of_nat (nat_of_ascii c + 32) else c.

Fixpoint lower (s : string) : string :=
  match s with
  | EmptyString => EmptyString
  | String c s' => String (lower_char c) (lower s')
  end.

(** [s.capitalize()] on ASCII text, which the column names the model
    reads are made of. *)
Definition capitalize (s : string) : string :=
  match s with
  | EmptyString => EmptyString
  | String c s' => String (upper_char c) (lower s')
  end.

(** [d[k] = v] *)
Fixpoint dict_set (k : string) (v : value) (d : dict) : dict :=
  match d with
  | [] => [(k, v)]
  | (k', v') :: d' =>
    if (k' =? k)%string then (k, v) :: d' else (k', v') :: dict_set k v d'
  end.

(** What the widgets give back, each by its label: [st.sidebar.selectbox],
    [st.text_input] and [st.number_input] with the [value=] argument of
    the call if it has one, [st.button], [st.form_submit_button]. *)
Record widgets : Type := {
  selectbox : string -> list string -> string;
  text_input : string -> option value -> value;
  number_input : string -> option value -> value;
  button : string -> bool;
  form_submit_button : string -> bool
}.

(** What a run shows: [st.title], [st.subheader], [st.write],
    [st.success], [st.warning], [st.error] with their text ([ErrorOf]: the
    text followed by that of an exception), [st.table] of a DataFrame and
    [st.download_button] of its CSV. *)
Inductive message : Type :=
| Title (s : string)
| Subheader (s : string)
| Written (s : string)
| Success (s : string)
| Warning (s : string)
| Error (s : string)
| ErrorOf (s : string)
| Table (columns : list value) (data : list (list value))
| DownloadButton (label : string) (columns : list value) (data : list (list value))
                 (file_name mime : string).

(** The exceptions that can leave [main()]: one of a database call, one
    of Python or pandas, or the one of a widget that refuses its arguments
    (an exception of Streamlit or a TypeError, by the release of
    Streamlit). *)
Inductive exception : Type :=
| FromStore (e : error)
| IndexError
| AttributeError
| ValueError
| WidgetError.

(** A piece of [main()] runs on the connection and on what is shown so
    far; it ends by going on, by an exception, or outside the model. *)
Inductive ui_result (A : Type) : Type :=
| Done (a : A) (conn : connection) (out : list message)
| Crashed (e : exception) (conn : connection) (out : list message)
| Unknown.
Arguments Done {A} a conn out.
Arguments Crashed {A} e conn out.
Arguments Unknown {A}.

Definition ui (A : Type) : Type := connection -> list message -> ui_result A.

Definition ret {A} (a : A) : ui A := fun conn out => Done a conn out.

Definition and_then {A B} (m : ui A) (k : A -> ui B) : ui B :=
  fun conn out =>
    match m conn out with
    | Done a conn' out' => k a conn' out'
    | Crashed e conn' out' => Crashed e conn' out'
    | Unknown => Unknown
    end.

Notation "x <~ m ;; k" := (and_then m (fun x => k))
  (at level 61, m at next level, right associativity).

Definition show (m : message) : ui unit :=
  fun conn out => Done tt conn (out ++ [m])%list.

Definition raise {A} (e : exception) : ui A := fun conn out => Crashed e conn out.

Definition unknown {A} : ui A := fun _ _ => Unknown.

(** A call of a function of [main.py] on the connection. *)
Definition invoke {A} (f : connection -> result A) : ui A :=
  fun conn out =>
    match f conn with
    | Return a conn' => Done a conn' out
    | Raised e conn' => Crashed (FromStore e) conn' out
    | NoModel => Unknown
    end.

(** The fields of the Add form: [for column in columns: employee[column]
    = ...], a number for [salary], text for the others. *)
Fixpoint add_fields (w : widgets) (columns : list value) (employee : dict) : ui dict :=
  match columns with
  | [] => ret employee
  | Text column :: rest =>
    let v := if (column =? "salary")%string
             then number_input w (capitalize column) None
             else text_input w (capitalize column) None in
    add_fields w rest (dict_set column v employee)
  | _ :: _ => unknown
  end.

Definition add_page (w : widgets) : ui unit :=
  _ <~ show (Subheader "Add Employee") ;;
  columns <~ invoke get_columns ;;
  employee <~ add_fields w columns [] ;;
  let submit_button := form_submit_button w "Add Employee" in
  if submit_button then
    if forallb truthy (values employee) then
      _ <~ invoke (fun conn => insert_employee conn employee) ;;
      show (Success "Employee added successfully!")
    else show (Warning "Please fill out all fields.")
  else ret tt.

(** [st.number_input(label, min_value=0.0, step=0.1, value=initial)], the
    salary field of the Update form, which starts from the stored salary.
    Streamlit takes as start value a float that is not below [min_value];
    it raises for a smaller one and for a value of another type, an [int]
    or text.  What it does with None and with the text [min] depends on
    its release (older ones refuse them; later ones start with an empty
    field for None, and read [min] as [min_value]), and is not
    modelled. *)
Definition salary_input (w : widgets) (label : string) (initial : value) : ui value :=
  match initial with
  | Real q => if Qle_bool 0 q then ret (number_input w label (Some initial))
              else raise WidgetError
  | Null => unknown
  | Text s => if (s =? "min")%string then unknown else raise WidgetError
  | Integer _ => raise WidgetError
  end.

(** The fields of the Update form: [for idx, column in enumerate(columns,
    start=1)], each starting from [employee[idx]]. *)
Fixpoint update_fields (w : widgets) (employee : list value) (idx : nat)
         (columns : list value) (updated_employee : dict) : ui dict :=
  match columns with
  | [] => ret updated_employee
  | Text column :: rest =>
    match nth_error employee idx with
    | None => raise IndexError
    | Some initial =>
      v <~ (if (column =? "salary")%string
            then salary_input w (capitalize column) initial
            else ret (text_input w (capitalize column) (Some initial))) ;;
      update_fields w employee (S idx) rest (dict_set column v updated_employee)
    end
  | _ :: _ => unknown
  end.

(** [f"{v}"] for an integer. *)
Definition format_value (v : value) : option string :=
  match v with
  | Integer z => Some (decimal z)
  | _ => None
  end.

Definition update_page (w : widgets) : ui unit :=
  _ <~ show (Subheader "Update Employee") ;;
  let employee_id := number_input w "Employee ID" None in
  employee <~ invoke (fun conn => select_employee_by_id conn employee_id) ;;
  match employee with
  | Some (first :: rest) =>
    columns <~ invoke get_columns ;;
    _ <~ match format_value first with
         | Some s => show (Written ("Selected Employee - ID: " ++ s))
         | None => unknown
         end ;;
    updated_employee <~ update_fields w (first :: rest) 1 columns [] ;;
    let submit_button := form_submit_button w "Update Employee" in
    if submit_button then
      if forallb truthy (values updated_employee) then
        _ <~ invoke (fun conn => update_employee conn updated_employee employee_id) ;;
        show (Success "Employee updated successfully!")
      else show (Warning "Please fill out all fields.")
    else ret tt
  | _ => show (Warning "Employee ID not found.")
  end.

Definition delete_page (w : widgets) : ui unit :=
  _ <~ show (Subheader "Delete Employee") ;;
  let employee_id := number_input w "Employee ID" None in
  if button w "Delete" then
    _ <~ invoke (fun conn => delete_employee conn employee_id) ;;
    show (Success "Employee deleted successfully!")
  else ret tt.

(** [pd.DataFrame(data, columns=columns)], for rows that are tuples. *)
Definition DataFrame (data : list (list value)) (columns : list value)
  : ui (list value * list (list value)) :=
  match data with
  | [] => ret (columns, data)
  | _ :: _ =>
    if (fold_right Nat.max 0%nat (map (@List.length value) data) =? List.length columns)%nat
    then ret (columns, data)
    else raise ValueError
  end.

Definition view_page (w : widgets) : ui unit :=
  _ <~ show (Subheader "View All Employees") ;;
  let department_filter := text_input w "Department" None in
  let min_salary_filter := number_input w "Minimum Salary" None in
  let max_salary_filter := number_input w "Maximum Salary" None in
  let apply_filters := button w "Apply Filters" in
  let extra_columns := text_input w "Extra Columns (comma-separated)" None in
  let add_columns := button w "Add Columns" in
  _ <~ (if add_columns && truthy extra_columns then
          match extra_columns with
          | Text s =>
            _ <~ invoke (fun conn => add_extra_columns conn (extra_columns_list s)) ;;
            show (Success "Columns added successfully!")
          | _ => raise AttributeError
          end
        else ret tt) ;;
  employees <~ (if apply_filters
                then invoke (fun conn => select_employees_filtered conn department_filter
                                         min_salary_filter max_salary_filter)
                else invoke select_all_employees) ;;
  match employees with
  | _ :: _ =>
    names <~ invoke get_columns ;;
    let columns := Text "id" :: names in
    df <~ DataFrame employees columns ;;
    _ <~ show (Table (fst df) (snd df)) ;;
    show (DownloadButton "Download data as CSV" (fst df) (snd df)
                         "employees.csv" "text/csv")
  | [] => show (Warning "No employees found.")
  end.

(** The file [employee.db] as a run finds it: one that cannot be opened,
    or the database committed so far. *)
Inductive file : Type :=
| Unopenable
| Holding (db : database).

(** [sqlite3.connect('employee.db')] on such a database. *)
Definition connect (db : database) : connection :=
  {| committed := db; pending := None |}.

Definition menu : list string := ["Add"; "Update"; "Delete"; "View"].

(** What a run of [main()] comes to: no connection, or the pages on
    one. *)
Inductive run : Type :=
| NoConnection (out : list message)
| Ran (r : ui_result unit).

(** [create_connection()] on the file, with what it shows when
    [sqlite3.connect] raises. *)
Definition create_connection_on (f : file) (out : list message)
  : option connection * list message :=
  match f with
  | Unopenable => (None, (out ++ [ErrorOf "Error connecting to database: "])%list)
  | Holding db => (Some (connect db), out)
  end.

(** [create_table] is called as it is: it shows its error only when its
    statement fails, which it does not in this model. *)
Definition main (w : widgets) (f : file) : run :=
  let out := [Title "Employee Management System"] in
  match create_connection_on f out with
  | (Some conn, out) =>
    Ran ((_ <~ invoke create_table ;;
          let choice := selectbox w "Menu" menu in
          if (choice =? "Add")%string then add_page w
          else if (choice =? "Update")%string then update_page w
          else if (choice =? "Delete")%string then delete_page w
          else if (choice =? "View")%string then view_page w
          else ret tt) conn out)
  | (None, out) =>
    NoConnection (out ++ [Error "Error! Cannot create the database connection."])%list
  end.

(** The database in the file after a run: what is committed when the run
    ends. *)
Definition file_after (f : file) (r : run) : option file :=
  match r with
  | NoConnection _ => Some f
  | Ran (Done _ conn _) => Some (Holding (committed conn))
  | Ran (Crashed _ conn _) => Some (Holding (committed conn))
  | Ran Unknown => None
  end.

(** ** Vocabulary of the properties of [main()] *)

(** The record the Add form makes for the given column names. *)
Definition add_form (w : widgets) (names : list string) : dict :=
  map (fun column =>
         (column, if (column =? "salary")%string
                  then number_input w (capitalize column) None
                  else text_input w (capitalize column) None)) names.

(** The record the Update form makes for the given column names, from the
    fields of the record shown, taken in order. *)
Definition update_form (w : widgets) (names : list string) (fields : list value) : dict :=
  map (fun cv : string * value =>
         (fst cv, if (fst cv =? "salary")%string
                  then number_input w (capitalize (fst cv)) (Some (snd cv))
                  else text_input w (capitalize (fst cv)) (Some (snd cv))))
      (combine names fields).

(** A stored salary the salary field of the Update form takes as its
    start: a float that is not negative. *)
Definition start_taken (v : value) : bool :=
  match v with
  | Real q => Qle_bool 0 q
  | _ => false
  end.


(** What the View page shows of a result. *)
Definition listing (columns : list value) (employees : list (list value)) : list message :=
  match employees with
  | [] => [Warning "No employees found."]
  | _ :: _ => [Table columns employees;
               DownloadButton "Download data as CSV" columns employees
                              "employees.csv" "text/csv"]
  end.

(** The View page in its parts: the step that adds the columns typed,
    and the page from its query on. *)
Definition view_columns (w : widgets) : ui unit :=
  let extra_columns := text_input w "Extra Columns (comma-separated)" None in
  let add_columns := button w "Add Columns" in
  if add_columns && truthy extra_columns then
    match extra_columns with
    | Text s =>
      _ <~ invoke (fun conn => add_extra_columns conn (extra_columns_list s)) ;;
      show (Success "Columns added successfully!")
    | _ => raise AttributeError
    end
  else ret tt.

Definition view_listing (w : widgets) : ui unit :=
  let department_filter := text_input w "Department" None in
  let min_salary_filter := number_input w "Minimum Salary" None in
  let max_salary_filter := number_input w "Maximum Salary" None in
  let apply_filters := button w "Apply Filters" in
  employees <~ (if apply_filters
                then invoke (fun conn => select_employees_filtered conn department_filter
                                         min_salary_filter max_salary_filter)
                else invoke select_all_employees) ;;
  match employees with
  | _ :: _ =>
    names <~ invoke get_columns ;;
    let columns := Text "id" :: names in
    df <~ DataFrame employees columns ;;
    _ <~ show (Table (fst df) (snd df)) ;;
    show (DownloadButton "Download data as CSV" (fst df) (snd df)
                         "employees.csv" "text/csv")
  | [] => show (Warning "No employees found.")
  end.

(** A piece of [main()] that keeps a property of the database, in what is
    committed and in what the connection sees, however it ends. *)
Definition ui_keeps {A} (ok : database -> Prop) (m : ui A) : Prop :=
  forall conn out,
    both ok conn ->
    match m conn out with
    | Done _ conn' _ => both ok conn'
    | Crashed _ conn' _ => both ok conn'
    | Unknown => True
    end.

(** The widgets as Streamlit gives them.  A text field gives a [str]; a
    number field with [min_value=0.0], a float that is not below it; either
    gives None when it was started from None and left empty, in the
    releases that take None as a start.  The identifier field, with
    [min_value=1] and [step=1], gives an [int] from 1 to the largest
    Streamlit takes, 2^53 - 1. *)
Record usual_widgets (w : widgets) : Prop := {
  uw_text : forall label initial, str_arg (text_input w label initial);
  uw_number : forall label initial,
      label <> "Employee ID" ->
      match number_input w label initial with
      | Null => True
      | Real q => Qle_bool 0 q = true
      | Integer _ | Text _ => False
      end;
  uw_id : exists z, number_input w "Employee ID" None = Integer z /\ 1 <= z < 2 ^ 53
}.

(** The names typed for new columns, when Add Columns is pressed, are
    plain names. *)
Definition plain_names_typed (w : widgets) : Prop :=
  button w "Add Columns" = true ->
  forall s, text_input w "Extra Columns (comma-separated)" None = Text s ->
            s <> EmptyString -> forallb is_ident (extra_columns_list s) = true.

(** Every stored salary is one the Update form starts from. *)
Definition salaries_taken (t : table) : Prop :=
  Forall (fun r : row => start_taken (nth 2 (snd r) Null) = true) (rows t).

(** The table as the pages of [main()] keep it: well formed, every column
    but [salary] a TEXT column, every salary a float that is not
    negative. *)
Definition kept_by_main (t : table) : Prop :=
  sound_table t /\ text_columns t /\ salaries_taken t.

(** A piece of [main()] that ends, by return or by exception, with such a
    table committed and nothing pending. *)
Definition ends_kept {A} (r : ui_result A) : Prop :=
  match r with
  | Done _ conn _ | Crashed _ conn _ =>
    exists t, conn = open_db t /\ kept_by_main t
  | Unknown => False
  end.

(** No white space at either end, and no comma. *)
Definition trimmed (c : string) : Prop := lstrip c = c /\ rstrip c = c.

Definition no_comma (c : string) : bool := all_chars (fun x => negb (x =? ",")%char) c.

(** Widgets for the examples: the form of the Add page filled with a name
    and a department, the salary left at 0.0, and submitted. *)
Definition salary_left_at_zero : widgets :=
  {| selectbox := fun _ _ => "Add";
     text_input := fun label _ =>
       if (label =? "Name")%string then Text "Cy"
       else if (label =? "Department")%string then Text "Ops"
       else Text EmptyString;
     number_input := fun _ _ => Real 0;
     button := fun _ => false;
     form_submit_button := fun _ => true |}.


(** The same form as Streamlit gives it, the identifier field at 1. *)
Definition cy_joins : widgets :=
  {| selectbox := fun _ _ => "Add";
     text_input := fun label _ =>
       if (label =? "Name")%string then Text "Cy"
       else if (label =? "Department")%string then Text "Ops"
       else Text EmptyString;
     number_input := fun label _ =>
       if (label =? "Employee ID")%string then Integer 1 else Real (inject_Z 50000);
     button := fun _ => false;
     form_submit_button := fun _ => true |}.


(** * Proofs *)

(** * Strings *)

Lemma app_str_assoc (a b c : string) : (a ++ b) ++ c = a ++ (b ++ c).
Proof. induction a as [|x a IH]; simpl; [reflexivity | now rewrite IH]. Qed.

Lemma app_str_nil_r (a : string) : a ++ EmptyString = a.
Proof. induction a as [|x a IH]; simpl; [reflexivity | now rewrite IH]. Qed.

(** * The tokenizer on words *)

Lemma flush_app (acc : string) (ts us : list token) :
  (flush acc ts ++ us)%list = flush acc (ts ++ us)%list.
Proof. destruct acc; reflexivity. Qed.

Lemma lex_word (w : string) :
  all_chars word_char w = true ->
  forall acc s, lex acc (w ++ s) = lex (acc ++ w) s.
Proof.
  induction w as [|c w IH]; intros Hw acc s; simpl.
  - now rewrite app_str_nil_r.
  - simpl in Hw. apply andb_prop in Hw as [Hc Hw].
    rewrite Hc, (IH Hw).
    now rewrite app_str_assoc.
Qed.

Lemma is_ident_word (w : string) : is_ident w = true -> all_chars word_char w = true.
Proof.
  destruct w as [|c w]; [discriminate|]. unfold is_ident.
  intros H. apply andb_prop in H as [H _]. now apply andb_prop in H as [_ H].
Qed.

Lemma is_ident_nonempty (w : string) : is_ident w = true -> w <> EmptyString.
Proof. destruct w; [discriminate | discriminate]. Qed.

Lemma flush_word (w : string) (ts : list token) :
  w <> EmptyString -> flush w ts = TWord w :: ts.
Proof. destruct w; [congruence | reflexivity]. Qed.

(** A tokenized text followed by a blank: the tokens of the text, then
    those of what follows the blank. *)
Lemma lex_then_space (c : string) :
  forall acc ts rest,
    lex acc c = Some ts ->
    lex acc (c ++ String " " rest) = option_map (app ts) (lex EmptyString rest).
Proof.
  induction c as [|x c IH]; intros acc ts rest H.
  - simpl in H. injection H as <-. simpl.
    destruct (lex EmptyString rest); simpl; [|reflexivity].
    now rewrite flush_app.
  - cbn [append]. cbn [lex] in H |- *.
    destruct (word_char x) eqn:Hw.
    { now apply IH. }
    assert (Hmap : forall o o' : option (list token),
               option_map (flush acc) o = Some ts ->
               (forall us, o = Some us ->
                  o' = option_map (app us) (lex EmptyString rest)) ->
               option_map (flush acc) o' = option_map (app ts) (lex EmptyString rest)).
    { intros o o' Ho Hrel. destruct o as [us|]; [|discriminate].
      simpl in Ho. injection Ho as <-. rewrite (Hrel us eq_refl).
      destruct (lex EmptyString rest); simpl; [|reflexivity].
      now rewrite flush_app. }
    assert (Hcons : forall (t : token) us,
               option_map (cons t) (lex EmptyString c) = Some us ->
               option_map (cons t) (lex EmptyString (c ++ String " " rest))
               = option_map (app us) (lex EmptyString rest)).
    { intros t us Hus. destruct (lex EmptyString c) as [vs|] eqn:Hc; [|discriminate].
      simpl in Hus. injection Hus as <-.
      rewrite (IH _ _ rest Hc). now destruct (lex EmptyString rest). }
    destruct (space_char x).
    { eapply Hmap; [exact H|]. intros us Hus. now apply IH. }
    destruct (x =? "(")%char. { eapply Hmap; [exact H|]. intros us Hus. now apply Hcons. }
    destruct (x =? ")")%char. { eapply Hmap; [exact H|]. intros us Hus. now apply Hcons. }
    destruct (x =? ",")%char. { eapply Hmap; [exact H|]. intros us Hus. now apply Hcons. }
    destruct (x =? "=")%char. { eapply Hmap; [exact H|]. intros us Hus. now apply Hcons. }
    destruct (x =? "*")%char. { eapply Hmap; [exact H|]. intros us Hus. now apply Hcons. }
    destruct (x =? ";")%char. { eapply Hmap; [exact H|]. intros us Hus. now apply Hcons. }
    destruct (x =? "?")%char.
    { eapply Hmap; [exact H|]. intros us Hus.
      destruct c as [|d c'].
      - injection Hus as <-. cbn. now destruct (lex EmptyString rest).
      - cbn [append]. destruct (word_char d); [discriminate|].
        now apply Hcons. }
    destruct (x =? ">")%char.
    { eapply Hmap; [exact H|]. intros us Hus.
      destruct c as [|d c']; [discriminate|]. cbn [append].
      destruct d as [[] [] [] [] [] [] [] []]; try discriminate.
      destruct (lex EmptyString c') as [vs|] eqn:Hc; [|discriminate].
      simpl in Hus. injection Hus as <-.
      assert (Hc' : lex EmptyString (String "=" c') = Some (TEq :: vs)).
      { cbn. now rewrite Hc. }
      pose proof (IH _ _ rest Hc') as E. cbn in E.
      destruct (lex EmptyString (c' ++ String " " rest)) as [ws|];
        destruct (lex EmptyString rest) as [rs|]; simpl in *; try congruence. }
    destruct (x =? "<")%char.
    { eapply Hmap; [exact H|]. intros us Hus.
      destruct c as [|d c']; [discriminate|]. cbn [append].
      destruct d as [[] [] [] [] [] [] [] []]; try discriminate.
      destruct (lex EmptyString c') as [vs|] eqn:Hc; [|discriminate].
      simpl in Hus. injection Hus as <-.
      assert (Hc' : lex EmptyString (String "=" c') = Some (TEq :: vs)).
      { cbn. now rewrite Hc. }
      pose proof (IH _ _ rest Hc') as E. cbn in E.
      destruct (lex EmptyString (c' ++ String " " rest)) as [ws|];
        destruct (lex EmptyString rest) as [rs|]; simpl in *; try congruence. }
    discriminate.
Qed.

Ltac lex_simpl := with_strategy opaque [flush id_tokens q_tokens set_tokens join repeat map] simpl.

Lemma lex_idlist (ks : list string) (rest : string) :
  ks <> [] -> idents ks ->
  lex EmptyString (join ", " ks ++ String ")" rest)
  = option_map (fun ts => (id_tokens ks ++ TRp :: ts)%list) (lex EmptyString rest).
Proof.
  intros Hne Hid. induction Hid as [|k ks Hk Hks IH]; [congruence|].
  pose proof (is_ident_word _ Hk) as Hw.
  pose proof (is_ident_nonempty _ Hk) as Hn.
  destruct ks as [|k2 ks].
  - cbn [join concat]. rewrite (lex_word _ Hw). lex_simpl.
    destruct (lex EmptyString rest); lex_simpl; [|reflexivity].
    now rewrite (flush_word _ _ Hn).
  - change (join ", " (k :: k2 :: ks)) with (k ++ ", " ++ join ", " (k2 :: ks)).
    rewrite !app_str_assoc, (lex_word _ Hw). lex_simpl.
    rewrite IH by congruence.
    destruct (lex EmptyString rest); lex_simpl; [|reflexivity].
    now rewrite (flush_word _ _ Hn).
Qed.

Lemma lex_qmarks (n : nat) (rest : string) :
  (0 < n)%nat ->
  lex EmptyString (join ", " (repeat "?" n) ++ String ")" rest)
  = option_map (fun ts => (q_tokens n ++ TRp :: ts)%list) (lex EmptyString rest).
Proof.
  induction n as [|n IH]; [lia|]. intros _.
  destruct n as [|n].
  - cbn. now destruct (lex EmptyString rest).
  - change (join ", " (repeat "?" (S (S n))))
      with ("?" ++ ", " ++ join ", " (repeat "?" (S n))).
    rewrite !app_str_assoc. lex_simpl.
    rewrite IH by lia.
    now destruct (lex EmptyString rest).
Qed.

Lemma lex_sets (ks : list string) (rest : string) :
  ks <> [] -> idents ks ->
  lex EmptyString (join ", " (map (fun col => col ++ " = ?") ks) ++ String " " rest)
  = option_map (fun ts => (set_tokens ks ++ ts)%list) (lex EmptyString rest).
Proof.
  intros Hne Hid. induction Hid as [|k ks Hk Hks IH]; [congruence|].
  pose proof (is_ident_word _ Hk) as Hw.
  pose proof (is_ident_nonempty _ Hk) as Hn.
  destruct ks as [|k2 ks].
  - cbn [join concat map]. rewrite !app_str_assoc, (lex_word _ Hw). lex_simpl.
    destruct (lex EmptyString rest); lex_simpl; [|reflexivity].
    now rewrite (flush_word _ _ Hn).
  - change (join ", " (map (fun col => col ++ " = ?") (k :: k2 :: ks)))
      with ((k ++ " = ?") ++ ", " ++ join ", " (map (fun col => col ++ " = ?") (k2 :: ks))).
    rewrite !app_str_assoc, (lex_word _ Hw). lex_simpl.
    rewrite IH by congruence.
    destruct (lex EmptyString rest); lex_simpl; [|reflexivity].
    now rewrite (flush_word _ _ Hn).
Qed.

Lemma id_tokens_cons (k k2 : string) (ks : list string) :
  id_tokens (k :: k2 :: ks) = TWord k :: TComma :: id_tokens (k2 :: ks).
Proof. reflexivity. Qed.

Lemma set_tokens_cons (k k2 : string) (ks : list string) :
  set_tokens (k :: k2 :: ks) = TWord k :: TEq :: TQm :: TComma :: set_tokens (k2 :: ks).
Proof. reflexivity. Qed.

Lemma q_tokens_cons (n : nat) :
  q_tokens (S (S n)) = TQm :: TComma :: q_tokens (S n).
Proof. reflexivity. Qed.

Lemma parse_idlist_cons (k : string) (r : list token) :
  is_ident k = true ->
  parse_idlist (TWord k :: TComma :: r)
  = match parse_idlist r with
    | Some (ws, r') => Some (k :: ws, r')
    | None => None
    end.
Proof. intros H. simpl. now rewrite H. Qed.

Lemma parse_idlist_tokens (ks : list string) (r : list token) :
  ks <> [] -> idents ks ->
  parse_idlist (id_tokens ks ++ TRp :: r) = Some (ks, TRp :: r).
Proof.
  intros Hne Hid. induction Hid as [|k ks Hk Hks IH]; [congruence|].
  destruct ks as [|k2 ks].
  - simpl. now rewrite Hk.
  - rewrite id_tokens_cons, <- !app_comm_cons, (parse_idlist_cons _ _ Hk).
    now rewrite IH by congruence.
Qed.

Lemma parse_qmarks_tokens (n : nat) (r : list token) :
  (0 < n)%nat ->
  parse_qmarks (q_tokens n ++ TRp :: r) = Some (n, TRp :: r).
Proof.
  induction n as [|n IH]; [lia|]. intros _.
  destruct n as [|n].
  - reflexivity.
  - rewrite q_tokens_cons, <- !app_comm_cons.
    change (parse_qmarks (TQm :: TComma :: q_tokens (S n) ++ TRp :: r))
      with (match parse_qmarks (q_tokens (S n) ++ TRp :: r) with
            | Some (m, r') => Some (S m, r')
            | None => None
            end).
    now rewrite IH by lia.
Qed.

Lemma parse_sets_cons (k : string) (r : list token) :
  is_ident k = true ->
  parse_sets (TWord k :: TEq :: TQm :: TComma :: r)
  = match parse_sets r with
    | Some (ws, r') => Some (k :: ws, r')
    | None => None
    end.
Proof. intros H. simpl. now rewrite H. Qed.

Lemma parse_sets_tokens (ks : list string) (w : string) (r : list token) :
  ks <> [] -> idents ks ->
  parse_sets (set_tokens ks ++ TWord w :: r) = Some (ks, TWord w :: r).
Proof.
  intros Hne Hid. induction Hid as [|k ks Hk Hks IH]; [congruence|].
  destruct ks as [|k2 ks].
  - simpl. now rewrite Hk.
  - rewrite set_tokens_cons, <- !app_comm_cons, (parse_sets_cons _ _ Hk).
    now rewrite IH by congruence.
Qed.

Lemma parse_insert_sql (ks : list string) :
  ks <> [] -> idents ks ->
  parse_sql (insert_sql ks) = Some (SInsert ks (List.length ks)).
Proof.
  intros Hne Hid. unfold parse_sql, tokenize, insert_sql.
  assert (Hn : (0 < List.length ks)%nat) by (destruct ks; [congruence | simpl; lia]).
  lex_simpl.
  rewrite (lex_idlist ks _ Hne Hid).
  lex_simpl.
  rewrite (lex_qmarks _ EmptyString Hn).
  with_strategy opaque [id_tokens q_tokens] simpl.
  unfold parse. with_strategy opaque [id_tokens q_tokens parse_idlist parse_qmarks] simpl.
  unfold parse_insert, expect_table.
  with_strategy opaque [id_tokens q_tokens parse_idlist parse_qmarks] simpl.
  rewrite (parse_idlist_tokens ks _ Hne Hid).
  with_strategy opaque [id_tokens q_tokens parse_idlist parse_qmarks] simpl.
  now rewrite (parse_qmarks_tokens _ _ Hn).
Qed.

Lemma parse_update_sql (ks : list string) :
  ks <> [] -> idents ks ->
  parse_sql (update_sql ks) = Some (SUpdate ks [ACmp "id" CEq]).
Proof.
  intros Hne Hid. unfold parse_sql, tokenize, update_sql.
  lex_simpl.
  rewrite (lex_sets ks _ Hne Hid).
  with_strategy opaque [set_tokens] simpl.
  unfold parse. with_strategy opaque [set_tokens parse_sets] simpl.
  unfold parse_update, expect_table.
  with_strategy opaque [set_tokens parse_sets] simpl.
  rewrite (parse_sets_tokens ks _ _ Hne Hid).
  reflexivity.
Qed.

Lemma tokenize_alter_prefix (c : string) :
  tokenize (alter_sql c)
  = option_map (app alter_prefix) (lex EmptyString (c ++ " TEXT")).
Proof.
  unfold tokenize, alter_sql. lex_simpl.
  now destruct (lex EmptyString (c ++ " TEXT")).
Qed.

Lemma tokenize_alter (c : string) (ts : list token) :
  tokenize c = Some ts ->
  tokenize (alter_sql c) = Some (alter_prefix ++ ts ++ [TWord "TEXT"])%list.
Proof.
  intros H. rewrite tokenize_alter_prefix.
  rewrite (lex_then_space c EmptyString ts "TEXT" H). reflexivity.
Qed.

Lemma parse_alter_prefix (ts : list token) :
  parse (alter_prefix ++ ts)
  = match parse_coldef (strip_semi ts) with
    | Some d => if dnotnull d || dpk d then None else Some (SAlterAdd d)
    | None => None
    end.
Proof.
  unfold parse, alter_prefix.
  with_strategy opaque [parse_coldef strip_semi] simpl.
  unfold parse_alter, expect_table.
  with_strategy opaque [parse_coldef strip_semi] simpl.
  destruct (parse_coldef (strip_semi ts)) as [d|]; [|reflexivity].
  now destruct (dnotnull d || dpk d).
Qed.

(** Whatever the name, the statement of [add_extra_columns] is read as an
    ADD COLUMN or not read at all. *)
Lemma parse_alter_sql_shape (c : string) (s : stmt) :
  parse_sql (alter_sql c) = Some s -> exists d, s = SAlterAdd d.
Proof.
  unfold parse_sql. rewrite tokenize_alter_prefix.
  destruct (lex EmptyString (c ++ " TEXT")) as [ts|]; [|discriminate].
  cbn [option_map obind_opt]. rewrite parse_alter_prefix.
  destruct (parse_coldef (strip_semi ts)) as [d|]; [|discriminate].
  destruct (dnotnull d || dpk d); [discriminate|].
  intros H. injection H as <-. now exists d.
Qed.

Lemma words_of_spec (ts : list token) (ws : list string) :
  words_of ts = Some ws -> ts = map TWord ws /\ idents ws.
Proof.
  revert ws. induction ts as [|t ts IH]; intros ws H.
  - injection H as <-. split; [reflexivity | constructor].
  - destruct t; try discriminate. simpl in H.
    destruct (is_ident w) eqn:Hw; [|discriminate].
    destruct (words_of ts) as [ws'|]; [|discriminate].
    injection H as <-. destruct (IH _ eq_refl) as [-> Hid].
    split; [reflexivity | now constructor].
Qed.

Lemma strip_semi_words (ws : list string) :
  strip_semi (map TWord ws) = map TWord ws.
Proof.
  induction ws as [|w ws IH]; [reflexivity|].
  cbn [map]. cbn [strip_semi]. now rewrite IH.
Qed.

Lemma type_words_words (ws : list string) :
  idents ws -> type_words (map TWord ws) = (ws, []).
Proof.
  induction 1 as [|w ws Hw _ IH]; [reflexivity|].
  cbn [map type_words]. now rewrite Hw, IH.
Qed.

Lemma parse_alter_words (c : string) (ws : list string) :
  name_words c = Some ws ->
  parse_sql (alter_sql c) = Some (SAlterAdd (added_column ws)).
Proof.
  unfold name_words, parse_sql. intros H.
  destruct (tokenize c) as [ts|] eqn:Hts; [|discriminate].
  cbn [obind_opt] in H. apply words_of_spec in H as [-> Hid].
  rewrite (tokenize_alter _ _ Hts). cbn [obind_opt].
  rewrite parse_alter_prefix.
  change [TWord "TEXT"] with (map TWord ["TEXT"]).
  rewrite <- map_app, strip_semi_words.
  assert (Hall : idents (ws ++ ["TEXT"])%list).
  { apply Forall_app. split; [assumption|]. now constructor. }
  unfold added_column.
  destruct (ws ++ ["TEXT"])%list as [|n l] eqn:E.
  { destruct ws; discriminate. }
  inversion Hall as [|? ? Hn Hl]; subst.
  cbn [map parse_coldef]. rewrite Hn, (type_words_words _ Hl). reflexivity.
Qed.

Lemma name_words_ident (c : string) :
  is_ident c = true -> name_words c = Some [c].
Proof.
  intros H. unfold name_words, tokenize.
  rewrite <- (app_str_nil_r c) at 1.
  rewrite (lex_word _ (is_ident_word _ H)). simpl.
  rewrite (flush_word _ _ (is_ident_nonempty _ H)). simpl. now rewrite H.
Qed.

(** * The connection *)

Lemma view_begin (c : connection) : view (begin c) = view c.
Proof. destruct c as [d [p|]]; reflexivity. Qed.

Lemma committed_begin (c : connection) : committed (begin c) = committed c.
Proof. destruct c as [d [p|]]; reflexivity. Qed.

Lemma view_set_view_begin (c : connection) (d : database) :
  view (set_view (begin c) d) = d.
Proof. destruct c as [d0 [p|]]; reflexivity. Qed.

Lemma set_view_view (c : connection) : set_view c (view c) = c.
Proof. destruct c as [d [p|]]; reflexivity. Qed.

Create Rewrite HintDb conn.
#[export] Hint Rewrite view_begin committed_begin view_set_view_begin set_view_view : conn.

Lemma table_eta (t : table) :
  {| pkname := pkname t; cols := cols t; rows := rows t |} = t.
Proof. now destruct t. Qed.

(** A statement that raises leaves what the connection sees, and what is
    committed, as they were. *)
Lemma execute_raised (conn conn' : connection) (sql : string)
      (ps : list value) (e : error) :
  execute conn sql ps = Raised e conn' ->
  view conn' = view conn /\ committed conn' = committed conn.
Proof.
  unfold execute.
  destruct (parse_sql sql) as [s|]; [|discriminate].
  destruct (prepare (view conn) s) as [p|e0|]; [| |discriminate].
  - destruct (obind (bind_check p ps) _) as [[db cur]|e0|]; try discriminate.
    intros H. injection H as _ <-.
    destruct (is_dml p); [|now split].
    split; [apply view_begin | apply committed_begin].
  - intros H. injection H as _ <-. now split.
Qed.

(** * Comparisons *)

Lemma cmp_eq_integer (a b : Z) : cmp_true CEq (Integer a) (Integer b) = (a =? b).
Proof.
  unfold cmp_true, compare_values, num_of, Qcompare. simpl.
  rewrite !Z.mul_1_r.
  destruct (Z.compare_spec a b) as [->|H|H].
  - now rewrite Z.eqb_refl.
  - symmetry. apply Z.eqb_neq. lia.
  - symmetry. apply Z.eqb_neq. lia.
Qed.

Lemma row_matches_by_id (id : Z) (r : row) : row_matches (by_id id) r = (fst r =? id).
Proof. unfold row_matches, by_id. simpl. now rewrite cmp_eq_integer, andb_true_r. Qed.

(** * The fixed statements *)

Lemma parse_delete_sql : parse_sql delete_sql = Some (SDelete [ACmp "id" CEq]).
Proof. reflexivity. Qed.

Lemma parse_select_all_sql : parse_sql select_all_sql = Some (SSelect []).
Proof. reflexivity. Qed.

Lemma parse_select_by_id_sql : parse_sql select_by_id_sql = Some (SSelect [ACmp "id" CEq]).
Proof. reflexivity. Qed.

Lemma parse_pragma_sql : parse_sql pragma_sql = Some SPragma.
Proof. reflexivity. Qed.

Lemma ieq_refl (a : string) : ieq a a = true.
Proof. unfold ieq. apply String.eqb_refl. Qed.

Lemma resolve_pk (t : table) : pkname t = "id" -> resolve t "id" = Some RowidRef.
Proof. intros H. unfold resolve. now rewrite H. Qed.

Lemma execute_select_all (conn : connection) (t : table) :
  view conn = Some t ->
  execute conn select_all_sql [] =
  Return {| fetched := map output_row (rows t); lastrowid := None |} conn.
Proof.
  intros Hv. unfold execute. rewrite parse_select_all_sql, Hv. cbn.
  rewrite Hv. cbn. unfold run_select. cbn.
  rewrite <- Hv, set_view_view.
  f_equal. f_equal. f_equal. induction (rows t); cbn; congruence.
Qed.

Lemma execute_select_by_id (conn : connection) (t : table) (id : Z) :
  view conn = Some t -> pkname t = "id" -> in_int64 (Integer id) = true ->
  execute conn select_by_id_sql [Integer id] =
  Return {| fetched := map output_row (filter (fun r => fst r =? id) (rows t));
            lastrowid := None |} conn.
Proof.
  intros Hv Hpk Hid. unfold execute. rewrite parse_select_by_id_sql, Hv.
  cbn [prepare omap prepare_atom]. rewrite (resolve_pk _ Hpk). cbn [obind is_dml].
  unfold bind_check. cbn [List.length nparams count_cmp filter Nat.eqb negb forallb].
  rewrite Hid. cbn [andb negb obind]. rewrite Hv.
  cbn [step bind_cond ref_affinity compare_affinity obind].
  rewrite <- Hv, set_view_view. unfold run_select.
  fold (by_id id).
  rewrite (filter_ext _ _ (row_matches_by_id id)). reflexivity.
Qed.

Lemma execute_delete (conn : connection) (t : table) (id : Z) :
  view conn = Some t -> pkname t = "id" -> in_int64 (Integer id) = true ->
  execute conn delete_sql [Integer id] =
  Return {| fetched := []; lastrowid := None |}
         (set_view (begin conn)
            (Some {| pkname := pkname t; cols := cols t;
                     rows := filter (fun r => negb (fst r =? id)) (rows t) |})).
Proof.
  intros Hv Hpk Hid. unfold execute. rewrite parse_delete_sql, Hv.
  cbn [prepare omap prepare_atom]. rewrite (resolve_pk _ Hpk). cbn [obind is_dml].
  unfold bind_check. cbn [List.length nparams count_cmp filter Nat.eqb negb forallb].
  rewrite Hid. cbn [andb negb obind]. rewrite view_begin, Hv.
  cbn [step bind_cond ref_affinity compare_affinity obind no_rows].
  unfold run_delete. fold (by_id id).
  rewrite (filter_ext (fun r => negb (row_matches (by_id id) r))
                      (fun r => negb (fst r =? id))).
  - reflexivity.
  - intros r. now rewrite row_matches_by_id.
Qed.

(** * Rows in rowid order *)

Lemma has_rowid_false (rs : list row) (z : Z) :
  has_rowid rs z = false <-> (forall r, In r rs -> fst r <> z).
Proof.
  unfold has_rowid. split.
  - intros H r Hr E.
    assert (existsb (fun r => fst r =? z) rs = true); [|congruence].
    apply existsb_exists. exists r. split; [assumption | now apply Z.eqb_eq].
  - intros H. apply not_true_is_false. intros E.
    apply existsb_exists in E as (r & Hr & Er). apply Z.eqb_eq in Er.
    now destruct (H r Hr).
Qed.

Lemma sorted_head_lt (r : row) (rs : list row) :
  StronglySorted Z.lt (map fst (r :: rs)) ->
  forall x, In x rs -> fst r < fst x.
Proof.
  intros H x Hx. inversion H as [|? ? _ Hall]; subst.
  rewrite Forall_forall in Hall. apply Hall. now apply in_map.
Qed.

Lemma sorted_distinct (rs : list row) :
  StronglySorted Z.lt (map fst rs) -> distinct_rowids rs = true.
Proof.
  induction rs as [|r rs IH]; [reflexivity|]. intros H.
  cbn [distinct_rowids]. rewrite IH by (now inversion H).
  rewrite andb_true_r. apply negb_true_iff, has_rowid_false.
  intros x Hx. pose proof (sorted_head_lt _ _ H x Hx). lia.
Qed.

Lemma insert_row_head (r : row) (rs : list row) :
  (forall x, In x rs -> fst r < fst x) -> insert_row r rs = r :: rs.
Proof.
  destruct rs as [|x rs]; [reflexivity|]. intros H. cbn [insert_row].
  assert (fst r < fst x) by (apply H; now left).
  destruct (Z.ltb_spec (fst r) (fst x)); [reflexivity | lia].
Qed.

Lemma sorted_rebuild (rs : list row) :
  StronglySorted Z.lt (map fst rs) -> fold_right insert_row [] rs = rs.
Proof.
  induction rs as [|r rs IH]; [reflexivity|]. intros H.
  cbn [fold_right]. rewrite IH by (now inversion H).
  apply insert_row_head. now apply sorted_head_lt.
Qed.

(** * Names *)

Lemma index_of_some (n : string) (cs : list column) :
  In n (map cname cs) -> exists i, index_of n cs = Some i.
Proof.
  induction cs as [|c cs IH]; [contradiction|]. intros [E|H]; cbn [index_of].
  - rewrite E, ieq_refl. now exists 0%nat.
  - destruct (ieq (cname c) n); [now exists 0%nat|].
    destruct (IH H) as [i ->]. now exists (S i).
Qed.

Lemma resolve_attribute (t : table) (n : string) :
  In n (attributes t) -> exists r, resolve t n = Some r.
Proof.
  intros H. unfold resolve. destruct (ieq (pkname t) n); [now exists RowidRef|].
  destruct (index_of_some _ _ H) as [i ->]. now exists (AttrRef i).
Qed.

Lemma resolve_all_attributes (t : table) (ns : list string) :
  incl ns (attributes t) ->
  exists refs, resolve_all t ns = Ok refs /\ List.length refs = List.length ns.
Proof.
  unfold resolve_all. induction ns as [|n ns IH]; intros H.
  - now exists [].
  - destruct (resolve_attribute t n) as [r Hr]; [apply H; now left|].
    destruct IH as (refs & Hrefs & Hlen); [intros x Hx; apply H; now right|].
    exists (r :: refs). cbn [omap]. rewrite Hr, Hrefs. cbn. split; [reflexivity | now rewrite Hlen].
Qed.

Lemma attributes_idents (t : table) (ns : list string) :
  employees_table t -> incl ns (attributes t) -> idents ns.
Proof.
  intros Hwf H. apply Forall_forall. intros n Hn.
  apply H in Hn. unfold attributes in Hn. apply in_map_iff in Hn as (c & <- & Hc).
  pose proof (et_idents _ Hwf) as Hi. rewrite Forall_forall in Hi. now apply Hi.
Qed.

(** * UPDATE that matches no row *)

Lemma omap_no_match (f : row -> outcome row) (p : row -> bool) (rs : list row) :
  (forall r, In r rs -> p r = false) ->
  omap (fun r => if p r then f r else Ok r) rs = Ok rs.
Proof.
  induction rs as [|r rs IH]; [reflexivity|]. intros H.
  cbn [omap]. rewrite (H r) by now left. cbn [obind].
  rewrite IH by (intros x Hx; apply H; now right). reflexivity.
Qed.

Lemma run_update_no_match (t : table) (refs : list colref)
      (c : list (colref * cmp * value)) (ps : list value) :
  StronglySorted Z.lt (map fst (rows t)) ->
  (forall r, In r (rows t) -> row_matches c r = false) ->
  run_update t refs c ps = Ok t.
Proof.
  intros Hs Hno. unfold run_update.
  rewrite (omap_no_match _ (row_matches c) _ Hno). cbn [obind].
  rewrite (sorted_distinct _ Hs), (sorted_rebuild _ Hs). now rewrite table_eta.
Qed.

Lemma forallb_app_true {A} (p : A -> bool) (l1 l2 : list A) :
  forallb p l1 = true -> forallb p l2 = true -> forallb p (l1 ++ l2)%list = true.
Proof. intros H1 H2. now rewrite forallb_app, H1, H2. Qed.

Lemma execute_update_absent (conn : connection) (t : table) (e : dict) (id : Z) :
  view conn = Some t -> employees_table t ->
  e <> [] -> incl (keys e) (attributes t) ->
  forallb in_int64 (values e) = true -> in_int64 (Integer id) = true ->
  (forall r, In r (rows t) -> fst r <> id) ->
  execute conn (update_sql (keys e)) (values e ++ [Integer id])%list =
  Return {| fetched := []; lastrowid := None |} (set_view (begin conn) (Some t)).
Proof.
  intros Hv Hwf Hne Hin Hvals Hid Hno.
  assert (Hk : keys e <> []) by (destruct e; [congruence | discriminate]).
  unfold execute.
  rewrite (parse_update_sql _ Hk (attributes_idents _ _ Hwf Hin)), Hv.
  cbn [prepare]. destruct (resolve_all_attributes t _ Hin) as (refs & -> & Hlen).
  cbn [obind omap prepare_atom]. rewrite (resolve_pk _ (et_pk _ Hwf)).
  cbn [obind is_dml]. unfold bind_check.
  assert (Hl : List.length (values e) = List.length refs).
  { unfold values, keys in *. now rewrite Hlen, !length_map. }
  cbn [nparams count_cmp filter List.length].
  rewrite length_app, Hl. cbn [List.length]. rewrite Nat.eqb_refl. cbn [negb].
  rewrite (forallb_app_true _ _ _ Hvals) by (cbn [forallb]; now rewrite Hid).
  cbn [negb obind]. rewrite view_begin, Hv. cbn [step].
  rewrite <- Hl, skipn_app, skipn_all, Nat.sub_diag, firstn_app, firstn_all, Nat.sub_diag.
  cbn [skipn firstn app]. rewrite app_nil_r.
  cbn [bind_cond ref_affinity compare_affinity obind].
  fold (by_id id).
  rewrite run_update_no_match.
  - reflexivity.
  - apply (et_sorted _ Hwf).
  - intros r Hr. rewrite row_matches_by_id. apply Z.eqb_neq. now apply Hno.
Qed.

(** * The filtered query *)

Lemma select_employees_filtered_unfold (conn : connection) (d lo hi : value) :
  select_employees_filtered conn d lo hi
  = bind (execute conn (filter_query (truthy d) (truthy lo) (truthy hi))
                  (filter_params d lo hi))
         (fun cur conn => Return (fetched cur) conn).
Proof.
  unfold select_employees_filtered, filter_query, filter_params.
  destruct (truthy d), (truthy lo), (truthy hi); reflexivity.
Qed.

Lemma parse_filter_query (bd bl bh : bool) :
  parse_sql (filter_query bd bl bh) = Some (SSelect (filter_atoms bd bl bh)).
Proof. destruct bd, bl, bh; reflexivity. Qed.

Lemma prepare_filter_atoms (t : table) (bd bl bh : bool) :
  employees_table t ->
  omap (prepare_atom t) (filter_atoms bd bl bh) = Ok (filter_patoms bd bl bh).
Proof.
  intros Hwf. destruct (et_base _ Hwf) as [extra Hc].
  assert (Hd : resolve t "department" = Some (AttrRef 1)).
  { unfold resolve. rewrite (et_pk _ Hwf), Hc. reflexivity. }
  assert (Hs : resolve t "salary" = Some (AttrRef 2)).
  { unfold resolve. rewrite (et_pk _ Hwf), Hc. reflexivity. }
  destruct bd, bl, bh; cbn [filter_atoms filter_patoms app omap prepare_atom obind];
    rewrite ?Hd, ?Hs; reflexivity.
Qed.

Lemma str_arg_int64 (v : value) : str_arg v -> in_int64 v = true.
Proof. destruct v; simpl; intuition. Qed.

Lemma num_arg_int64 (v : value) : num_arg v -> in_int64 v = true.
Proof. destruct v; simpl; intuition. Qed.

Lemma execute_filter (conn : connection) (t : table) (d lo hi : value) :
  view conn = Some t -> employees_table t ->
  str_arg d -> num_arg lo -> num_arg hi ->
  execute conn (filter_query (truthy d) (truthy lo) (truthy hi)) (filter_params d lo hi)
  = Return {| fetched := run_select t (filter_conds d lo hi); lastrowid := None |} conn.
Proof.
  intros Hv Hwf Hd Hlo Hhi. destruct (et_base _ Hwf) as [extra Hc].
  unfold execute. rewrite parse_filter_query, Hv. cbn [prepare].
  rewrite (prepare_filter_atoms _ _ _ _ Hwf). cbn [obind is_dml].
  assert (Hb : bind_check (PSelect (filter_patoms (truthy d) (truthy lo) (truthy hi)))
                          (filter_params d lo hi) = Ok tt).
  { unfold bind_check, filter_params, filter_patoms.
    pose proof (str_arg_int64 _ Hd). pose proof (num_arg_int64 _ Hlo).
    pose proof (num_arg_int64 _ Hhi).
    destruct (truthy d), (truthy lo), (truthy hi);
      cbn [app nparams count_cmp filter List.length Nat.eqb negb forallb];
      rewrite ?H, ?H0, ?H1; reflexivity. }
  rewrite Hb. cbn [obind]. rewrite Hv. cbn [step].
  assert (Hbc : bind_cond t (filter_patoms (truthy d) (truthy lo) (truthy hi))
                          (filter_params d lo hi) = Ok (filter_conds d lo hi)).
  { unfold filter_params, filter_patoms, filter_conds.
    assert (A1 : ref_affinity t (AttrRef 1) = AffText) by (cbn; now rewrite Hc).
    assert (A2 : ref_affinity t (AttrRef 2) = AffReal) by (cbn; now rewrite Hc).
    assert (C1 : compare_affinity AffText d = Ok d) by (destruct d; simpl in *; intuition).
    assert (C2 : compare_affinity AffReal lo = Ok lo) by (destruct lo; simpl in *; intuition).
    assert (C3 : compare_affinity AffReal hi = Ok hi) by (destruct hi; simpl in *; intuition).
    destruct (truthy d), (truthy lo), (truthy hi);
      cbn [app bind_cond]; rewrite ?A1, ?A2, ?C1, ?C2, ?C3; reflexivity. }
  rewrite Hbc. cbn [obind]. now rewrite <- Hv, set_view_view.
Qed.

Lemma string_compare_refl (s : string) : String.compare s s = Eq.
Proof.
  induction s as [|c s IH]; [reflexivity|]. simpl.
  unfold Ascii.compare. now rewrite N.compare_refl.
Qed.

Lemma string_compare_eqb (a b : string) :
  match String.compare a b with Eq => true | _ => false end = (a =? b)%string.
Proof.
  destruct (String.eqb_spec a b) as [->|Hne].
  - now rewrite string_compare_refl.
  - destruct (String.compare a b) eqn:E; try reflexivity.
    apply String.compare_eq_iff in E. contradiction.
Qed.

Lemma cmp_eq_text (v : value) (s : string) :
  cmp_true CEq v (Text s)
  = match v with Text s' => (s' =? s)%string | _ => false end.
Proof.
  destruct v as [|z|q|s']; try reflexivity.
  unfold cmp_true, compare_values. rewrite <- string_compare_eqb.
  now destruct (String.compare s' s).
Qed.

Lemma num_of_number (n : number) : num_of (number_value n) = Some (number_Q n).
Proof. now destruct n. Qed.

Lemma compare_values_num (x y : value) (p q : Q) :
  num_of x = Some p -> num_of y = Some q ->
  compare_values x y = Some (Qcompare p q).
Proof.
  intros Hx Hy. destruct x; try discriminate; destruct y; try discriminate;
    simpl in *; injection Hx as <-; injection Hy as <-; reflexivity.
Qed.

Lemma Qle_bool_compare (p q : Q) :
  Qle_bool p q = match Qcompare p q with Gt => false | _ => true end.
Proof.
  destruct (Qcompare_spec p q) as [H|H|H].
  - apply Qle_bool_iff. rewrite H. apply Qle_refl.
  - apply Qle_bool_iff. now apply Qlt_le_weak.
  - apply not_true_is_false. intros E. apply Qle_bool_iff in E.
    apply (Qlt_irrefl p). eapply Qle_lt_trans; eassumption.
Qed.

Lemma cmp_ge_number (v : value) (n : number) :
  match v with Text _ => False | _ => True end ->
  cmp_true CGe v (number_value n)
  = match num_of v with Some x => Qle_bool (number_Q n) x | None => false end.
Proof.
  intros Hv. destruct (num_of v) as [x|] eqn:E.
  - unfold cmp_true. rewrite (compare_values_num _ _ _ _ E (num_of_number n)).
    rewrite Qle_bool_compare, <- Qcompare_antisym.
    now destruct (Qcompare (number_Q n) x).
  - destruct v; try discriminate; [reflexivity | contradiction].
Qed.

Lemma cmp_le_number (v : value) (n : number) :
  match v with Text _ => False | _ => True end ->
  cmp_true CLe v (number_value n)
  = match num_of v with Some x => Qle_bool x (number_Q n) | None => false end.
Proof.
  intros Hv. destruct (num_of v) as [x|] eqn:E.
  - unfold cmp_true. rewrite (compare_values_num _ _ _ _ E (num_of_number n)).
    rewrite Qle_bool_compare.
    now destruct (Qcompare x (number_Q n)).
  - destruct v; try discriminate; [reflexivity | contradiction].
Qed.

Lemma truthy_arg_str (d : option string) :
  truthy (arg_str d) = match supplied_str d with Some _ => true | None => false end.
Proof.
  destruct d as [s|]; [|reflexivity]. simpl. now destruct (s =? EmptyString)%string.
Qed.

Lemma Qeq_bool_inject_0 (z : Z) : Qeq_bool (inject_Z z) 0 = (z =? 0).
Proof. unfold Qeq_bool, inject_Z. simpl. now rewrite Z.mul_1_r. Qed.

Lemma truthy_arg_num (n : option number) :
  truthy (arg_num n) = match supplied_num n with Some _ => true | None => false end.
Proof.
  destruct n as [[z|q]|]; [| |reflexivity]; simpl.
  - rewrite Qeq_bool_inject_0. now destruct (z =? 0).
  - now destruct (Qeq_bool q 0).
Qed.

Lemma supplied_str_some (d : option string) (s : string) :
  supplied_str d = Some s -> d = Some s.
Proof.
  destruct d as [s'|]; [|discriminate]. simpl.
  destruct (s' =? EmptyString)%string; [discriminate | congruence].
Qed.

Lemma supplied_num_some (n : option number) (x : number) :
  supplied_num n = Some x -> n = Some x.
Proof.
  destruct n as [y|]; [|discriminate]. simpl.
  destruct (Qeq_bool (number_Q y) 0); [discriminate | congruence].
Qed.

(** On a row whose salary is a number or NULL, the conditions of the
    statement are the predicates of the truthy arguments. *)
Lemma row_matches_filter (d : option string) (lo hi : option number) (r : row) :
  match nth 2 (snd r) Null with Text _ => False | _ => True end ->
  row_matches (filter_conds (arg_str d) (arg_num lo) (arg_num hi)) r
  = holds in_department (supplied_str d) (output_row r)
    && holds salary_at_least (supplied_num lo) (output_row r)
    && holds salary_at_most (supplied_num hi) (output_row r).
Proof.
  intros Hs. unfold filter_conds, row_matches.
  rewrite !forallb_app, truthy_arg_str, !truthy_arg_num.
  rewrite <- andb_assoc. f_equal; [|f_equal].
  - destruct (supplied_str d) as [s|] eqn:E; [|reflexivity].
    apply supplied_str_some in E as ->. cbn [forallb arg_str get_col holds].
    now rewrite cmp_eq_text, andb_true_r.
  - destruct (supplied_num lo) as [x|] eqn:E; [|reflexivity].
    apply supplied_num_some in E as ->. cbn [forallb arg_num get_col holds].
    now rewrite (cmp_ge_number _ _ Hs), andb_true_r.
  - destruct (supplied_num hi) as [x|] eqn:E; [|reflexivity].
    apply supplied_num_some in E as ->. cbn [forallb arg_num get_col holds].
    now rewrite (cmp_le_number _ _ Hs), andb_true_r.
Qed.

Lemma filter_map_swap {A B} (f : A -> B) (p : B -> bool) (l : list A) :
  map f (filter (fun a => p (f a)) l) = filter p (map f l).
Proof.
  induction l as [|a l IH]; [reflexivity|]. simpl.
  destruct (p (f a)); simpl; now rewrite IH.
Qed.

Lemma filter_ext_in_rows {A} (p q : A -> bool) (l : list A) :
  Forall (fun a => p a = q a) l -> filter p l = filter q l.
Proof.
  induction 1 as [|a l Ha _ IH]; [reflexivity|]. simpl. now rewrite Ha, IH.
Qed.

Lemma arg_str_ok (d : option string) : str_arg (arg_str d).
Proof. now destruct d. Qed.

Lemma arg_num_ok (n : option number) : number_ok n -> num_arg (arg_num n).
Proof. destruct n as [[z|q]|]; simpl; intuition. Qed.

Lemma select_filtered_spec (conn : connection) (t : table)
      (d : option string) (lo hi : option number) :
  view conn = Some t -> employees_table t -> salaries_numeric t ->
  number_ok lo -> number_ok hi ->
  select_employees_filtered conn (arg_str d) (arg_num lo) (arg_num hi)
  = Return (queryFiltered_spec (map output_row (rows t))
              (supplied_str d) (supplied_num lo) (supplied_num hi)) conn.
Proof.
  intros Hv Hwf Hs Hlo Hhi.
  rewrite select_employees_filtered_unfold.
  rewrite (execute_filter _ _ _ _ _ Hv Hwf (arg_str_ok d)
             (arg_num_ok _ Hlo) (arg_num_ok _ Hhi)).
  cbn [bind fetched]. unfold run_select, queryFiltered_spec.
  rewrite <- filter_map_swap. f_equal. f_equal.
  apply filter_ext_in_rows.
  eapply Forall_impl; [|exact Hs]. intros r Hr. now apply row_matches_filter.
Qed.

(** * Column names *)

Lemma distinct_names_cons (n : string) (ns : list string) :
  distinct_names (n :: ns) = true ->
  (forall m, In m ns -> ieq n m = false) /\ distinct_names ns = true.
Proof.
  cbn [distinct_names]. intros H. apply andb_prop in H as [H1 H2]. split; [|assumption].
  intros m Hm. apply negb_true_iff in H1.
  apply not_true_is_false. intros E.
  assert (existsb (ieq n) ns = true); [|congruence].
  apply existsb_exists. now exists m.
Qed.

Lemma index_of_nth (cs : list column) (i : nat) (c : column) :
  distinct_names (map cname cs) = true ->
  nth_error cs i = Some c -> index_of (cname c) cs = Some i.
Proof.
  revert i. induction cs as [|x cs IH]; intros i Hd Hn.
  - now destruct i.
  - cbn [map] in Hd. apply distinct_names_cons in Hd as [Hx Hd].
    destruct i as [|i]; cbn [nth_error] in Hn.
    + injection Hn as ->. cbn [index_of]. now rewrite ieq_refl.
    + cbn [index_of]. rewrite (Hx (cname c)).
      * now rewrite (IH _ Hd Hn).
      * apply in_map. eapply nth_error_In; eassumption.
Qed.

Section Insert.

Variable t : table.
Hypothesis Hwf : employees_table t.

Lemma resolve_column (i : nat) (c : column) :
  nth_error (cols t) i = Some c -> resolve t (cname c) = Some (AttrRef i).
Proof.
  intros Hn. pose proof (et_distinct _ Hwf) as Hd.
  apply distinct_names_cons in Hd as [Hpk Hd].
  unfold resolve. rewrite (Hpk (cname c)).
  - now rewrite (index_of_nth _ _ _ Hd Hn).
  - apply in_map. eapply nth_error_In; eassumption.
Qed.

Lemma attribute_column (k : string) :
  In k (attributes t) -> exists i c, nth_error (cols t) i = Some c /\ cname c = k.
Proof.
  unfold attributes. intros H. apply in_map_iff in H as (c & <- & Hc).
  apply In_nth_error in Hc as [i Hi]. now exists i, c.
Qed.

(** * INSERT of a record whose keys are attributes

    Throughout, [t] is the table of the program. *)

Lemma listed_value_field (e : dict) (refs : list colref) (i : nat) (c : column) :
  incl (keys e) (attributes t) ->
  resolve_all t (keys e) = Ok refs ->
  nth_error (cols t) i = Some c ->
  listed_value refs (values e) i = field e c.
Proof.
  revert refs. unfold field.
  induction e as [|[k v] e IH]; intros refs Hin Hr Hn.
  - cbn in Hr. injection Hr as <-. reflexivity.
  - unfold resolve_all in Hr. cbn [keys map fst omap] in Hr.
    destruct (attribute_column k) as (j & cj & Hj & Ek); [apply Hin; now left|].
    subst k. rewrite (resolve_column _ _ Hj) in Hr. cbn [obind] in Hr.
    fold (keys e) in Hr.
    destruct (omap _ (keys e)) as [refs'| |] eqn:Hr'; try discriminate.
    cbn in Hr. injection Hr as <-.
    cbn [values map snd listed_value lookup]. fold (values e).
    destruct (Nat.eqb_spec j i) as [->|Hji].
    + rewrite Hn in Hj. injection Hj as <-. now rewrite String.eqb_refl.
    + destruct (String.eqb_spec (cname cj) (cname c)) as [E|E].
      * exfalso. apply Hji.
        pose proof (resolve_column _ _ Hj) as R1.
        pose proof (resolve_column _ _ Hn) as R2.
        rewrite E in R1. congruence.
      * apply IH; [|exact Hr'|exact Hn].
        intros x Hx. apply Hin. now right.
Qed.

Lemma resolve_all_attr_refs (ks : list string) (refs : list colref) :
  incl ks (attributes t) ->
  resolve_all t ks = Ok refs -> Forall (fun r => r <> RowidRef) refs.
Proof.
  revert refs. unfold resolve_all.
  induction ks as [|k ks IH]; intros refs Hin Hr.
  - injection Hr as <-. constructor.
  - cbn [omap] in Hr.
    destruct (attribute_column k) as (j & cj & Hj & Ek); [apply Hin; now left|].
    subst k. rewrite (resolve_column _ _ Hj) in Hr. cbn [obind] in Hr.
    destruct (omap _ ks) as [refs'| |] eqn:Hr'; try discriminate.
    cbn in Hr. injection Hr as <-. constructor; [discriminate|].
    apply IH; [|reflexivity]. intros x Hx. apply Hin. now right.
Qed.

Lemma listed_rowid_none (refs : list colref) (ps : list value) (acc : option value) :
  Forall (fun r => r <> RowidRef) refs -> listed_rowid refs ps acc = acc.
Proof.
  intros H. revert ps. induction H as [|r refs Hr _ IH]; intros ps.
  - now destruct ps.
  - destruct ps as [|p ps]; destruct r; try reflexivity; try congruence.
    cbn [listed_rowid]. apply IH.
Qed.

Lemma apply_affinity_storable (a : affinity) (v : value) :
  storable a v = true -> apply_affinity a v = Ok (stored a v).
Proof.
  destruct a, v; simpl; try discriminate; try reflexivity.
  all: try (intros H; now rewrite H).
  all: intros H; apply negb_true_iff in H; now rewrite H.
Qed.

Lemma store_values_map (cs : list column) (i : nat) (get : nat -> value)
      (f : column -> value) :
  (forall j c, nth_error cs j = Some c ->
               get (i + j)%nat = f c /\ storable (caff c) (f c) = true) ->
  store_values cs i get = Ok (map (fun c => stored (caff c) (f c)) cs).
Proof.
  revert i. induction cs as [|c cs IH]; intros i H; [reflexivity|].
  cbn [store_values map].
  destruct (H 0%nat c eq_refl) as [E S]. rewrite Nat.add_0_r in E.
  rewrite E, (apply_affinity_storable _ _ S). cbn [obind].
  rewrite IH; [reflexivity|].
  intros j c' Hj. rewrite Nat.add_succ_l, <- Nat.add_succ_r. now apply H.
Qed.

Lemma stored_null (a : affinity) (v : value) : is_null (stored a v) = is_null v.
Proof. now destruct a, v. Qed.

Lemma not_null_ok_map (cs : list column) (f : column -> value) :
  not_null_ok cs (map (fun c => stored (caff c) (f c)) cs)
  = forallb (fun c => negb (cnotnull c && is_null (f c))) cs.
Proof.
  induction cs as [|c cs IH]; [reflexivity|].
  cbn [map not_null_ok forallb]. rewrite IH. f_equal. f_equal. f_equal.
  rewrite <- (stored_null (caff c)). now destruct (stored (caff c) (f c)).
Qed.

(** The new rowid is past every stored one. *)

Lemma fold_max_ge (l : list Z) (a : Z) :
  a <= fold_left Z.max l a /\ Forall (fun x => x <= fold_left Z.max l a) l.
Proof.
  revert a. induction l as [|x l IH]; intros a; cbn [fold_left].
  - split; [lia | constructor].
  - destruct (IH (Z.max a x)) as [H1 H2]. split; [lia|].
    constructor; [lia | assumption].
Qed.

Lemma max_rowid_ge (rs : list row) (m : Z) :
  max_rowid rs = Some m -> forall r, In r rs -> fst r <= m.
Proof.
  destruct rs as [|r0 rs]; [discriminate|]. cbn [max_rowid]. intros H. injection H as <-.
  destruct (fold_max_ge (map fst rs) (fst r0)) as [H1 H2].
  intros r [<-|Hr]; [assumption|].
  rewrite Forall_forall in H2. apply H2. now apply in_map.
Qed.

Lemma next_id_above (r : row) : In r (rows t) -> fst r < next_id t.
Proof.
  unfold next_id. intros Hr. destruct (max_rowid (rows t)) as [m|] eqn:E.
  - pose proof (max_rowid_ge _ _ E r Hr). lia.
  - destruct (rows t); [contradiction | discriminate].
Qed.

Lemma new_rowid_next :
  next_id t <= max_int64 -> new_rowid (rows t) = Ok (next_id t).
Proof.
  unfold new_rowid, next_id. destruct (max_rowid (rows t)) as [m|]; [|reflexivity].
  intros H. destruct (Z.ltb_spec m max_int64); [reflexivity | lia].
Qed.

Lemma has_rowid_next : has_rowid (rows t) (next_id t) = false.
Proof.
  apply has_rowid_false. intros r Hr. pose proof (next_id_above r Hr). lia.
Qed.

Lemma filter_insert_row (p : row -> bool) (r : row) (rs : list row) :
  p r = true -> (forall x, In x rs -> p x = false) ->
  filter p (insert_row r rs) = [r].
Proof.
  intros Hr. induction rs as [|x rs IH]; intros H.
  - cbn. now rewrite Hr.
  - cbn [insert_row].
    assert (Hx : p x = false) by (apply H; now left).
    assert (Hrs : filter p rs = []).
    { clear IH. induction rs as [|y rs IH]; [reflexivity|]. cbn [filter].
      rewrite (H y) by (right; now left). apply IH. intros z [<-|Hz]; apply H; [now left | right; now right]. }
    destruct (fst r <? fst x).
    + cbn [filter]. now rewrite Hr, Hx, Hrs.
    + cbn [filter]. rewrite Hx. apply IH. intros z Hz. apply H. now right.
Qed.

Lemma run_insert_record (e : dict) (refs : list colref) :
  incl (keys e) (attributes t) ->
  resolve_all t (keys e) = Ok refs ->
  forallb (fun c => storable (caff c) (field e c)) (cols t) = true ->
  run_insert t refs (values e)
  = if forallb (fun c => negb (cnotnull c && is_null (field e c))) (cols t)
    then obind (new_rowid (rows t)) (fun id =>
         if has_rowid (rows t) id then Raise IntegrityError
         else Ok ({| pkname := pkname t; cols := cols t;
                     rows := insert_row (id, new_row t e) (rows t) |}, id))
    else Raise IntegrityError.
Proof.
  intros Hin Hr Hst. unfold run_insert.
  rewrite (store_values_map _ _ _ (field e)).
  - cbn [obind]. rewrite not_null_ok_map.
    destruct (forallb (fun c => negb (cnotnull c && is_null (field e c))) (cols t));
      [|reflexivity]. cbn [negb].
    rewrite (listed_rowid_none _ _ _ (resolve_all_attr_refs _ _ Hin Hr)).
    reflexivity.
  - intros j c Hj. cbn [Nat.add]. split.
    + now apply (listed_value_field e refs j c).
    + rewrite forallb_forall in Hst. apply Hst. eapply nth_error_In; eassumption.
Qed.

Lemma keys_nonempty (e : dict) : e <> [] -> keys e <> [].
Proof. destruct e; [congruence | discriminate]. Qed.

Lemma execute_insert_prefix (conn : connection) (e : dict) :
  view conn = Some t ->
  e <> [] -> incl (keys e) (attributes t) ->
  forallb in_int64 (values e) = true ->
  exists refs,
    resolve_all t (keys e) = Ok refs /\
    execute conn (insert_sql (keys e)) (values e)
    = match run_insert t refs (values e) with
      | Ok x => Return {| fetched := []; lastrowid := Some (snd x) |}
                       (set_view (begin conn) (Some (fst x)))
      | Raise err => Raised err (begin conn)
      | Unmodelled => NoModel
      end.
Proof.
  intros Hv Hne Hin Hints.
  destruct (resolve_all_attributes t _ Hin) as (refs & Hr & Hlen).
  exists refs. split; [assumption|].
  unfold execute.
  rewrite (parse_insert_sql _ (keys_nonempty _ Hne) (attributes_idents _ _ Hwf Hin)), Hv.
  cbn [prepare]. rewrite Hr. cbn [obind]. rewrite Nat.eqb_refl. cbn [is_dml].
  unfold bind_check. cbn [nparams].
  assert (Hl : List.length (values e) = List.length refs).
  { unfold values, keys in *. now rewrite Hlen, !length_map. }
  rewrite Hl, Nat.eqb_refl, Hints. cbn [negb obind]. rewrite view_begin, Hv.
  cbn [step]. destruct (run_insert t refs (values e)) as [[t' id]| |]; reflexivity.
Qed.

Lemma execute_insert_ok (conn : connection) (e : dict) :
  view conn = Some t ->
  e <> [] -> incl (keys e) (attributes t) ->
  forallb (accepts e) (cols t) = true ->
  forallb in_int64 (values e) = true ->
  next_id t <= max_int64 ->
  execute conn (insert_sql (keys e)) (values e)
  = Return {| fetched := []; lastrowid := Some (next_id t) |}
           (set_view (begin conn) (Some (inserted t e))).
Proof.
  intros Hv Hne Hin Hacc Hints Hroom.
  destruct (execute_insert_prefix _ _ Hv Hne Hin Hints) as (refs & Hr & ->).
  assert (Hst : forallb (fun c => storable (caff c) (field e c)) (cols t) = true).
  { rewrite forallb_forall in *. intros c Hc. apply Hacc in Hc.
    unfold accepts in Hc. now apply andb_prop in Hc as [Hc _]. }
  assert (Hnn : forallb (fun c => negb (cnotnull c && is_null (field e c))) (cols t) = true).
  { rewrite forallb_forall in *. intros c Hc. apply Hacc in Hc.
    unfold accepts in Hc. now apply andb_prop in Hc as [_ Hc]. }
  rewrite (run_insert_record _ _ Hin Hr Hst), Hnn.
  rewrite (new_rowid_next Hroom). cbn [obind]. now rewrite has_rowid_next.
Qed.

Lemma execute_insert_not_null (conn : connection) (e : dict) (c : column) :
  view conn = Some t ->
  e <> [] -> incl (keys e) (attributes t) ->
  forallb (fun c => storable (caff c) (field e c)) (cols t) = true ->
  forallb in_int64 (values e) = true ->
  In c (cols t) -> cnotnull c = true -> is_null (field e c) = true ->
  execute conn (insert_sql (keys e)) (values e) = Raised IntegrityError (begin conn).
Proof.
  intros Hv Hne Hin Hst Hints Hc Hnn Hnull.
  destruct (execute_insert_prefix _ _ Hv Hne Hin Hints) as (refs & Hr & ->).
  rewrite (run_insert_record _ _ Hin Hr Hst).
  assert (E : forallb (fun c => negb (cnotnull c && is_null (field e c))) (cols t) = false).
  { apply not_true_is_false. intros H. rewrite forallb_forall in H.
    specialize (H c Hc). now rewrite Hnn, Hnull in H. }
  now rewrite E.
Qed.

End Insert.

(** A key that is no column of the table: the statement does not compile. *)
Lemma resolve_unknown (t : table) (k : string) :
  has_column t k = false -> is_rowid_alias k = false -> resolve t k = None.
Proof.
  unfold has_column, resolve. intros H Ha. apply orb_false_elim in H as [H1 H2].
  rewrite H1, Ha.
  assert (E : index_of k (cols t) = None).
  { induction (cols t) as [|c cs IH]; [reflexivity|].
    cbn [existsb] in H2. apply orb_false_elim in H2 as [Hc Hcs].
    cbn [index_of]. rewrite Hc, (IH Hcs). reflexivity. }
  now rewrite E.
Qed.

Lemma resolve_all_unknown (t : table) (ks : list string) (k : string) :
  In k ks -> resolve t k = None ->
  (forall refs, resolve_all t ks <> Ok refs) /\ resolve_all t ks <> Unmodelled.
Proof.
  unfold resolve_all. induction ks as [|x ks IH]; [contradiction|].
  intros [->|Hk] Hr; cbn [omap].
  - rewrite Hr. cbn. split; [intros refs|]; discriminate.
  - destruct (IH Hk Hr) as [H1 H2].
    destruct (resolve t x); cbn [obind]; [|split; [intros refs|]; discriminate].
    destruct (omap _ ks) as [refs| |]; cbn [obind].
    + now destruct (H1 refs).
    + split; [intros refs|]; discriminate.
    + now destruct H2.
Qed.

Lemma execute_insert_unknown_key (conn : connection) (t : table) (e : dict) (k : string) :
  view conn = Some t ->
  e <> [] -> idents (keys e) ->
  In k (keys e) -> has_column t k = false -> is_rowid_alias k = false ->
  execute conn (insert_sql (keys e)) (values e) = Raised OperationalError conn.
Proof.
  intros Hv Hne Hid Hk Hc Ha.
  unfold execute. rewrite (parse_insert_sql _ (keys_nonempty _ Hne) Hid), Hv.
  cbn [prepare].
  destruct (resolve_all_unknown t _ _ Hk (resolve_unknown _ _ Hc Ha)) as [H1 H2].
  destruct (resolve_all t (keys e)) as [refs|err|] eqn:E.
  - now destruct (H1 refs).
  - cbn [obind]. destruct err; try reflexivity.
    all: exfalso; clear - E; unfold resolve_all in E;
      induction (keys e) as [|x ks IH]; [discriminate|];
      cbn [omap] in E; destruct (resolve t x); cbn [obind] in E; try discriminate;
      destruct (omap _ ks) as [r|err'|]; cbn [obind] in E; try discriminate;
      injection E as ->; now apply IH.
  - now destruct H2.
Qed.

(** * [get_columns] *)

Lemma execute_pragma (conn : connection) (t : table) :
  view conn = Some t ->
  execute conn pragma_sql [] =
  Return {| fetched := table_info t; lastrowid := None |} conn.
Proof.
  intros Hv. unfold execute. rewrite parse_pragma_sql. cbn. rewrite Hv.
  cbn. now rewrite <- Hv, set_view_view.
Qed.

Lemma info_names (l : list string) (i : nat) :
  map (fun info => nth 1 info Null)
      (filter (fun info => negb (py_eq (nth 1 info Null) (Text "id")))
              (map (fun p : nat * string => [Integer (Z.of_nat (fst p)); Text (snd p)])
                   (combine (seq i (List.length l)) l)))
  = map Text (filter (fun n => negb (n =? "id")%string) l).
Proof.
  revert i. induction l as [|n l IH]; intros i; [reflexivity|].
  cbn [List.length seq combine map filter nth fst snd py_eq].
  destruct (n =? "id")%string; cbn [negb map nth]; now rewrite IH.
Qed.

Lemma attributes_not_id (t : table) :
  employees_table t ->
  filter (fun n => negb (n =? "id")%string) (attributes t) = attributes t.
Proof.
  intros Hwf. pose proof (et_distinct _ Hwf) as Hd.
  apply distinct_names_cons in Hd as [Hpk _]. rewrite (et_pk _ Hwf) in Hpk.
  unfold attributes. induction (map cname (cols t)) as [|n l IH]; [reflexivity|].
  cbn [filter].
  assert (E : (n =? "id")%string = false).
  { apply String.eqb_neq. intros ->. specialize (Hpk "id" (or_introl eq_refl)).
    now rewrite ieq_refl in Hpk. }
  rewrite E. cbn [negb]. f_equal. apply IH. intros m Hm. apply Hpk. now right.
Qed.

Lemma get_columns_attributes (conn : connection) (t : table) :
  view conn = Some t -> employees_table t ->
  get_columns conn = Return (map Text (attributes t)) conn.
Proof.
  intros Hv Hwf. unfold get_columns. rewrite (execute_pragma _ _ Hv).
  cbn [bind fetched]. unfold table_info.
  rewrite <- (length_map cname (cols t)).
  change (S (List.length (map cname (cols t))))
    with (List.length (pkname t :: map cname (cols t))).
  rewrite info_names. cbn [filter]. rewrite (et_pk _ Hwf).
  change (("id" =? "id")%string) with true. cbn [negb].
  fold (attributes t). now rewrite (attributes_not_id _ Hwf).
Qed.

(** * [add_extra_columns] *)

Lemma view_set_view (c : connection) (d : database) : view (set_view c d) = d.
Proof. destruct c as [d0 [p|]]; reflexivity. Qed.

Lemma execute_alter (conn : connection) (t : table) (c : string) (ws : list string) :
  view conn = Some t -> name_words c = Some ws ->
  execute conn (alter_sql c) []
  = match run_alter t (added_column ws) with
    | Ok t' => Return {| fetched := []; lastrowid := None |} (set_view conn (Some t'))
    | Raise e => Raised e conn
    | Unmodelled => NoModel
    end.
Proof.
  intros Hv Hw. unfold execute. rewrite (parse_alter_words _ _ Hw), Hv.
  cbn [prepare is_dml bind_check List.length nparams Nat.eqb negb forallb obind].
  rewrite Hv. cbn [step].
  now destruct (run_alter t (added_column ws)).
Qed.

(** A statement of [add_extra_columns] that raises leaves the connection
    exactly as it was: no transaction is opened for it. *)
Lemma execute_alter_raised (conn conn' : connection) (c : string) (e : error) :
  execute conn (alter_sql c) [] = Raised e conn' -> conn' = conn.
Proof.
  unfold execute. destruct (parse_sql (alter_sql c)) as [s|] eqn:Hp; [|discriminate].
  destruct (parse_alter_sql_shape _ _ Hp) as [d ->].
  destruct (view conn) as [t|]; cbn [prepare].
  - cbn [is_dml]. destruct (obind _ _) as [[db cur]| |]; try discriminate.
    intros H. now injection H as _ <-.
  - intros H. now injection H as _ <-.
Qed.

Lemma run_alter_cases (t : table) (d : coldef) :
  run_alter t d
  = if has_column t (dname d) || (max_columns <=? column_count t)%nat
    then Raise OperationalError
    else Ok (with_column t d).
Proof.
  unfold run_alter. destruct (has_column t (dname d)); [reflexivity|].
  now destruct (max_columns <=? column_count t)%nat.
Qed.

Lemma has_column_with_column (t : table) (d : coldef) (n : string) :
  has_column t n = true -> has_column (with_column t d) n = true.
Proof.
  unfold has_column, with_column. cbn [pkname cols]. intros H.
  apply orb_true_iff in H as [H|H]; [now rewrite H|].
  rewrite existsb_app, H. now rewrite orb_true_r.
Qed.

Lemma add_each_split (pre : list string) (c : string) (post : list string)
      (conn conn1 conn2 : connection) (e : error) :
  add_each conn pre = Return tt conn1 ->
  execute conn1 (alter_sql c) [] = Raised e conn2 ->
  add_each conn (pre ++ c :: post)%list = Raised e conn1.
Proof.
  revert conn. induction pre as [|x pre IH]; intros conn Hpre Hc.
  - injection Hpre as <-. cbn [app add_each].
    rewrite Hc. cbn [bind]. now rewrite (execute_alter_raised _ _ _ _ Hc).
  - cbn [app add_each] in *.
    destruct (execute conn (alter_sql x) []) as [cur c'| |]; try discriminate.
    cbn [bind] in *. now apply IH.
Qed.

(** * A batch with a colliding name *)

Lemma add_each_collision_at (pre : list string) (c n : string) (post : list string) :
  Forall modelled_name pre -> column_named c = Some n ->
  forall conn t, view conn = Some t -> has_column t n = true ->
  exists conn' t',
    add_each conn (pre ++ c :: post)%list = Raised OperationalError conn' /\
    view conn' = Some t' /\
    (forall m, has_column t m = true -> has_column t' m = true).
Proof.
  intros Hm Hn. induction Hm as [|x pre Hx Hm IH]; intros conn t Hv Hcol.
  - cbn [app add_each]. unfold column_named in Hn.
    destruct (name_words c) as [ws|] eqn:Ew; [|discriminate].
    cbn [option_map] in Hn. assert (Hn' : dname (added_column ws) = n) by congruence.
    rewrite (execute_alter _ _ _ _ Hv Ew), run_alter_cases, Hn', Hcol.
    cbn [orb bind]. now exists conn, t.
  - unfold modelled_name in Hx. destruct (name_words x) as [wx|] eqn:Ex; [|congruence].
    cbn [app add_each]. rewrite (execute_alter _ _ _ _ Hv Ex), run_alter_cases.
    destruct (has_column t (dname (added_column wx))
              || (max_columns <=? column_count t)%nat).
    + cbn [bind]. now exists conn, t.
    + cbn [bind].
      destruct (IH (set_view conn (Some (with_column t (added_column wx))))
                   (with_column t (added_column wx)))
        as (conn' & t' & H1 & H2 & H3).
      * apply view_set_view.
      * now apply has_column_with_column.
      * exists conn', t'. repeat split; try assumption.
        intros m Hmcol. apply H3. now apply has_column_with_column.
Qed.


(** * The record read back *)


Lemma lookup_in_keys (k : string) (e : dict) :
  In k (keys e) -> exists v, lookup k e = Some v.
Proof.
  induction e as [|[k' v'] e IH]; [contradiction|]. cbn [keys map fst lookup].
  intros [->|H].
  - rewrite String.eqb_refl. now exists v'.
  - destruct (k' =? k)%string; [now exists v'|]. now apply IH.
Qed.



(** * NULL in a comparison *)

Lemma cmp_true_null (op : cmp) (p : value) : cmp_true op Null p = false.
Proof. now destruct op. Qed.

Lemma filter_conds_bound (d lo hi : value) :
  truthy lo = true \/ truthy hi = true ->
  exists op p, In (AttrRef 2, op, p) (filter_conds d lo hi).
Proof.
  unfold filter_conds. intros [H|H]; rewrite H.
  - exists CGe, lo. apply in_or_app. right. now left.
  - exists CLe, hi. apply in_or_app. right. apply in_or_app. right. now left.
Qed.

Lemma row_matches_salary (c : list (colref * cmp * value)) (op : cmp) (p : value) (r : row) :
  In (AttrRef 2, op, p) c -> row_matches c r = true -> nth 2 (snd r) Null <> Null.
Proof.
  intros Hin Hm E. unfold row_matches in Hm. rewrite forallb_forall in Hm.
  specialize (Hm _ Hin). cbn [get_col] in Hm. now rewrite E, cmp_true_null in Hm.
Qed.

(** * The table stays the table of the program *)

Lemma insert_row_last (r : row) (rs : list row) :
  (forall x, In x rs -> fst x < fst r) -> insert_row r rs = (rs ++ [r])%list.
Proof.
  induction rs as [|x rs IH]; intros H; [reflexivity|].
  cbn [insert_row app].
  assert (fst x < fst r) by (apply H; now left).
  destruct (Z.ltb_spec (fst r) (fst x)); [lia|].
  rewrite IH; [reflexivity|]. intros y Hy. apply H. now right.
Qed.

Lemma sorted_snoc (l : list Z) (z : Z) :
  StronglySorted Z.lt l -> (forall x, In x l -> x < z) ->
  StronglySorted Z.lt (l ++ [z]).
Proof.
  induction 1 as [|a l Hs IH Ha]; intros H; cbn [app].
  - repeat constructor.
  - constructor.
    + apply IH. intros x Hx. apply H. now right.
    + apply Forall_app. split; [assumption|]. constructor; [|constructor].
      apply H. now left.
Qed.

Lemma next_id_lower (t : table) :
  employees_table t -> min_int64 <= next_id t.
Proof.
  intros Hwf. unfold next_id, max_rowid.
  destruct (rows t) as [|r rs] eqn:E; [unfold min_int64; lia|].
  pose proof (et_rowids _ Hwf) as Hr. rewrite E in Hr.
  inversion Hr as [|? ? H0 _]; subst. cbn [in_int64] in H0.
  apply andb_prop in H0 as [H0 _]. apply Z.leb_le in H0.
  destruct (fold_max_ge (map fst rs) (fst r)) as [H1 _]. lia.
Qed.

Lemma next_id_int64 (t : table) :
  employees_table t -> next_id t <= max_int64 -> in_int64 (Integer (next_id t)) = true.
Proof.
  intros Hwf H. cbn [in_int64]. apply andb_true_iff. split; apply Z.leb_le.
  - now apply next_id_lower.
  - assumption.
Qed.

Lemma inserted_ok (t : table) (e : dict) :
  employees_table t -> next_id t <= max_int64 -> employees_table (inserted t e).
Proof.
  intros Hwf Hroom.
  assert (Hrows : rows (inserted t e) = (rows t ++ [(next_id t, new_row t e)])%list).
  { cbn [inserted rows]. apply insert_row_last. intros x Hx. cbn [fst].
    now apply next_id_above. }
  constructor.
  - apply (et_pk _ Hwf).
  - apply (et_base _ Hwf).
  - apply (et_idents _ Hwf).
  - apply (et_distinct _ Hwf).
  - rewrite Hrows. apply Forall_app. split; [apply (et_width _ Hwf)|].
    constructor; [|constructor]. cbn [snd inserted cols]. unfold new_row.
    now rewrite length_map.
  - rewrite Hrows. apply Forall_app. split; [apply (et_rowids _ Hwf)|].
    constructor; [|constructor]. cbn [fst]. now apply next_id_int64.
  - rewrite Hrows, map_app. cbn [map fst]. apply sorted_snoc; [apply (et_sorted _ Hwf)|].
    intros x Hx. apply in_map_iff in Hx as (r & <- & Hr). now apply next_id_above.
Qed.

Lemma sorted_filter (p : row -> bool) (rs : list row) :
  StronglySorted Z.lt (map fst rs) -> StronglySorted Z.lt (map fst (filter p rs)).
Proof.
  induction rs as [|r rs IH]; intros H; [constructor|].
  cbn [map] in H. inversion H as [|? ? Hs Hall]; subst.
  cbn [filter]. destruct (p r); [|now apply IH].
  cbn [map]. constructor; [now apply IH|].
  rewrite Forall_forall in *. intros z Hz.
  apply in_map_iff in Hz as (x & <- & Hx). apply filter_In in Hx as [Hx _].
  apply Hall. now apply in_map.
Qed.

Lemma forall_filter {A} (P : A -> Prop) (p : A -> bool) (l : list A) :
  Forall P l -> Forall P (filter p l).
Proof.
  intros H. rewrite Forall_forall in *. intros x Hx.
  apply filter_In in Hx as [Hx _]. now apply H.
Qed.

Lemma deleted_ok (t : table) (c : list (colref * cmp * value)) :
  employees_table t -> employees_table (run_delete t c).
Proof.
  intros Hwf. constructor; cbn [run_delete pkname cols rows].
  - apply (et_pk _ Hwf).
  - apply (et_base _ Hwf).
  - apply (et_idents _ Hwf).
  - apply (et_distinct _ Hwf).
  - apply forall_filter, (et_width _ Hwf).
  - apply forall_filter, (et_rowids _ Hwf).
  - apply sorted_filter, (et_sorted _ Hwf).
Qed.

Lemma distinct_names_snoc (ns : list string) (n : string) :
  distinct_names ns = true -> existsb (fun m => ieq m n) ns = false ->
  distinct_names (ns ++ [n]) = true.
Proof.
  induction ns as [|m ns IH]; intros Hd Hn; [reflexivity|].
  cbn [app distinct_names]. cbn [distinct_names] in Hd. cbn [existsb] in Hn.
  apply andb_prop in Hd as [H1 H2]. apply orb_false_elim in Hn as [Hm Hn].
  rewrite existsb_app. cbn [existsb]. apply negb_true_iff in H1.
  rewrite H1, Hm. cbn. now apply IH.
Qed.

(** A new column with a plain name that no column has keeps the table in
    shape. *)
Lemma with_column_ok (t : table) (d : coldef) :
  employees_table t -> is_ident (dname d) = true -> has_column t (dname d) = false ->
  employees_table (with_column t d).
Proof.
  intros Hwf Hid Hcol. unfold has_column in Hcol.
  apply orb_false_elim in Hcol as [Hpk Hcols].
  constructor; cbn [with_column pkname cols rows].
  - apply (et_pk _ Hwf).
  - destruct (et_base _ Hwf) as [extra E]. exists (extra ++ [column_of d])%list.
    now rewrite E, app_assoc.
  - apply Forall_app. split; [apply (et_idents _ Hwf)|]. now repeat constructor.
  - rewrite map_app. cbn [map column_of cname].
    change (pkname t :: (map cname (cols t) ++ [dname d])%list)
      with ((pkname t :: map cname (cols t)) ++ [dname d])%list.
    apply distinct_names_snoc; [apply (et_distinct _ Hwf)|].
    cbn [existsb]. rewrite Hpk. cbn [orb].
    clear - Hcols. induction (cols t) as [|c cs IH]; [reflexivity|].
    cbn [map existsb] in *. apply orb_false_elim in Hcols as [H1 H2].
    now rewrite H1, (IH H2).
  - pose proof (et_width _ Hwf) as Hw. rewrite Forall_forall in *.
    intros r Hr. apply in_map_iff in Hr as (x & <- & Hx). cbn [snd].
    rewrite !length_app, (Hw x Hx). reflexivity.
  - pose proof (et_rowids _ Hwf) as Hw. rewrite Forall_forall in *.
    intros r Hr. apply in_map_iff in Hr as (x & <- & Hx). cbn [fst]. now apply Hw.
  - rewrite map_map. cbn [fst]. apply (et_sorted _ Hwf).
Qed.

(** * The calls keep the table of the program *)

(** [add_extra_columns] of a name the model reads keeps the table in
    shape, whether the name is accepted or rejected. *)
Lemma add_extra_columns_keeps_table (conn conn' : connection) (t : table) (c : string) :
  view conn = Some t -> employees_table t -> modelled_name c ->
  add_extra_columns conn [c] = Return tt conn' ->
  exists t', view conn' = Some t' /\ employees_table t'.
Proof.
  intros Hv Hwf Hm. unfold modelled_name in Hm.
  destruct (name_words c) as [ws|] eqn:Ew; [|congruence].
  unfold add_extra_columns. cbn [add_each].
  rewrite (execute_alter _ _ _ _ Hv Ew), run_alter_cases.
  destruct (has_column t (dname (added_column ws))) eqn:Hcol; [discriminate|].
  destruct (max_columns <=? column_count t)%nat; [discriminate|].
  cbn [orb bind]. unfold commit. rewrite view_set_view. intros H. injection H as <-.
  exists (with_column t (added_column ws)). split; [reflexivity|].
  apply with_column_ok; [assumption| |assumption].
  unfold name_words in Ew. destruct (tokenize c) as [ts|]; [|discriminate].
  cbn [obind_opt] in Ew. apply words_of_spec in Ew as [_ Hid].
  unfold added_column. cbn [dname]. destruct ws as [|w ws]; [reflexivity|].
  now inversion Hid.
Qed.

(** [insert_employee] of a valid record keeps it. *)
Lemma insert_employee_keeps_table (conn : connection) (t : table) (e : dict) :
  view conn = Some t -> employees_table t -> valid_record t e ->
  next_id t <= max_int64 ->
  exists conn', insert_employee conn e = Return (Some (next_id t)) conn' /\
                view conn' = Some (inserted t e) /\ employees_table (inserted t e).
Proof.
  intros Hv Hwf Hvr Hroom. exists (open_db (inserted t e)).
  split; [|split; [reflexivity | now apply inserted_ok]].
  unfold insert_employee.
  assert (Hne : e <> []).
  { intros ->. pose proof (vr_keys _ _ Hvr) as Hp. apply Permutation_length in Hp.
    destruct (et_base _ Hwf) as [extra E]. unfold attributes in Hp.
    rewrite E in Hp. discriminate. }
  assert (Hin : incl (keys e) (attributes t)).
  { intros x Hx. eapply Permutation_in; [apply (vr_keys _ _ Hvr) | exact Hx]. }
  rewrite (execute_insert_ok _ Hwf _ _ Hv Hne Hin (vr_values _ _ Hvr) (vr_ints _ _ Hvr) Hroom).
  cbn [bind]. unfold commit. cbn [bind lastrowid]. now rewrite view_set_view_begin.
Qed.

(** [delete_employee] keeps it. *)
Lemma delete_employee_keeps_table (conn conn' : connection) (t : table) (id : Z) :
  view conn = Some t -> employees_table t -> in_int64 (Integer id) = true ->
  delete_employee conn (Integer id) = Return tt conn' ->
  exists t', view conn' = Some t' /\ employees_table t'.
Proof.
  intros Hv Hwf Hid. unfold delete_employee.
  rewrite (execute_delete _ _ _ Hv (et_pk _ Hwf) Hid). cbn [bind]. unfold commit.
  rewrite view_set_view_begin. intros H. injection H as <-.
  eexists. split; [reflexivity|].
  pose proof (deleted_ok t (by_id id) Hwf) as Hd. unfold run_delete in Hd.
  rewrite (filter_ext (fun r => negb (row_matches (by_id id) r))
                      (fun r => negb (fst r =? id))) in Hd.
  - exact Hd.
  - intros r. now rewrite row_matches_by_id.
Qed.

Lemma filter_filter_neg {A} (p : A -> bool) (l : list A) :
  filter p (filter (fun x => negb (p x)) l) = [].
Proof.
  induction l as [|x l IH]; [reflexivity|]. simpl.
  destruct (p x) eqn:E; simpl; [assumption|]. now rewrite E.
Qed.

Lemma filter_idem {A} (p : A -> bool) (l : list A) :
  filter p (filter p l) = filter p l.
Proof.
  induction l as [|x l IH]; [reflexivity|]. simpl.
  destruct (p x) eqn:E; simpl; [|assumption]. now rewrite E, IH.
Qed.

(** C7. After [delete_employee] on an identifier, [select_employee_by_id]
    on it finds no row, and a second [delete_employee] on it returns
    normally, leaving the connection as it was. *)
Theorem delete_then_absent (conn : connection) (t : table) (id : Z) :
  view conn = Some t -> employees_table t -> in_int64 (Integer id) = true ->
  exists conn1,
    delete_employee conn (Integer id) = Return tt conn1 /\
    select_employee_by_id conn1 (Integer id) = Return None conn1 /\
    delete_employee conn1 (Integer id) = Return tt conn1.
Proof.
  intros Hv Hwf Hid. pose proof (et_pk _ Hwf) as Hpk.
  set (t1 := {| pkname := pkname t; cols := cols t;
                rows := filter (fun r => negb (fst r =? id)) (rows t) |}).
  set (conn1 := {| committed := Some t1; pending := None |}).
  exists conn1.
  assert (H1 : delete_employee conn (Integer id) = Return tt conn1).
  { unfold delete_employee. rewrite (execute_delete _ _ _ Hv Hpk Hid).
    cbn [bind]. unfold commit. now autorewrite with conn. }
  split; [exact H1|]. split.
  - unfold select_employee_by_id.
    rewrite (execute_select_by_id conn1 t1 id eq_refl Hpk Hid). cbn [bind fetched].
    cbn [t1 rows]. now rewrite (filter_filter_neg (fun r => fst r =? id)).
  - unfold delete_employee.
    rewrite (execute_delete conn1 t1 id eq_refl Hpk Hid). cbn [bind].
    unfold commit. rewrite view_set_view_begin. cbn [t1 rows pkname cols].
    now rewrite (filter_idem (fun r => negb (fst r =? id))).
Qed.

Ltac table_ok :=
  constructor;
  [ reflexivity
  | eexists; reflexivity
  | repeat constructor
  | reflexivity
  | repeat constructor
  | repeat constructor
  | repeat constructor; cbn; lia ].

Lemma employees0_ok : employees_table employees0.
Proof. table_ok. Qed.

Lemma employees2_ok : employees_table employees2.
Proof. table_ok. Qed.

Lemma employees_null_ok : employees_table employees_null.
Proof. table_ok. Qed.

Lemma employees_plus_nickname_ok : employees_table (employees_plus "nickname").
Proof. table_ok. Qed.

(** [create_table] on a new database. *)
Example create_table_new :
  create_table create_connection = Return tt (open_db employees0).
Proof. reflexivity. Qed.

(** [create_table] again changes nothing. *)
Example create_table_again :
  create_table (open_db employees2) = Return tt (open_db employees2).
Proof. reflexivity. Qed.

(** The scenario of the specification. *)
Example scenario_insert_ana :
  insert_employee (open_db employees0) ana
  = Return (Some 1) (open_db {| pkname := "id"; cols := base_cols; rows := [(1, ana_row)] |}).
Proof. reflexivity. Qed.

Example scenario_insert_bo :
  insert_employee (open_db {| pkname := "id"; cols := base_cols; rows := [(1, ana_row)] |}) bo
  = Return (Some 2) (open_db employees2).
Proof. reflexivity. Qed.

Example scenario_filter_department :
  select_employees_filtered (open_db employees2) (Text "Eng") Null Null
  = Return [Integer 1 :: ana_row] (open_db employees2).
Proof. reflexivity. Qed.

Example scenario_update_then_filter :
  exists conn,
    update_employee (open_db employees2)
      [("name", Text "Bo"); ("department", Text "Sales"); ("salary", Integer 90000)]
      (Integer 2) = Return tt conn /\
    select_employees_filtered conn Null (Integer 80000) Null
    = Return [[Integer 2; Text "Bo"; Text "Sales"; Real (inject_Z 90000)]] conn.
Proof. eexists. split; reflexivity. Qed.

(** * C1: names are spliced into ALTER TABLE unvalidated *)

Lemma add_extra_columns_raised (conn conn' : connection) (columns : list string) (e : error) :
  add_each conn columns = Raised e conn' ->
  add_extra_columns conn columns = Raised e conn'.
Proof. unfold add_extra_columns. now intros ->. Qed.

(** C1, as stated, fails: a name with a blank in it, which is no
    identifier, is not rejected.  The call returns, and the table has a new
    column named by the first word. *)
Lemma unsafe_name_accepted :
  exists conn',
    add_extra_columns (open_db employees0) ["bonus pay"] = Return tt conn' /\
    get_columns conn'
    = Return [Text "name"; Text "department"; Text "salary"; Text "bonus"] conn'.
Proof. eexists. split; reflexivity. Qed.

(** C1 (amended).  [add_extra_columns] checks no name itself; each name goes
    into the statement as it is, and the call fails exactly as the engine
    rejects a statement.  For names made of name words and blanks: a batch
    fails with [OperationalError] when the column one of its names stands
    for (its first word) is [id] or an existing column, case ignored; a
    name whose column is new is accepted, blanks or not, its first word
    becoming the column and the other words its declared type; and no name
    is accepted once the table has its 2000 columns. *)
Theorem add_columns_unvalidated (conn : connection) (t : table) :
  view conn = Some t ->
  (forall columns c n,
      Forall modelled_name columns -> In c columns ->
      column_named c = Some n -> has_column t n = true ->
      exists conn', add_extra_columns conn columns = Raised OperationalError conn')
  /\
  (forall c ws,
      name_words c = Some ws ->
      has_column t (dname (added_column ws)) = false ->
      (column_count t < max_columns)%nat ->
      add_extra_columns conn [c]
      = Return tt (open_db (with_column t (added_column ws))))
  /\
  (forall c ws,
      name_words c = Some ws ->
      (max_columns <= column_count t)%nat ->
      add_extra_columns conn [c] = Raised OperationalError conn).
Proof.
  intros Hv. split; [|split].
  - intros columns c n Hm Hc Hn Hcol.
    destruct (in_split _ _ Hc) as (pre & post & ->).
    apply Forall_app in Hm as [Hpre _].
    destruct (add_each_collision_at pre c n post Hpre Hn conn t Hv Hcol)
      as (conn' & t' & H & _).
    exists conn'. now apply add_extra_columns_raised.
  - intros c ws Hw Hcol Hlen. unfold add_extra_columns. cbn [add_each].
    rewrite (execute_alter _ _ _ _ Hv Hw), run_alter_cases, Hcol.
    destruct (Nat.leb_spec max_columns (column_count t)); [lia|].
    cbn [orb bind]. unfold commit. now rewrite view_set_view.
  - intros c ws Hw Hlen. apply add_extra_columns_raised. cbn [add_each].
    rewrite (execute_alter _ _ _ _ Hv Hw), run_alter_cases.
    destruct (Nat.leb_spec max_columns (column_count t)); [|lia].
    now rewrite orb_true_r.
Qed.

(** C1 (amended), at work: a batch with [ID] in it is rejected, and the
    name [bonus pay] is accepted as the column [bonus]. *)
Lemma add_columns_unvalidated_witness :
  (exists conn',
      add_extra_columns (open_db employees0) ["nickname"; "ID"; "level"]
      = Raised OperationalError conn')
  /\ add_extra_columns (open_db employees0) ["bonus pay"]
     = Return tt (open_db (with_column employees0 (added_column ["bonus"; "pay"]))).
Proof.
  destruct (add_columns_unvalidated (open_db employees0) employees0 eq_refl)
    as (H1 & H2 & _).
  split.
  - apply (H1 ["nickname"; "ID"; "level"] "ID" "ID").
    + repeat constructor; discriminate.
    + right. now left.
    + reflexivity.
    + reflexivity.
  - apply (H2 "bonus pay" ["bonus"; "pay"]).
    + reflexivity.
    + reflexivity.
    + unfold column_count, max_columns. cbn. lia.
Defined.

(** * C2: adding an attribute that exists *)






(** * C3: insert and the key set *)

(** C3, as stated, fails: after [add_extra_columns] of [nickname], a record
    without [nickname] is inserted. *)
Lemma insert_without_nickname :
  exists conn0 conn1,
    add_extra_columns (open_db employees0) ["nickname"] = Return tt conn0 /\
    insert_employee conn0 ana = Return (Some 1) conn1 /\
    select_employee_by_id conn1 (Integer 1)
    = Return (Some [Integer 1; Text "Ana"; Text "Eng"; Real (inject_Z 70000); Null]) conn1.
Proof. eexists. eexists. repeat split; reflexivity. Qed.

Lemma insert_employee_execute (conn : connection) (e : dict) :
  insert_employee conn e
  = match execute conn (insert_sql (keys e)) (values e) with
    | Return cur c => Return (lastrowid cur) {| committed := view c; pending := None |}
    | Raised err c => Raised err c
    | NoModel => NoModel
    end.
Proof.
  unfold insert_employee.
  now destruct (execute conn (insert_sql (keys e)) (values e)).
Qed.

(** C3 (amended).  [insert_employee] does not compare the key set with the
    schema.  For a record whose keys are plain names it fails, before any
    write, when a key is no column of the table, and, the keys being
    attributes and the values of their types, when a NOT NULL attribute
    ([name], [department]) is left out or is None.  A record that leaves out
    only nullable attributes is inserted, NULL standing for what it leaves
    out. *)
Theorem insert_checks_no_key_set (conn : connection) (t : table) (e : dict) :
  view conn = Some t -> employees_table t -> e <> [] ->
  (forall k,
      idents (keys e) -> In k (keys e) ->
      has_column t k = false -> is_rowid_alias k = false ->
      insert_employee conn e = Raised OperationalError conn)
  /\
  (forall c,
      incl (keys e) (attributes t) ->
      forallb (fun c => storable (caff c) (field e c)) (cols t) = true ->
      forallb in_int64 (values e) = true ->
      In c (cols t) -> cnotnull c = true -> is_null (field e c) = true ->
      exists conn',
        insert_employee conn e = Raised IntegrityError conn' /\
        view conn' = view conn /\ committed conn' = committed conn)
  /\
  (incl (keys e) (attributes t) ->
   forallb (accepts e) (cols t) = true ->
   forallb in_int64 (values e) = true ->
   next_id t <= max_int64 ->
   insert_employee conn e = Return (Some (next_id t)) (open_db (inserted t e)) /\
   forall c, In c (cols t) -> lookup (cname c) e = None ->
             In (next_id t, new_row t e) (rows (inserted t e)) /\
             stored (caff c) (field e c) = Null).
Proof.
  intros Hv Hwf Hne. split; [|split].
  - intros k Hid Hk Hcol Ha. rewrite insert_employee_execute.
    now rewrite (execute_insert_unknown_key _ _ _ _ Hv Hne Hid Hk Hcol Ha).
  - intros c Hin Hst Hints Hc Hnn Hnull. exists (begin conn).
    rewrite insert_employee_execute.
    rewrite (execute_insert_not_null _ Hwf _ _ _ Hv Hne Hin Hst Hints Hc Hnn Hnull).
    split; [reflexivity|]. split; [apply view_begin | apply committed_begin].
  - intros Hin Hacc Hints Hroom. split.
    + rewrite insert_employee_execute.
      rewrite (execute_insert_ok _ Hwf _ _ Hv Hne Hin Hacc Hints Hroom).
      cbn [lastrowid]. now autorewrite with conn.
    + intros c Hc Hnone. split.
      * cbn [inserted rows]. rewrite insert_row_last.
        -- apply in_or_app. right. now left.
        -- intros x Hx. now apply next_id_above.
      * unfold field. rewrite Hnone. now destruct (caff c).
Qed.

(** C3 (amended), at work, on the table with the attribute [nickname]: a
    record with the unknown key [age], a record without [department], and
    a record without [nickname]. *)
Lemma insert_checks_no_key_set_witness :
  insert_employee (open_db (employees_plus "nickname"))
    [("name", Text "Ana"); ("age", Integer 30)]
  = Raised OperationalError (open_db (employees_plus "nickname"))
  /\ (exists conn',
         insert_employee (open_db (employees_plus "nickname")) [("name", Text "Ana")]
         = Raised IntegrityError conn' /\
         view conn' = view (open_db (employees_plus "nickname")) /\
         committed conn' = committed (open_db (employees_plus "nickname")))
  /\ insert_employee (open_db (employees_plus "nickname")) ana
     = Return (Some 1) (open_db (inserted (employees_plus "nickname") ana)).
Proof.
  split; [|split].
  - refine (proj1 (insert_checks_no_key_set (open_db (employees_plus "nickname"))
                     (employees_plus "nickname")
                     [("name", Text "Ana"); ("age", Integer 30)] eq_refl _ _) "age" _ _ _ _).
    + table_ok.
    + discriminate.
    + repeat constructor.
    + right. now left.
    + reflexivity.
    + reflexivity.
  - refine (proj1 (proj2 (insert_checks_no_key_set (open_db (employees_plus "nickname"))
                     (employees_plus "nickname")
                     [("name", Text "Ana")] eq_refl _ _))
                  {| cname := "department"; caff := AffText; cnotnull := true |}
                  _ _ _ _ _ _).
    + table_ok.
    + discriminate.
    + intros x [<-|[]]. now left.
    + reflexivity.
    + reflexivity.
    + right. now left.
    + reflexivity.
    + reflexivity.
  - refine (proj1 (proj2 (proj2 (insert_checks_no_key_set (open_db (employees_plus "nickname"))
                     (employees_plus "nickname") ana eq_refl _ _)) _ _ _ _)).
    + table_ok.
    + discriminate.
    + intros x Hx. cbn in *. tauto.
    + reflexivity.
    + reflexivity.
    + cbn. unfold max_int64. lia.
Defined.

(** * C4: the filtered query *)

Lemma select_all_rows (conn : connection) (t : table) :
  view conn = Some t ->
  select_all_employees conn = Return (map output_row (rows t)) conn.
Proof.
  intros Hv. unfold select_all_employees. now rewrite (execute_select_all _ _ Hv).
Qed.

(** C4, as stated, fails: with a maximum salary of 0 supplied, the records
    of [select_all_employees] that satisfy the bound are none, and the
    program returns all of them. *)
Lemma zero_bound_not_applied :
  select_all_employees (open_db employees2)
  = Return [Integer 1 :: ana_row; Integer 2 :: bo_row] (open_db employees2)
  /\ select_employees_filtered (open_db employees2)
       (arg_str None) (arg_num None) (arg_num (Some (NInt 0)))
     = Return [Integer 1 :: ana_row; Integer 2 :: bo_row] (open_db employees2)
  /\ queryFiltered_spec [Integer 1 :: ana_row; Integer 2 :: bo_row]
       None None (Some (NInt 0)) = [].
Proof. repeat split; reflexivity. Qed.

(** C4 (amended).  On a store whose salaries are numbers or NULL,
    [select_employees_filtered] returns exactly the records of
    [select_all_employees], in their order, that satisfy the predicates of
    its truthy arguments, all of them together; an argument that is absent
    or falsy (the empty string, zero) restricts nothing.  Department is
    compared by string equality and the bounds are inclusive: with 50000 and
    80000 the result is the records whose salary lies in between.  On an
    empty store the result is the empty list. *)
Theorem filtered_is_filter_of_all (conn : connection) (t : table)
        (d : option string) (lo hi : option number) :
  view conn = Some t -> employees_table t -> salaries_numeric t ->
  number_ok lo -> number_ok hi ->
  exists all,
    select_all_employees conn = Return all conn /\
    select_employees_filtered conn (arg_str d) (arg_num lo) (arg_num hi)
    = Return (queryFiltered_spec all (supplied_str d) (supplied_num lo) (supplied_num hi))
             conn /\
    select_employees_filtered conn Null (Integer 50000) (Integer 80000)
    = Return (filter (fun r => salary_at_least (NInt 50000) r
                               && salary_at_most (NInt 80000) r) all) conn /\
    (rows t = [] ->
     select_employees_filtered conn (arg_str d) (arg_num lo) (arg_num hi) = Return [] conn).
Proof.
  intros Hv Hwf Hs Hlo Hhi. exists (map output_row (rows t)).
  split; [now apply select_all_rows|].
  pose proof (select_filtered_spec conn t d lo hi Hv Hwf Hs Hlo Hhi) as H.
  split; [exact H|]. split.
  - apply (select_filtered_spec conn t None (Some (NInt 50000)) (Some (NInt 80000))
             Hv Hwf Hs); reflexivity.
  - intros E. rewrite H, E. reflexivity.
Qed.

(** Why the salaries are to be numbers: text stored as a salary sorts
    above every number, and so passes any lower bound. *)
Example text_salary_passes_lower_bound :
  insert_employee (open_db employees0)
    [("name", Text "Ana"); ("department", Text "Eng"); ("salary", Text "n/a")]
  = Return (Some 1) (open_db employees_text)
  /\ select_employees_filtered (open_db employees_text) Null (Integer 50000) Null
     = Return [[Integer 1; Text "Ana"; Text "Eng"; Text "n/a"]] (open_db employees_text).
Proof. split; reflexivity. Qed.

(** C4 (amended), at work: department Eng, minimum 50000. *)
Lemma filtered_is_filter_of_all_witness :
  exists all,
    select_all_employees (open_db employees2) = Return all (open_db employees2) /\
    select_employees_filtered (open_db employees2)
      (arg_str (Some "Eng")) (arg_num (Some (NInt 50000))) (arg_num None)
    = Return (queryFiltered_spec all (supplied_str (Some "Eng"))
                (supplied_num (Some (NInt 50000))) (supplied_num None))
             (open_db employees2).
Proof.
  destruct (filtered_is_filter_of_all (open_db employees2) employees2
              (Some "Eng") (Some (NInt 50000)) None) as (all & H1 & H2 & _).
  - reflexivity.
  - table_ok.
  - repeat constructor.
  - reflexivity.
  - exact I.
  - exists all. now split.
Defined.

(** * C5: insert, then read back *)






(** * C6: update of an identifier that is not stored *)

(** C6, as stated, fails: on an empty store, [update_employee] of
    identifier 2 returns without an error. *)
Lemma update_absent_no_error :
  update_employee (open_db employees0) bo (Integer 2) = Return tt (open_db employees0).
Proof. reflexivity. Qed.

(** C6 (amended).  When no stored record has the identifier,
    [update_employee] with a record whose keys are attributes does not fail:
    it returns, and the store is as it was.  (That the identifier is not
    found is reported by the caller, which looks the record up first.) *)
Theorem update_absent_returns (conn : connection) (t : table) (e : dict) (id : Z) :
  view conn = Some t -> employees_table t ->
  e <> [] -> incl (keys e) (attributes t) ->
  forallb in_int64 (values e) = true -> in_int64 (Integer id) = true ->
  (forall r, In r (rows t) -> fst r <> id) ->
  update_employee conn e (Integer id) = Return tt (open_db t).
Proof.
  intros Hv Hwf Hne Hin Hints Hid Hno. unfold update_employee.
  rewrite (execute_update_absent _ _ _ _ Hv Hwf Hne Hin Hints Hid Hno).
  cbn [bind]. unfold commit. now autorewrite with conn.
Qed.

(** C6 (amended), at work: identifier 7 on a store of two. *)
Lemma update_absent_returns_witness :
  update_employee (open_db employees2) [("salary", Integer 90000)] (Integer 7)
  = Return tt (open_db employees2).
Proof.
  apply update_absent_returns.
  - reflexivity.
  - table_ok.
  - discriminate.
  - intros x [<-|[]]. cbn. tauto.
  - reflexivity.
  - reflexivity.
  - intros r [<-|[<-|[]]]; discriminate.
Defined.

(** C7, at work: identifier 1 on a store of two. *)
Lemma delete_then_absent_witness :
  exists conn1,
    delete_employee (open_db employees2) (Integer 1) = Return tt conn1 /\
    select_employee_by_id conn1 (Integer 1) = Return None conn1 /\
    delete_employee conn1 (Integer 1) = Return tt conn1.
Proof.
  apply (delete_then_absent (open_db employees2) employees2 1).
  - reflexivity.
  - table_ok.
  - reflexivity.
Defined.

(** * C8: failing as a whole *)

(** C8, as stated, fails: a batch whose second name is rejected has added
    its first. *)
Lemma batch_partially_applied :
  exists conn',
    add_extra_columns (open_db employees0) ["bonus"; "name"]
    = Raised OperationalError conn' /\
    get_columns (open_db employees0)
    = Return [Text "name"; Text "department"; Text "salary"] (open_db employees0) /\
    get_columns conn'
    = Return [Text "name"; Text "department"; Text "salary"; Text "bonus"] conn' /\
    committed conn' = Some (employees_plus "bonus").
Proof. eexists. repeat split; reflexivity. Qed.

Lemma dml_raised (conn conn' : connection) (sql : string) (ps : list value)
      (e : error) (A : Type) (k : cursor -> connection -> result A) :
  (forall cur c e' c', k cur c <> Raised e' c') ->
  bind (execute conn sql ps) k = Raised e conn' ->
  view conn' = view conn /\ committed conn' = committed conn.
Proof.
  intros Hk. destruct (execute conn sql ps) as [cur c|e' c|] eqn:E; cbn [bind].
  - intros H. now destruct (Hk _ _ _ _ H).
  - intros H. injection H as -> ->. eapply execute_raised; eassumption.
  - discriminate.
Qed.

(** Whether a statement of [add_extra_columns] is rejected depends on what
    the connection sees only. *)
Lemma execute_alter_by_view (c1 c2 c1' : connection) (x : string) (e : error) :
  view c2 = view c1 ->
  execute c1 (alter_sql x) [] = Raised e c1' ->
  execute c2 (alter_sql x) [] = Raised e c2.
Proof.
  intros Hv. unfold execute. rewrite Hv.
  destruct (parse_sql (alter_sql x)) as [s|] eqn:Hp; [|discriminate].
  destruct (parse_alter_sql_shape _ _ Hp) as [d ->].
  destruct (view c1) as [t|] eqn:E1; cbn [prepare is_dml].
  - rewrite Hv, E1. destruct (obind _ _) as [[db cur]| |]; try discriminate.
    intros H. now injection H as ->.
  - intros H. now injection H as ->.
Qed.

(** C8 (amended).  [insert_employee], [update_employee] and
    [delete_employee] fail as a whole: when one of them raises, what the
    connection sees and what is committed are as before the call.
    [add_extra_columns] applies its names one statement at a time: when the
    names [pre] are accepted and the name after them is rejected, the call
    raises with the columns of [pre] added and the names after the rejected
    one not reached.  A call of any of the four that returns has committed:
    nothing is pending, and what is committed is what the connection
    sees. *)
Theorem mutations_fail_as_a_whole :
  (forall conn e err conn',
      insert_employee conn e = Raised err conn' ->
      view conn' = view conn /\ committed conn' = committed conn)
  /\
  (forall conn e id err conn',
      update_employee conn e id = Raised err conn' ->
      view conn' = view conn /\ committed conn' = committed conn)
  /\
  (forall conn id err conn',
      delete_employee conn id = Raised err conn' ->
      view conn' = view conn /\ committed conn' = committed conn)
  /\
  (forall conn pre c post conn1 err conn2,
      add_extra_columns conn pre = Return tt conn1 ->
      add_extra_columns conn1 [c] = Raised err conn2 ->
      exists conn',
        add_extra_columns conn (pre ++ c :: post)%list = Raised err conn' /\
        view conn' = view conn1)
  /\
  (forall conn conn',
      ((exists e r, insert_employee conn e = Return r conn') \/
       (exists e id, update_employee conn e id = Return tt conn') \/
       (exists id, delete_employee conn id = Return tt conn') \/
       (exists columns, add_extra_columns conn columns = Return tt conn')) ->
      pending conn' = None /\ committed conn' = view conn').
Proof.
  split; [|split; [|split; [|split]]].
  - intros conn e err conn'. unfold insert_employee. apply dml_raised.
    intros cur c e' c'. discriminate.
  - intros conn e id err conn'. unfold update_employee. apply dml_raised.
    intros cur c e' c'. discriminate.
  - intros conn id err conn'. unfold delete_employee. apply dml_raised.
    intros cur c e' c'. discriminate.
  - intros conn pre c post conn1 err conn2 Hpre Hc.
    unfold add_extra_columns in Hpre.
    destruct (add_each conn pre) as [[] c1| |] eqn:Epre; try discriminate.
    cbn [bind] in Hpre. unfold commit in Hpre. injection Hpre as <-.
    unfold add_extra_columns in Hc. cbn [add_each] in Hc.
    destruct (execute _ (alter_sql c) []) as [cur c3|e3 c3|] eqn:Ec; try discriminate.
    cbn [bind] in Hc. injection Hc as -> ->.
    exists c1. split; [|reflexivity].
    apply add_extra_columns_raised.
    apply (add_each_split pre c post conn c1 c1 err Epre).
    eapply execute_alter_by_view; [|exact Ec]. reflexivity.
  - intros conn conn' [(e & r & H)|[(e & id & H)|[(id & H)|(columns & H)]]].
    + unfold insert_employee in H.
      destruct (execute conn _ _) as [cur c| |]; try discriminate.
      cbn in H. injection H as _ <-. now split.
    + unfold update_employee in H.
      destruct (execute conn _ _) as [cur c| |]; try discriminate.
      cbn in H. injection H as <-. now split.
    + unfold delete_employee in H.
      destruct (execute conn _ _) as [cur c| |]; try discriminate.
      cbn in H. injection H as <-. now split.
    + unfold add_extra_columns in H.
      destruct (add_each conn columns) as [[] c| |]; try discriminate.
      cbn in H. injection H as <-. now split.
Qed.

(** C8 (amended), at work: an insertion refused for a None [name], and a
    batch of three names whose second is rejected. *)
Lemma mutations_fail_as_a_whole_witness :
  (view (begin (open_db employees2)) = view (open_db employees2) /\
   committed (begin (open_db employees2)) = committed (open_db employees2))
  /\ exists conn',
      add_extra_columns (open_db employees0) ["bonus"; "name"; "level"]
      = Raised OperationalError conn' /\
      view conn' = view (open_db (employees_plus "bonus")).
Proof.
  split.
  - apply (proj1 mutations_fail_as_a_whole (open_db employees2)
             [("name", Null); ("department", Text "Eng")] IntegrityError).
    reflexivity.
  - apply (proj1 (proj2 (proj2 (proj2 mutations_fail_as_a_whole)))
             (open_db employees0) ["bonus"] "name" ["level"]
             (open_db (employees_plus "bonus")) OperationalError
             (open_db (employees_plus "bonus"))).
    + reflexivity.
    + reflexivity.
Defined.

(** * C9: a falsy filter argument counts as absent *)

Lemma select_filtered_none (conn : connection) :
  select_employees_filtered conn Null Null Null = select_all_employees conn.
Proof.
  unfold select_employees_filtered, select_all_employees. cbn [truthy].
  unfold execute.
  change (parse_sql "SELECT * FROM employees WHERE 1=1") with (Some (SSelect [ATrue])).
  rewrite parse_select_all_sql.
  destruct (view conn) as [t|] eqn:Hv; [|reflexivity].
  cbn. rewrite Hv. reflexivity.
Qed.

(** C9.  [select_employees_filtered] takes a falsy argument (None, the
    empty string, zero) as absent: the call is the call with None in its
    place.  With a maximum salary of 0 and nothing else it returns what
    [select_all_employees] returns. *)
Theorem falsy_filter_is_absent (conn : connection) (d lo hi : value) :
  select_employees_filtered conn d lo hi
  = select_employees_filtered conn
      (if truthy d then d else Null)
      (if truthy lo then lo else Null)
      (if truthy hi then hi else Null)
  /\ select_employees_filtered conn (Text EmptyString) lo hi
     = select_employees_filtered conn Null lo hi
  /\ select_employees_filtered conn d (Integer 0) hi
     = select_employees_filtered conn d Null hi
  /\ select_employees_filtered conn d lo (Integer 0)
     = select_employees_filtered conn d lo Null
  /\ select_employees_filtered conn d (Real 0) hi
     = select_employees_filtered conn d Null hi
  /\ select_employees_filtered conn d lo (Real 0)
     = select_employees_filtered conn d lo Null
  /\ select_employees_filtered conn Null Null (Integer 0)
     = select_all_employees conn.
Proof.
  repeat apply conj.
  - rewrite !select_employees_filtered_unfold. unfold filter_params.
    destruct (truthy d) eqn:Ed, (truthy lo) eqn:El, (truthy hi) eqn:Eh;
      cbn [truthy]; rewrite ?Ed, ?El, ?Eh; reflexivity.
  - rewrite !select_employees_filtered_unfold. reflexivity.
  - rewrite !select_employees_filtered_unfold. reflexivity.
  - rewrite !select_employees_filtered_unfold. reflexivity.
  - rewrite !select_employees_filtered_unfold. reflexivity.
  - rewrite !select_employees_filtered_unfold. reflexivity.
  - rewrite <- select_filtered_none. rewrite !select_employees_filtered_unfold. reflexivity.
Qed.

(** * C10: a NULL salary under a salary bound *)

(** C10, as stated, fails: with a minimum salary of 0 supplied and nothing
    else, the record whose salary is NULL is returned. *)
Lemma null_salary_returned_under_zero_bound :
  select_employees_filtered (open_db employees_null) Null (Integer 0) Null
  = Return [[Integer 1; Text "Ana"; Text "Eng"; Null]] (open_db employees_null).
Proof. reflexivity. Qed.

(** C10 (amended).  When the minimum or the maximum salary is truthy (a
    number other than zero), [select_employees_filtered] returns no record
    whose salary is NULL, whatever the other arguments: a stored record
    with a NULL salary is not among the result. *)
Theorem null_salary_never_matches (conn : connection) (t : table) (d lo hi : value) :
  view conn = Some t -> employees_table t ->
  str_arg d -> num_arg lo -> num_arg hi ->
  truthy lo = true \/ truthy hi = true ->
  exists rs,
    select_employees_filtered conn d lo hi = Return rs conn /\
    (forall r, In r rs -> salary_of r <> Null) /\
    (forall r, In r (rows t) -> nth 2 (snd r) Null = Null -> ~ In (output_row r) rs).
Proof.
  intros Hv Hwf Hd Hlo Hhi Hb.
  exists (run_select t (filter_conds d lo hi)).
  rewrite select_employees_filtered_unfold, (execute_filter _ _ _ _ _ Hv Hwf Hd Hlo Hhi).
  cbn [bind fetched]. split; [reflexivity|].
  destruct (filter_conds_bound d lo hi Hb) as (op & p & Hin).
  assert (Hrs : forall r, In r (run_select t (filter_conds d lo hi)) -> salary_of r <> Null).
  { intros r Hr. unfold run_select in Hr. apply in_map_iff in Hr as (x & <- & Hx).
    apply filter_In in Hx as [_ Hx]. unfold salary_of, output_row. cbn [nth].
    now apply (row_matches_salary _ _ _ _ Hin Hx). }
  split; [exact Hrs|].
  intros r _ Hnull Hr. apply (Hrs _ Hr). exact Hnull.
Qed.

(** C10 (amended), at work: minimum 50000 on the store whose one salary is
    NULL. *)
Lemma null_salary_never_matches_witness :
  exists rs,
    select_employees_filtered (open_db employees_null) (Text "Eng") (Integer 50000) Null
    = Return rs (open_db employees_null) /\
    ~ In [Integer 1; Text "Ana"; Text "Eng"; Null] rs.
Proof.
  destruct (null_salary_never_matches (open_db employees_null) employees_null
              (Text "Eng") (Integer 50000) Null) as (rs & H1 & _ & H3).
  - reflexivity.
  - table_ok.
  - exact I.
  - reflexivity.
  - exact I.
  - left. reflexivity.
  - exists rs. split; [exact H1|].
    apply (H3 (1, [Text "Ana"; Text "Eng"; Null])); [now left | reflexivity].
Defined.

(** * Rows that stay well formed *)

Lemma text_kept_affinity (a : affinity) (v v' : value) :
  apply_affinity a v = Ok v' -> text_kept a v' = true.
Proof.
  destruct a, v; cbn; intros H;
    repeat match type of H with
           | context [if ?b then _ else _] => destruct b
           end;
    try discriminate; injection H as <-; reflexivity.
Qed.

Lemma row_ok_length (cs : list column) (vs : list value) :
  row_ok cs vs = true -> List.length vs = List.length cs.
Proof.
  revert vs. induction cs as [|c cs IH]; intros [|v vs] H; try discriminate; [reflexivity|].
  cbn [row_ok] in H. apply andb_prop in H as [_ H]. cbn [List.length]. now rewrite (IH vs H).
Qed.

Lemma store_values_row_ok (cs : list column) (i : nat) (get : nat -> value)
      (vs : list value) :
  store_values cs i get = Ok vs -> not_null_ok cs vs = true -> row_ok cs vs = true.
Proof.
  revert i vs. induction cs as [|c cs IH]; intros i vs H Hn; cbn [store_values] in H.
  - now injection H as <-.
  - destruct (apply_affinity (caff c) (get i)) as [v| |] eqn:Ea; try discriminate.
    cbn [obind] in H.
    destruct (store_values cs (S i) get) as [vs'| |] eqn:Es; try discriminate.
    cbn [obind] in H. injection H as <-.
    cbn [not_null_ok] in Hn. apply andb_prop in Hn as [Hn1 Hn2].
    cbn [row_ok]. rewrite (text_kept_affinity _ _ _ Ea), (IH _ _ Es Hn2), andb_true_r.
    cbn [andb]. destruct v, (cnotnull c); cbn in *; congruence.
Qed.

Lemma update_values_row_ok (cs : list column) (i : nat) (old : list value)
      (set : nat -> option value) (vs : list value) :
  row_ok cs old = true ->
  update_values cs i old set = Ok vs -> not_null_ok cs vs = true -> row_ok cs vs = true.
Proof.
  revert i old vs. induction cs as [|c cs IH]; intros i old vs Ho H Hn;
    cbn [update_values] in H.
  - now injection H as <-.
  - destruct old as [|o old]; [discriminate|].
    cbn [row_ok] in Ho. apply andb_prop in Ho as [Ho1 Ho2].
    apply andb_prop in Ho1 as [Hk _].
    destruct (match set i with
              | Some p => apply_affinity (caff c) p
              | None => Ok (nth 0 (o :: old) Null)
              end) as [v| |] eqn:Ea; try discriminate.
    cbn [obind tl] in H.
    destruct (update_values cs (S i) old set) as [vs'| |] eqn:Es; try discriminate.
    cbn [obind] in H. injection H as <-.
    cbn [not_null_ok] in Hn. apply andb_prop in Hn as [Hn1 Hn2].
    cbn [row_ok]. rewrite (IH _ _ _ Ho2 Es Hn2), andb_true_r.
    assert (Hv : text_kept (caff c) v = true).
    { destruct (set i); [now apply (text_kept_affinity _ _ _ Ea)|].
      cbn [nth] in Ea. now injection Ea as <-. }
    rewrite Hv. cbn [andb]. destruct v, (cnotnull c); cbn in *; congruence.
Qed.

Lemma row_ok_snoc (cs : list column) (vs : list value) (c : column) :
  row_ok cs vs = true -> cnotnull c = false ->
  row_ok (cs ++ [c]) (vs ++ [Null]) = true.
Proof.
  revert vs. induction cs as [|x cs IH]; intros [|v vs] H Hc; try discriminate.
  - cbn. rewrite Hc. now destruct (caff c).
  - cbn [row_ok app] in *. apply andb_prop in H as [H1 H2].
    now rewrite H1, (IH vs H2 Hc).
Qed.

(** * Rows in rowid order, in general *)

Lemma insert_row_in (r x : row) (rs : list row) :
  In x (insert_row r rs) <-> x = r \/ In x rs.
Proof.
  induction rs as [|y rs IH]; cbn [insert_row].
  - cbn. intuition.
  - destruct (fst r <? fst y); cbn [In]; [intuition|]. rewrite IH. intuition.
Qed.

Lemma insert_row_sorted (r : row) (rs : list row) :
  StronglySorted Z.lt (map fst rs) -> has_rowid rs (fst r) = false ->
  StronglySorted Z.lt (map fst (insert_row r rs)).
Proof.
  induction rs as [|y rs IH]; intros Hs Hn; cbn [insert_row].
  - repeat constructor.
  - cbn [map] in Hs. inversion Hs as [|? ? Hs' Hall]; subst.
    cbn [has_rowid existsb] in Hn. apply orb_false_elim in Hn as [Hy Hn].
    apply Z.eqb_neq in Hy.
    destruct (Z.ltb_spec (fst r) (fst y)) as [Hlt|Hge].
    + cbn [map]. constructor; [assumption|].
      constructor; [assumption|].
      rewrite Forall_forall in *. intros z Hz. specialize (Hall z Hz). lia.
    + cbn [map]. constructor; [now apply IH|].
      rewrite Forall_forall in *. intros z Hz.
      apply in_map_iff in Hz as (x & <- & Hx). apply insert_row_in in Hx as [->|Hx].
      * lia.
      * apply Hall. now apply in_map.
Qed.

Lemma has_rowid_in (rs rs' : list row) (z : Z) :
  (forall x, In x rs' -> In x rs) -> has_rowid rs z = false -> has_rowid rs' z = false.
Proof.
  intros Hin H. apply has_rowid_false. intros x Hx.
  apply (proj1 (has_rowid_false rs z) H). now apply Hin.
Qed.

Lemma rebuild_in (rs : list row) (x : row) :
  In x (fold_right insert_row [] rs) <-> In x rs.
Proof.
  induction rs as [|r rs IH]; cbn [fold_right]; [tauto|].
  rewrite insert_row_in, IH. cbn [In]. intuition.
Qed.

Lemma rebuild_sorted (rs : list row) :
  distinct_rowids rs = true ->
  StronglySorted Z.lt (map fst (fold_right insert_row [] rs)).
Proof.
  induction rs as [|r rs IH]; intros H; cbn [fold_right]; [constructor|].
  cbn [distinct_rowids] in H. apply andb_prop in H as [H1 H2].
  apply negb_true_iff in H1.
  apply insert_row_sorted; [now apply IH|].
  apply (has_rowid_in rs); [|assumption]. intros x Hx. now apply rebuild_in.
Qed.

Lemma listed_rowid_in (refs : list colref) (ps : list value) (acc : option value)
      (v : value) :
  listed_rowid refs ps acc = Some v -> acc = Some v \/ In v ps.
Proof.
  revert ps acc. induction refs as [|r refs IH]; intros [|p ps] acc H;
    cbn [listed_rowid] in H; try (now left).
  - destruct r; now left.
  - destruct r; apply IH in H as [H|H]; try (right; now right); try (now left).
    injection H as <-. right. now left.
Qed.

Lemma assigned_in (refs : list colref) (ps : list value) (c : colref)
      (acc : option value) (v : value) :
  assigned refs ps c acc = Some v -> acc = Some v \/ In v ps.
Proof.
  revert ps acc. induction refs as [|r refs IH]; intros [|p ps] acc H;
    cbn [assigned] in H; try (now left).
  apply IH in H as [H|H]; [|right; now right].
  destruct r, c; try (now left).
  - injection H as <-. right. now left.
  - destruct (i =? i0)%nat; [|now left]. injection H as <-. right. now left.
Qed.

Lemma as_rowid_int64 (ps : list value) (v : value) (z : Z) :
  forallb in_int64 ps = true -> In v ps -> as_rowid v = Ok z ->
  in_int64 (Integer z) = true.
Proof.
  intros Hps Hin H. rewrite forallb_forall in Hps. specialize (Hps v Hin).
  destruct v; cbn in H; try discriminate.
  - now injection H as <-.
  - destruct (any_char is_digit s); discriminate.
Qed.

Lemma new_rowid_int64 (t : table) (z : Z) :
  employees_table t -> new_rowid (rows t) = Ok z -> in_int64 (Integer z) = true.
Proof.
  intros Hwf H. unfold new_rowid in H.
  pose proof (next_id_lower t Hwf) as Hlo. unfold next_id in Hlo.
  destruct (max_rowid (rows t)) as [m|].
  - destruct (Z.ltb_spec m max_int64); [|discriminate]. injection H as <-.
    cbn [in_int64]. apply andb_true_iff. split; apply Z.leb_le; lia.
  - injection H as <-. reflexivity.
Qed.

(** * The statements keep the table and its rows *)

Lemma run_insert_ok (t t' : table) (refs : list colref) (ps : list value) (id : Z) :
  sound_table t -> forallb in_int64 ps = true ->
  run_insert t refs ps = Ok (t', id) -> sound_table t'.
Proof.
  intros [Hwf Hrec] Hps H. unfold run_insert in H.
  destruct (store_values (cols t) 0 (listed_value refs ps)) as [vs| |] eqn:Es;
    try discriminate.
  cbn [obind] in H.
  destruct (not_null_ok (cols t) vs) eqn:En; [|discriminate]. cbn [negb] in H.
  pose proof (store_values_row_ok _ _ _ _ Es En) as Hrow.
  destruct (match listed_rowid refs ps None with
            | Some Null | None => new_rowid (rows t)
            | Some v => as_rowid v
            end) as [z| |] eqn:Ez; try discriminate.
  cbn [obind] in H.
  destruct (has_rowid (rows t) z) eqn:Eh; [discriminate|].
  injection H as <- <-.
  assert (Hz : in_int64 (Integer z) = true).
  { destruct (listed_rowid refs ps None) as [v|] eqn:El.
    - apply listed_rowid_in in El as [El|El]; [discriminate|].
      destruct v; try (now apply (as_rowid_int64 ps _ z Hps El)).
      now apply (new_rowid_int64 t).
    - now apply (new_rowid_int64 t). }
  split.
  - constructor; cbn [pkname cols rows].
    + apply (et_pk _ Hwf).
    + apply (et_base _ Hwf).
    + apply (et_idents _ Hwf).
    + apply (et_distinct _ Hwf).
    + pose proof (et_width _ Hwf) as Hw. rewrite Forall_forall in *.
      intros x Hx. apply insert_row_in in Hx as [->|Hx]; [|now apply Hw].
      cbn [snd]. now apply row_ok_length.
    + pose proof (et_rowids _ Hwf) as Hw. rewrite Forall_forall in *.
      intros x Hx. apply insert_row_in in Hx as [->|Hx]; [|now apply Hw].
      exact Hz.
    + apply insert_row_sorted; [apply (et_sorted _ Hwf)|exact Eh].
  - unfold records_ok in *. cbn [cols rows]. rewrite Forall_forall in *.
    intros x Hx. apply insert_row_in in Hx as [->|Hx]; [exact Hrow|now apply Hrec].
Qed.

Lemma omap_forall {A B} (f : A -> outcome B) (P : B -> Prop) (l : list A) (l' : list B) :
  omap f l = Ok l' ->
  (forall a b, In a l -> f a = Ok b -> P b) -> Forall P l'.
Proof.
  revert l'. induction l as [|a l IH]; intros l' H HP; cbn [omap] in H.
  - injection H as <-. constructor.
  - destruct (f a) as [b| |] eqn:Ea; try discriminate. cbn [obind] in H.
    destruct (omap f l) as [bs| |] eqn:Eo; try discriminate. cbn [obind] in H.
    injection H as <-. constructor.
    + apply (HP a); [now left|assumption].
    + apply IH; [reflexivity|]. intros x y Hx. apply HP. now right.
Qed.

Lemma update_row_ok (t : table) (refs : list colref) (ps : list value) (r r' : row) :
  employees_table t -> forallb in_int64 ps = true ->
  row_ok (cols t) (snd r) = true -> in_int64 (Integer (fst r)) = true ->
  update_row t refs ps r = Ok r' ->
  row_ok (cols t) (snd r') = true /\ in_int64 (Integer (fst r')) = true.
Proof.
  intros Hwf Hps Hrow Hid H. unfold update_row in H.
  destruct (update_values (cols t) 0 (snd r)
              (fun i => assigned refs ps (AttrRef i) None)) as [vs| |] eqn:Eu;
    try discriminate.
  cbn [obind] in H.
  destruct (not_null_ok (cols t) vs) eqn:En; [|discriminate]. cbn [negb] in H.
  destruct (match assigned refs ps RowidRef None with
            | Some v => as_rowid v
            | None => Ok (fst r)
            end) as [z| |] eqn:Ez; try discriminate.
  cbn [obind] in H. injection H as <-. cbn [fst snd]. split.
  - now apply (update_values_row_ok _ _ _ _ _ Hrow Eu).
  - destruct (assigned refs ps RowidRef None) as [v|] eqn:Ea.
    + apply assigned_in in Ea as [Ea|Ea]; [discriminate|].
      exact (as_rowid_int64 ps v z Hps Ea Ez).
    + injection Ez as <-. exact Hid.
Qed.

Lemma run_update_ok (t t' : table) (refs : list colref)
      (c : list (colref * cmp * value)) (ps : list value) :
  sound_table t -> forallb in_int64 ps = true ->
  run_update t refs c ps = Ok t' -> sound_table t'.
Proof.
  intros [Hwf Hrec] Hps H. unfold run_update in H.
  destruct (omap (fun r => if row_matches c r then update_row t refs ps r else Ok r)
                 (rows t)) as [rs| |] eqn:Eo; try discriminate.
  cbn [obind] in H.
  destruct (distinct_rowids rs) eqn:Ed; [|discriminate]. injection H as <-.
  assert (Hall : Forall (fun r => row_ok (cols t) (snd r) = true
                                  /\ in_int64 (Integer (fst r)) = true) rs).
  { apply (omap_forall _ _ _ _ Eo). intros a b Ha Hb.
    pose proof (et_rowids _ Hwf) as Hids. unfold records_ok in Hrec.
    rewrite Forall_forall in Hrec, Hids.
    destruct (row_matches c a).
    - apply (update_row_ok t refs ps a b); auto.
    - injection Hb as <-. auto. }
  rewrite Forall_forall in Hall.
  split.
  - constructor; cbn [pkname cols rows].
    + apply (et_pk _ Hwf).
    + apply (et_base _ Hwf).
    + apply (et_idents _ Hwf).
    + apply (et_distinct _ Hwf).
    + apply Forall_forall. intros x Hx. apply (proj1 (rebuild_in _ _)) in Hx.
      apply row_ok_length. apply (Hall x Hx).
    + apply Forall_forall. intros x Hx. apply (proj1 (rebuild_in _ _)) in Hx. apply (Hall x Hx).
    + now apply rebuild_sorted.
  - unfold records_ok. cbn [cols rows]. apply Forall_forall. intros x Hx.
    apply (proj1 (rebuild_in _ _)) in Hx. apply (Hall x Hx).
Qed.

Lemma run_delete_ok (t : table) (c : list (colref * cmp * value)) :
  sound_table t -> sound_table (run_delete t c).
Proof.
  intros [Hwf Hrec]. split; [now apply deleted_ok|].
  unfold records_ok in *. cbn [run_delete cols rows]. now apply forall_filter.
Qed.

Lemma run_alter_ok (t t' : table) (d : coldef) :
  sound_table t -> is_ident (dname d) = true -> dnotnull d = false ->
  run_alter t d = Ok t' -> sound_table t'.
Proof.
  intros [Hwf Hrec] Hid Hnn H. rewrite run_alter_cases in H.
  destruct (has_column t (dname d)) eqn:Eh; [discriminate|]. cbn [orb] in H.
  destruct (max_columns <=? column_count t)%nat; [discriminate|].
  injection H as <-. split; [now apply with_column_ok|].
  unfold records_ok in *. cbn [with_column cols rows].
  rewrite Forall_forall in *. intros x Hx.
  apply in_map_iff in Hx as (r & <- & Hr). cbn [snd].
  apply row_ok_snoc; [now apply Hrec|exact Hnn].
Qed.

Lemma in_firstn {A} (n : nat) (l : list A) (x : A) : In x (firstn n l) -> In x l.
Proof.
  revert l. induction n as [|n IH]; intros [|a l] H; cbn [firstn] in H; try contradiction.
  destruct H as [->|H]; [now left|right; now apply IH].
Qed.

Lemma step_ok (p : prepared) (ps : list value) (t : table) (db : database) (cur : cursor) :
  prepared_ok p -> sound_table t -> forallb in_int64 ps = true ->
  step p ps (Some t) = Ok (db, cur) -> sound_database db.
Proof.
  intros Hp Ht Hps H. destruct p; cbn [step] in H.
  - injection H as <- _. exact Ht.
  - destruct (run_insert t refs ps) as [[t' id]| |] eqn:E; try discriminate.
    cbn [obind fst] in H. injection H as <- _.
    now apply (run_insert_ok t t' refs ps id).
  - destruct (bind_cond t cond (skipn (List.length refs) ps)) as [c'| |]; try discriminate.
    cbn [obind] in H.
    destruct (run_update t refs c' (firstn (List.length refs) ps)) as [t'| |] eqn:E;
      try discriminate.
    cbn [obind] in H. injection H as <- _.
    apply (run_update_ok t t' refs c' (firstn (List.length refs) ps)); auto.
    rewrite forallb_forall in *. intros x Hx. apply Hps.
    now apply (in_firstn (List.length refs)).
  - destruct (bind_cond t cond ps) as [c'| |]; try discriminate.
    cbn [obind] in H. injection H as <- _. now apply run_delete_ok.
  - destruct (bind_cond t cond ps) as [c'| |]; try discriminate.
    cbn [obind] in H. injection H as <- _. exact Ht.
  - destruct (run_alter t def) as [t'| |] eqn:E; try discriminate.
    cbn [obind] in H. injection H as <- _. destruct Hp as [H1 H2].
    now apply (run_alter_ok t t' def).
  - injection H as <- _. exact Ht.
Qed.

(** * The statements of the program, whatever is spliced into them *)

Lemma alter_sql_statement (c : string) (s : stmt) :
  parse_sql (alter_sql c) = Some s -> statement_ok s.
Proof.
  unfold parse_sql. rewrite tokenize_alter_prefix.
  destruct (lex EmptyString (c ++ " TEXT")) as [ts|]; [|discriminate].
  cbn [option_map obind_opt]. rewrite parse_alter_prefix.
  destruct (parse_coldef (strip_semi ts)) as [d|] eqn:E; [|discriminate].
  destruct (dnotnull d || dpk d) eqn:Ed; [discriminate|].
  intros H. injection H as <-. cbn [statement_ok].
  apply orb_false_elim in Ed as [Ed _]. split; [|exact Ed].
  unfold parse_coldef in E. destruct (strip_semi ts) as [|[w| | | | | | | | |] r];
    try discriminate.
  destruct (is_ident w) eqn:Ew; [|discriminate].
  destruct (type_words r) as [ty r']. destruct (constraints r' false false) as [[nn pk]|];
    [|discriminate].
  injection E as <-. exact Ew.
Qed.

Lemma insert_sql_statement (ks : list string) (s : stmt) :
  parse_sql (insert_sql ks) = Some s -> statement_ok s.
Proof.
  unfold parse_sql, tokenize, insert_sql. lex_simpl.
  match goal with |- context [lex EmptyString ?x] => destruct (lex EmptyString x) as [ts|] end;
    [|discriminate].
  cbn [option_map obind_opt flush]. unfold parse.
  with_strategy opaque [parse_insert] simpl.
  destruct (parse_insert (TWord "employees" :: TLp :: ts)) as [s'|] eqn:E;
    [|discriminate].
  cbn [first_of]. intros H. injection H as <-.
  unfold parse_insert in E.
  repeat match type of E with
         | context [match ?x with _ => _ end] => destruct x; try discriminate
         end.
  injection E as <-. exact I.
Qed.

Lemma update_sql_statement (ks : list string) (s : stmt) :
  parse_sql (update_sql ks) = Some s -> statement_ok s.
Proof.
  unfold parse_sql, tokenize, update_sql. lex_simpl.
  match goal with |- context [lex EmptyString ?x] => destruct (lex EmptyString x) as [ts|] end;
    [|discriminate].
  cbn [option_map obind_opt flush]. unfold parse.
  with_strategy opaque [parse_update] simpl.
  destruct (parse_update (TWord "employees" :: TWord "SET" :: ts)) as [s'|] eqn:E;
    [|discriminate].
  cbn [first_of]. intros H. injection H as <-.
  unfold parse_update in E.
  repeat match type of E with
         | context [match ?x with _ => _ end] => destruct x; try discriminate
         end.
  unfold option_map in E.
  repeat match type of E with
         | context [match ?x with _ => _ end] => destruct x; try discriminate
         end.
  injection E as <-. exact I.
Qed.

(** * Every call keeps the store *)

Lemma prepare_ok (db : database) (s : stmt) (p : prepared) :
  statement_ok s -> prepare db s = Ok p ->
  prepared_ok p /\ (db = None -> p = PPragma).
Proof.
  intros Hs H. destruct s, db as [t|]; cbn [prepare statement_ok] in *;
    try contradiction; try discriminate;
    repeat match type of H with
           | context [obind ?x _] => destruct x; cbn [obind] in H; try discriminate
           | context [if ?b then _ else _] => destruct b; try discriminate
           end;
    injection H as <-; cbn [prepared_ok]; split; auto; discriminate.
Qed.

Lemma execute_parsed (conn : connection) (sql : string) (ps : list value) :
  parse_sql sql = None -> execute conn sql ps = NoModel.
Proof. intros H. unfold execute. now rewrite H. Qed.

Section Keeps.

(** [ok]: what is asked of the database, the same whenever there is a
    table. *)
Variable ok : database -> Prop.
Hypothesis ok_some : forall t, ok (Some t) <-> sound_table t.

Lemma both_begin (conn : connection) : both ok conn -> both ok (begin conn).
Proof.
  intros [H1 H2]. split; [now rewrite committed_begin|now rewrite view_begin].
Qed.

Lemma both_set_view (conn : connection) (db : database) :
  both ok conn -> ok db -> both ok (set_view conn db).
Proof.
  intros [H1 H2] Hd. unfold both, set_view, view.
  destruct (pending conn); cbn [committed pending]; auto.
Qed.

Lemma both_commit (conn : connection) :
  both ok conn -> both ok {| committed := view conn; pending := None |}.
Proof. intros [_ H]. split; exact H. Qed.

Lemma execute_keeps (conn conn' : connection) (sql : string) (ps : list value) (s : stmt) :
  both ok conn -> parse_sql sql = Some s -> statement_ok s ->
  left_by (execute conn sql ps) = Some conn' -> both ok conn'.
Proof.
  intros Hc Hs Hok H. unfold execute in H. rewrite Hs in H.
  destruct (prepare (view conn) s) as [p| |] eqn:Ep; cbn [left_by] in H;
    [|injection H as <-; exact Hc|discriminate].
  destruct (prepare_ok _ _ _ Hok Ep) as [Hp Hnone].
  set (conn1 := if is_dml p then begin conn else conn) in *.
  assert (Hc1 : both ok conn1).
  { unfold conn1. destruct (is_dml p); [now apply both_begin|exact Hc]. }
  assert (Hv1 : view conn1 = view conn).
  { unfold conn1. destruct (is_dml p); [apply view_begin|reflexivity]. }
  unfold bind_check in H.
  destruct (negb (List.length ps =? nparams p)%nat);
    [cbn [obind left_by] in H; injection H as <-; exact Hc1|].
  destruct (forallb in_int64 ps) eqn:Eps; cbn [negb obind] in H;
    [|cbn [left_by] in H; injection H as <-; exact Hc1].
  destruct (step p ps (view conn1)) as [[db cur]| |] eqn:Est; cbn [left_by] in H;
    [|injection H as <-; exact Hc1|discriminate].
  injection H as <-. apply both_set_view; [exact Hc1|].
  rewrite Hv1 in Est. destruct Hc as [_ Hc]. destruct (view conn) as [t|] eqn:Ev.
  - apply ok_some in Hc. pose proof (step_ok p ps t db cur Hp Hc Eps Est) as Hdb.
    destruct p; cbn [step] in Est;
      repeat match type of Est with
             | context [obind ?x _] => destruct x; cbn [obind] in Est; try discriminate
             end;
      try contradiction; injection Est as <- _; now apply ok_some.
  - rewrite (Hnone eq_refl) in Est. cbn in Est. now injection Est as <- _.
Qed.

Lemma call_then {A} (conn conn' : connection) (sql : string) (ps : list value)
      (s : stmt) (k : cursor -> connection -> result A) :
  both ok conn -> parse_sql sql = Some s -> statement_ok s ->
  (forall cur c c', both ok c -> left_by (k cur c) = Some c' -> both ok c') ->
  left_by (bind (execute conn sql ps) k) = Some conn' -> both ok conn'.
Proof.
  intros Hc Hs Hok Hk H.
  pose proof (execute_keeps conn) as He. specialize (He) with (1 := Hc) (2 := Hs) (3 := Hok).
  destruct (execute conn sql ps) as [cur c|e c|] eqn:E; cbn [bind left_by] in *.
  - apply (Hk cur c); [now apply (He c ps); rewrite E|exact H].
  - injection H as <-. apply (He c ps). now rewrite E.
  - discriminate.
Qed.

Lemma add_each_keeps (columns : list string) (conn conn' : connection) :
  both ok conn ->
  left_by (add_each conn columns) = Some conn' -> both ok conn'.
Proof.
  revert conn. induction columns as [|c cs IH]; intros conn Hc H; cbn [add_each] in H.
  - now injection H as <-.
  - destruct (execute conn (alter_sql c) []) as [cur c1|e c1|] eqn:E; cbn [bind left_by] in H.
    + apply (IH c1); [|exact H].
      destruct (parse_sql (alter_sql c)) as [s|] eqn:Es;
        [|unfold execute in E; rewrite Es in E; discriminate].
      apply (execute_keeps conn c1 (alter_sql c) [] s Hc Es);
        [now apply (alter_sql_statement c)|now rewrite E].
    + injection H as <-.
      destruct (parse_sql (alter_sql c)) as [s|] eqn:Es;
        [|unfold execute in E; rewrite Es in E; discriminate].
      apply (execute_keeps conn c1 (alter_sql c) [] s Hc Es);
        [now apply (alter_sql_statement c)|now rewrite E].
    + discriminate.
Qed.

Lemma create_table_keeps (conn conn' : connection) :
  both ok conn ->
  left_by (create_table conn) = Some conn' -> both ok conn'.
Proof.
  intros Hc H. unfold create_table, execute in H.
  let v := eval vm_compute in (parse_sql sql_create_employees_table) in
  change (parse_sql sql_create_employees_table) with v in H.
  cbv beta iota in H. cbn [prepare is_dml bind_check List.length nparams Nat.eqb negb
                           forallb obind] in H.
  destruct (view conn) as [t|] eqn:Ev; cbn [step no_rows] in H.
  - cbn [left_by] in H. injection H as <-.
    rewrite <- Ev, set_view_view. exact Hc.
  - change (run_create _) with (Ok employees0) in H. cbn [obind no_rows left_by] in H.
    injection H as <-. apply both_set_view; [exact Hc|].
    apply ok_some. split; [exact employees0_ok|constructor].
Qed.

Lemma do_call_keeps (c : call) (conn conn' : connection) :
  both ok conn -> do_call c conn = Some conn' -> both ok conn'.
Proof.
  intros Hc H. destruct c; cbn [do_call] in H.
  - now apply (create_table_keeps conn).
  - unfold insert_employee in H.
    destruct (parse_sql (insert_sql (keys employee))) as [s|] eqn:Es;
      [|rewrite (execute_parsed _ _ _ Es) in H; discriminate].
    apply (call_then conn conn' _ _ s _ Hc Es (insert_sql_statement _ _ Es)) in H;
      [exact H|].
    intros cur c c' Hs Hl. cbn in Hl. injection Hl as <-. now apply both_commit.
  - unfold update_employee in H.
    destruct (parse_sql (update_sql (keys employee))) as [s|] eqn:Es;
      [|rewrite (execute_parsed _ _ _ Es) in H; discriminate].
    apply (call_then conn conn' _ _ s _ Hc Es (update_sql_statement _ _ Es)) in H;
      [exact H|].
    intros cur c c' Hs Hl. cbn in Hl. injection Hl as <-. now apply both_commit.
  - unfold delete_employee in H.
    apply (call_then conn conn' _ _ _ _ Hc parse_delete_sql I) in H; [exact H|].
    intros cur c c' Hs Hl. cbn in Hl. injection Hl as <-. now apply both_commit.
  - unfold select_all_employees in H.
    apply (call_then conn conn' _ _ _ _ Hc parse_select_all_sql I) in H; [exact H|].
    intros cur c c' Hs Hl. cbn in Hl. now injection Hl as <-.
  - unfold select_employee_by_id in H.
    apply (call_then conn conn' _ _ _ _ Hc parse_select_by_id_sql I) in H; [exact H|].
    intros cur c c' Hs Hl. cbn in Hl. now injection Hl as <-.
  - rewrite select_employees_filtered_unfold in H.
    apply (call_then conn conn' _ _ _ _ Hc (parse_filter_query _ _ _) I) in H;
      [exact H|].
    intros cur c c' Hs Hl. cbn in Hl. now injection Hl as <-.
  - unfold add_extra_columns in H.
    destruct (add_each conn columns) as [[] c1|e c1|] eqn:E; cbn [bind left_by] in H.
    + cbn in H. injection H as <-. apply both_commit.
      apply (add_each_keeps columns conn); [exact Hc|now rewrite E].
    + injection H as <-. apply (add_each_keeps columns conn); [exact Hc|now rewrite E].
    + discriminate.
  - unfold get_columns in H.
    apply (call_then conn conn' _ _ _ _ Hc parse_pragma_sql I) in H; [exact H|].
    intros cur c c' Hs Hl. cbn in Hl. now injection Hl as <-.
  - injection H as <-. destruct Hc as [H1 _]. split; exact H1.
Qed.

Lemma do_calls_keep (cs : list call) (conn conn' : connection) :
  both ok conn -> do_calls cs conn = Some conn' -> both ok conn'.
Proof.
  revert conn. induction cs as [|c cs IH]; intros conn Hc H; cbn [do_calls] in H.
  - now injection H as <-.
  - destruct (do_call c conn) as [c1|] eqn:E; [|discriminate].
    apply (IH c1); [|exact H]. now apply (do_call_keeps c conn).
Qed.

End Keeps.

(** * [create_table] on any connection *)

Lemma create_table_value (conn : connection) :
  create_table conn
  = Return tt (match view conn with
               | Some _ => conn
               | None => set_view conn (Some employees0)
               end).
Proof.
  unfold create_table, execute.
  let v := eval vm_compute in (parse_sql sql_create_employees_table) in
  change (parse_sql sql_create_employees_table) with v.
  cbv beta iota. cbn [prepare is_dml bind_check List.length nparams Nat.eqb negb
                      forallb obind].
  destruct (view conn) as [t|] eqn:Ev; cbn [step no_rows].
  - now rewrite <- Ev, set_view_view.
  - change (run_create _) with (Ok employees0). reflexivity.
Qed.

(** * A batch of new plain names *)

Lemma added_column_plain (c : string) : column_of (added_column [c]) = text_column c.
Proof. reflexivity. Qed.

Lemma with_columns_nil (t : table) : with_columns t [] = t.
Proof.
  unfold with_columns. cbn [map List.length repeat]. rewrite app_nil_r.
  destruct t as [pk cs rs]. cbn [pkname cols rows]. f_equal.
  induction rs as [|[z vs] rs IH]; [reflexivity|].
  cbn [map fst snd]. now rewrite app_nil_r, IH.
Qed.

Lemma with_columns_cons (t : table) (c : string) (cs : list string) :
  with_columns (with_column t (added_column [c])) cs = with_columns t (c :: cs).
Proof.
  unfold with_columns, with_column. cbn [pkname cols rows]. f_equal.
  - rewrite <- app_assoc. reflexivity.
  - rewrite map_map. apply map_ext. intros [z vs]. cbn [fst snd List.length repeat].
    now rewrite <- app_assoc.
Qed.

Lemma set_view_twice (conn : connection) (a b : database) :
  set_view (set_view conn a) b = set_view conn b.
Proof. unfold set_view. now destruct (pending conn). Qed.

Lemma distinct_names_app_cons (ns : list string) (c : string) (cs : list string) :
  distinct_names (ns ++ c :: cs) = true ->
  existsb (fun m => ieq m c) ns = false /\ distinct_names ((ns ++ [c]) ++ cs) = true.
Proof.
  intros H. split; [|now rewrite <- app_assoc].
  induction ns as [|n ns IH]; [reflexivity|].
  cbn [app distinct_names] in H. apply andb_prop in H as [H1 H2].
  cbn [existsb]. rewrite (IH H2), orb_false_r.
  apply negb_true_iff in H1. rewrite existsb_app in H1.
  apply orb_false_elim in H1 as [_ H1]. cbn [existsb] in H1.
  now apply orb_false_elim in H1 as [H1 _].
Qed.

Lemma has_column_names (t : table) (n : string) :
  has_column t n = existsb (fun m => ieq m n) (pkname t :: attributes t).
Proof.
  unfold has_column, attributes. cbn [existsb]. f_equal.
  induction (cols t) as [|c cs IH]; [reflexivity|]. cbn [map existsb]. now rewrite IH.
Qed.

Lemma add_each_new (cs : list string) :
  forall conn t,
    view conn = Some t -> idents cs ->
    distinct_names ((pkname t :: attributes t) ++ cs) = true ->
    (column_count t + List.length cs <= max_columns)%nat ->
    add_each conn cs = Return tt (set_view conn (Some (with_columns t cs))).
Proof.
  induction cs as [|c cs IH]; intros conn t Hv Hid Hd Hn.
  - cbn [add_each]. now rewrite with_columns_nil, <- Hv, set_view_view.
  - cbn [add_each]. inversion Hid as [|? ? Hc Hcs]; subst.
    rewrite (execute_alter conn t c [c] Hv (name_words_ident c Hc)), run_alter_cases.
    apply distinct_names_app_cons in Hd as [Hnew Hd].
    change (dname (added_column [c])) with c.
    rewrite has_column_names, Hnew. cbn [orb].
    cbn [List.length] in Hn.
    destruct (Nat.leb_spec max_columns (column_count t)) as [Hle|_]; [lia|].
    cbn [bind].
    rewrite (IH (set_view conn (Some (with_column t (added_column [c]))))
                (with_column t (added_column [c]))).
    + now rewrite set_view_twice, with_columns_cons.
    + apply view_set_view.
    + assumption.
    + unfold attributes, with_column. cbn [pkname cols].
      rewrite map_app. cbn [map]. rewrite added_column_plain. cbn [text_column cname].
      exact Hd.
    + unfold column_count in *. cbn [with_column cols]. rewrite length_app.
      cbn [List.length]. lia.
Qed.

Lemma add_extra_columns_new (cs : list string) (conn : connection) (t : table) :
  view conn = Some t -> idents cs ->
  distinct_names ((pkname t :: attributes t) ++ cs) = true ->
  (column_count t + List.length cs <= max_columns)%nat ->
  add_extra_columns conn cs = Return tt (open_db (with_columns t cs)).
Proof.
  intros Hv Hid Hd Hn. unfold add_extra_columns.
  rewrite (add_each_new cs conn t Hv Hid Hd Hn). cbn [bind]. unfold commit.
  now rewrite view_set_view.
Qed.

Lemma with_columns_table (t : table) (cs : list string) :
  employees_table t -> idents cs ->
  distinct_names ((pkname t :: attributes t) ++ cs) = true ->
  employees_table (with_columns t cs).
Proof.
  revert t. induction cs as [|c cs IH]; intros t Hwf Hid Hd.
  - now rewrite with_columns_nil.
  - rewrite <- with_columns_cons. inversion Hid as [|? ? Hc Hcs]; subst.
    apply distinct_names_app_cons in Hd as [Hnew Hd].
    apply IH; [|assumption|].
    + apply with_column_ok; [assumption|exact Hc|].
      change (dname (added_column [c])) with c. now rewrite has_column_names.
    + unfold attributes, with_column. cbn [pkname cols].
      rewrite map_app. cbn [map]. rewrite added_column_plain. exact Hd.
Qed.

(** * UPDATE of the record with an identifier *)

Lemma execute_update_by_id (conn : connection) (t : table) (e : dict) (id : Z) :
  view conn = Some t -> employees_table t ->
  e <> [] -> incl (keys e) (attributes t) ->
  forallb in_int64 (values e) = true -> in_int64 (Integer id) = true ->
  exists refs,
    resolve_all t (keys e) = Ok refs /\
    execute conn (update_sql (keys e)) (values e ++ [Integer id])%list
    = match run_update t refs (by_id id) (values e) with
      | Ok t' => Return {| fetched := []; lastrowid := None |}
                        (set_view (begin conn) (Some t'))
      | Raise err => Raised err (begin conn)
      | Unmodelled => NoModel
      end.
Proof.
  intros Hv Hwf Hne Hin Hvals Hid.
  assert (Hk : keys e <> []) by (destruct e; [congruence | discriminate]).
  unfold execute.
  rewrite (parse_update_sql _ Hk (attributes_idents _ _ Hwf Hin)), Hv.
  cbn [prepare]. destruct (resolve_all_attributes t _ Hin) as (refs & Hr & Hlen).
  exists refs. split; [exact Hr|]. rewrite Hr.
  cbn [obind omap prepare_atom]. rewrite (resolve_pk _ (et_pk _ Hwf)).
  cbn [obind is_dml]. unfold bind_check.
  assert (Hl : List.length (values e) = List.length refs).
  { unfold values, keys in *. now rewrite Hlen, !length_map. }
  cbn [nparams count_cmp filter List.length].
  rewrite length_app, Hl. cbn [List.length]. rewrite Nat.eqb_refl. cbn [negb].
  rewrite (forallb_app_true _ _ _ Hvals) by (cbn [forallb]; now rewrite Hid).
  cbn [negb obind]. rewrite view_begin, Hv. cbn [step].
  rewrite <- Hl, skipn_app, skipn_all, Nat.sub_diag, firstn_app, firstn_all, Nat.sub_diag.
  cbn [skipn firstn app]. rewrite app_nil_r.
  cbn [bind_cond ref_affinity compare_affinity obind].
  fold (by_id id).
  destruct (run_update t refs (by_id id) (values e)) as [t'| |]; reflexivity.
Qed.

Section Update.

Variable t : table.
Hypothesis Hwf : employees_table t.

(** With keys that are attributes, no two the same, the value assigned to
    a column is the value the record has under the column's name. *)
Lemma assigned_lookup (e : dict) (i : nat) (c : column) :
  nth_error (cols t) i = Some c ->
  incl (keys e) (attributes t) -> NoDup (keys e) ->
  forall refs acc,
    resolve_all t (keys e) = Ok refs ->
    assigned refs (values e) (AttrRef i) acc
    = match lookup (cname c) e with
      | Some v => Some v
      | None => acc
      end.
Proof.
  intros Hc. induction e as [|[k v] e IH]; intros Hin Hnd refs acc Hr.
  - cbn in Hr. injection Hr as <-. reflexivity.
  - cbn [keys map fst] in Hin, Hnd, Hr. fold (keys e) in Hin, Hnd, Hr.
    cbn [resolve_all omap] in Hr. fold (resolve_all t (keys e)) in Hr.
    assert (Hk : In k (attributes t)) by (apply Hin; now left).
    destruct (attribute_column t k Hk) as (j & c' & Hj & Hn).
    pose proof (resolve_column t Hwf j c' Hj) as Hres. rewrite Hn in Hres.
    rewrite Hres in Hr. cbn [obind] in Hr.
    destruct (resolve_all t (keys e)) as [refs'| |] eqn:Er; try discriminate.
    cbn [obind] in Hr. injection Hr as <-.
    cbn [values map snd assigned lookup fst]. fold (values e).
    inversion Hnd as [|? ? Hnotin Hnd']; subst.
    rewrite (IH (fun x Hx => Hin x (or_intror Hx)) Hnd' refs' _ eq_refl).
    destruct (String.eqb_spec (cname c') (cname c)) as [Heq|Hneq].
    + assert (j = i).
      { pose proof (index_of_nth (cols t) j c') as H1.
        pose proof (index_of_nth (cols t) i c) as H2.
        assert (Hd : distinct_names (map cname (cols t)) = true).
        { pose proof (et_distinct _ Hwf) as Hd. cbn [distinct_names] in Hd.
          now apply andb_prop in Hd as [_ Hd]. }
        specialize (H1 Hd Hj). specialize (H2 Hd Hc). rewrite Heq in H1. congruence. }
      subst j. rewrite Nat.eqb_refl.
      destruct (lookup (cname c) e) as [v'|] eqn:El; [|reflexivity].
      exfalso. apply Hnotin. rewrite Heq. clear - El.
      induction e as [|[k' v''] e IH]; [discriminate|].
      cbn [lookup fst] in El. cbn [keys map fst].
      destruct (String.eqb_spec k' (cname c)); [now left|right; now apply IH].
    + destruct (Nat.eqb_spec j i) as [->|_]; [|reflexivity].
      exfalso. apply Hneq. congruence.
Qed.

Lemma assigned_no_rowid (refs : list colref) (ps : list value) (acc : option value) :
  Forall (fun r => r <> RowidRef) refs -> assigned refs ps RowidRef acc = acc.
Proof.
  revert ps acc. induction refs as [|r refs IH]; intros [|p ps] acc H; try reflexivity.
  inversion H as [|? ? Hr Hrs]; subst. cbn [assigned]. rewrite (IH ps _ Hrs).
  destruct r; [congruence|reflexivity].
Qed.

Lemma update_values_record (e : dict) (set : nat -> option value) :
  forall cs i old,
    (forall j c, nth_error cs j = Some c -> set (i + j)%nat = lookup (cname c) e) ->
    (forall c v, In c cs -> lookup (cname c) e = Some v -> storable (caff c) v = true) ->
    List.length old = List.length cs ->
    update_values cs i old set = Ok (updated_values cs e old).
Proof.
  induction cs as [|c cs IH]; intros i old Hset Hst Hlen.
  - reflexivity.
  - destruct old as [|o old]; [discriminate|]. cbn [update_values updated_values tl nth].
    pose proof (Hset 0%nat c eq_refl) as H0. rewrite Nat.add_0_r in H0. rewrite H0.
    rewrite (IH (S i) old).
    + destruct (lookup (cname c) e) as [v|] eqn:El.
      * rewrite (apply_affinity_storable _ _ (Hst c v (or_introl eq_refl) El)).
        reflexivity.
      * reflexivity.
    + intros j c' Hj. rewrite <- (Hset (S j) c' Hj). f_equal. lia.
    + intros c' v Hc'. apply Hst. now right.
    + cbn [List.length] in Hlen. lia.
Qed.

Lemma updated_values_not_null (e : dict) :
  forall cs old,
    row_ok cs old = true ->
    forallb (fun c => match lookup (cname c) e with
                      | Some v => storable (caff c) v && negb (cnotnull c && is_null v)
                      | None => true
                      end) cs = true ->
    not_null_ok cs (updated_values cs e old) = true.
Proof.
  induction cs as [|c cs IH]; intros [|o old] Hrow Ha; try discriminate; [reflexivity|].
  cbn [row_ok] in Hrow. apply andb_prop in Hrow as [H1 H2]. apply andb_prop in H1 as [_ H1].
  cbn [forallb] in Ha. apply andb_prop in Ha as [Ha1 Ha2].
  cbn [updated_values not_null_ok]. rewrite (IH old H2 Ha2), andb_true_r.
  destruct (lookup (cname c) e) as [v|].
  - apply andb_prop in Ha1 as [_ Ha1].
    destruct (cnotnull c); [|reflexivity]. cbn [andb] in *.
    rewrite <- (stored_null (caff c) v) in Ha1.
    now destruct (stored (caff c) v).
  - destruct (cnotnull c); [|reflexivity]. cbn [andb] in *. now destruct o.
Qed.

Lemma omap_map {A B} (g : A -> outcome B) (h : A -> B) (l : list A) :
  (forall a, In a l -> g a = Ok (h a)) -> omap g l = Ok (map h l).
Proof.
  induction l as [|a l IH]; intros H; [reflexivity|].
  cbn [omap map]. rewrite (H a (or_introl eq_refl)). cbn [obind].
  rewrite IH; [reflexivity|]. intros x Hx. apply H. now right.
Qed.

Lemma run_update_record (e : dict) (refs : list colref) (id : Z) :
  records_ok t ->
  incl (keys e) (attributes t) -> NoDup (keys e) ->
  resolve_all t (keys e) = Ok refs ->
  assignable t e = true ->
  run_update t refs (by_id id) (values e) = Ok (updated t e id).
Proof.
  intros Hrec Hin Hnd Hr Ha. unfold run_update, updated.
  set (h := fun r : row => if fst r =? id
                           then (fst r, updated_values (cols t) e (snd r))
                           else r).
  rewrite (omap_map _ h).
  - cbn [obind].
    assert (Hs : StronglySorted Z.lt (map fst (map h (rows t)))).
    { replace (map fst (map h (rows t))) with (map fst (rows t));
        [apply (et_sorted _ Hwf)|].
      rewrite map_map. apply map_ext. intros r. unfold h. now destruct (fst r =? id). }
    now rewrite (sorted_distinct _ Hs), (sorted_rebuild _ Hs).
  - intros r Hrow. rewrite row_matches_by_id. unfold h.
    destruct (fst r =? id); [|reflexivity].
    unfold update_row.
    unfold records_ok in Hrec. rewrite Forall_forall in Hrec. specialize (Hrec r Hrow).
    rewrite (update_values_record e).
    + cbn [obind]. unfold assignable in Ha.
      rewrite (updated_values_not_null e _ _ Hrec Ha). cbn [negb].
      rewrite assigned_no_rowid by (apply (resolve_all_attr_refs t Hwf (keys e)); assumption).
      reflexivity.
    + intros j c Hj. cbn [Nat.add].
      rewrite (assigned_lookup e j c Hj Hin Hnd refs None Hr).
      now destruct (lookup (cname c) e).
    + intros c v Hc Hl. unfold assignable in Ha. rewrite forallb_forall in Ha.
      specialize (Ha c Hc). rewrite Hl in Ha. now apply andb_prop in Ha as [Ha _].
    + now apply row_ok_length.
Qed.

End Update.

Lemma update_employee_record (conn : connection) (t : table) (e : dict) (id : Z) :
  view conn = Some t -> sound_table t ->
  e <> [] -> NoDup (keys e) -> incl (keys e) (attributes t) ->
  assignable t e = true ->
  forallb in_int64 (values e) = true -> in_int64 (Integer id) = true ->
  update_employee conn e (Integer id) = Return tt (open_db (updated t e id)).
Proof.
  intros Hv [Hwf Hrec] Hne Hnd Hin Ha Hvals Hid. unfold update_employee.
  destruct (execute_update_by_id conn t e id Hv Hwf Hne Hin Hvals Hid) as (refs & Hr & ->).
  rewrite (run_update_record t Hwf e refs id Hrec Hin Hnd Hr Ha).
  cbn [bind]. unfold commit. now rewrite view_set_view_begin.
Qed.

Lemma filter_by_id_sorted (rs : list row) (r : row) :
  StronglySorted Z.lt (map fst rs) -> In r rs ->
  filter (fun x => fst x =? fst r) rs = [r].
Proof.
  induction rs as [|x rs IH]; intros Hs Hin; [contradiction|].
  cbn [map] in Hs. inversion Hs as [|? ? Hs' Hall]; subst.
  rewrite Forall_forall in Hall. cbn [filter]. destruct Hin as [->|Hin].
  - rewrite Z.eqb_refl. f_equal.
    clear - Hall. induction rs as [|y rs IH]; [reflexivity|].
    cbn [filter]. assert (fst r < fst y) by (apply Hall; cbn; now left).
    destruct (Z.eqb_spec (fst y) (fst r)); [lia|].
    apply IH. intros z Hz. apply Hall. cbn. now right.
  - assert (fst x < fst r) by (apply Hall; now apply in_map).
    destruct (Z.eqb_spec (fst x) (fst r)); [lia|]. now apply IH.
Qed.

(** * Insertion and deletion as functions of the table *)

Lemma insert_employee_record (conn : connection) (t : table) (e : dict) :
  view conn = Some t -> employees_table t ->
  e <> [] -> incl (keys e) (attributes t) ->
  forallb (accepts e) (cols t) = true ->
  forallb in_int64 (values e) = true ->
  next_id t <= max_int64 ->
  insert_employee conn e = Return (Some (next_id t)) (open_db (inserted t e)).
Proof.
  intros Hv Hwf Hne Hin Ha Hv64 Hroom. rewrite insert_employee_execute.
  rewrite (execute_insert_ok t Hwf conn e Hv Hne Hin Ha Hv64 Hroom).
  cbn [lastrowid]. now rewrite view_set_view_begin.
Qed.

Lemma inserted_rows (t : table) (e : dict) :
  rows (inserted t e) = (rows t ++ [(next_id t, new_row t e)])%list.
Proof.
  cbn [inserted rows]. apply insert_row_last. intros x Hx. cbn [fst].
  now apply next_id_above.
Qed.

Lemma delete_employee_record (conn : connection) (t : table) (id : Z) :
  view conn = Some t -> pkname t = "id" -> in_int64 (Integer id) = true ->
  delete_employee conn (Integer id) = Return tt (open_db (without t id)).
Proof.
  intros Hv Hpk Hid. unfold delete_employee.
  rewrite (execute_delete conn t id Hv Hpk Hid). cbn [bind]. unfold commit.
  now rewrite view_set_view_begin.
Qed.

Lemma filter_all {A} (p : A -> bool) (l : list A) :
  (forall x, In x l -> p x = true) -> filter p l = l.
Proof.
  induction l as [|a l IH]; intros H; [reflexivity|].
  cbn [filter]. rewrite (H a (or_introl eq_refl)), IH; [reflexivity|].
  intros x Hx. apply H. now right.
Qed.


Lemma without_absent (t : table) (id : Z) :
  (forall r, In r (rows t) -> fst r <> id) -> without t id = t.
Proof.
  intros H. unfold without. rewrite filter_all; [apply table_eta|].
  intros x Hx. apply negb_true_iff, Z.eqb_neq. now apply H.
Qed.

Lemma hd_error_filter_map (rs : list row) (id : Z) :
  hd_error (map output_row (filter (fun r => fst r =? id) rs))
  = find (fun r => record_id r =? id) (map output_row rs).
Proof.
  induction rs as [|r rs IH]; [reflexivity|].
  cbn [filter map find output_row record_id].
  destruct (fst r =? id); [reflexivity|exact IH].
Qed.

Lemma filter_map_fst (h : row -> row) (rs : list row) (id : Z) :
  (forall r, fst (h r) = fst r) ->
  filter (fun r => fst r =? id) (map h rs) = map h (filter (fun r => fst r =? id) rs).
Proof.
  intros H. induction rs as [|r rs IH]; [reflexivity|].
  cbn [map filter]. rewrite (H r). destruct (fst r =? id); cbn [map]; now rewrite IH.
Qed.

Lemma filter_output_rows (rs : list row) (id : Z) :
  filter (fun r => negb (record_id r =? id)) (map output_row rs)
  = map output_row (filter (fun r => negb (fst r =? id)) rs).
Proof.
  induction rs as [|r rs IH]; [reflexivity|].
  cbn [map filter output_row record_id]. destruct (fst r =? id); cbn [negb map];
    now rewrite IH.
Qed.

Lemma select_by_id_rows (conn : connection) (t : table) (id : Z) :
  view conn = Some t -> pkname t = "id" -> in_int64 (Integer id) = true ->
  select_employee_by_id conn (Integer id)
  = Return (hd_error (map output_row (filter (fun r => fst r =? id) (rows t)))) conn.
Proof.
  intros Hv Hpk Hid. unfold select_employee_by_id.
  now rewrite (execute_select_by_id conn t id Hv Hpk Hid).
Qed.

(** * Queries leave the connection alone *)

Lemma execute_query_unchanged (conn : connection) (sql : string) (ps : list value)
      (s : stmt) :
  parse_sql sql = Some s ->
  match s with SSelect _ | SPragma => True | _ => False end ->
  unchanged_by conn (execute conn sql ps).
Proof.
  intros Hs Hq. unfold execute. rewrite Hs.
  destruct s; try contradiction.
  - destruct (view conn) as [t|] eqn:Ev; cbn [prepare]; [|reflexivity].
    destruct (omap (prepare_atom t) cond) as [c| |]; cbn [obind unchanged_by]; auto.
    cbn [is_dml]. destruct (bind_check (PSelect c) ps) as [[]| |];
      cbn [obind unchanged_by]; auto.
    rewrite Ev. cbn [step].
    destruct (bind_cond t c ps) as [c'| |]; cbn [obind unchanged_by]; auto.
    now rewrite <- Ev, set_view_view.
  - cbn [prepare is_dml].
    destruct (bind_check PPragma ps) as [[]| |]; cbn [obind unchanged_by]; auto.
    destruct (view conn) as [t|] eqn:Ev; cbn [step no_rows unchanged_by];
      now rewrite <- Ev, set_view_view.
Qed.

Lemma bind_query_unchanged {A} (conn : connection) (sql : string) (ps : list value)
      (s : stmt) (f : cursor -> A) :
  parse_sql sql = Some s ->
  match s with SSelect _ | SPragma => True | _ => False end ->
  unchanged_by conn (bind (execute conn sql ps) (fun cur c => Return (f cur) c)).
Proof.
  intros Hs Hq. pose proof (execute_query_unchanged conn sql ps s Hs Hq) as H.
  destruct (execute conn sql ps); cbn [bind unchanged_by] in *; exact H.
Qed.

(** * An integer beyond 64 bits *)

Lemma execute_overflow_by_id (conn : connection) (t : table) (z : Z) :
  view conn = Some t -> pkname t = "id" -> in_int64 (Integer z) = false ->
  execute conn select_by_id_sql [Integer z] = Raised OverflowError conn
  /\ execute conn delete_sql [Integer z] = Raised OverflowError (begin conn).
Proof.
  intros Hv Hpk Hz. unfold execute.
  rewrite parse_select_by_id_sql, parse_delete_sql, Hv.
  cbn [prepare omap prepare_atom]. rewrite (resolve_pk _ Hpk).
  cbn [obind is_dml]. unfold bind_check.
  cbn [nparams count_cmp filter List.length Nat.eqb negb forallb]. rewrite Hz.
  cbn [andb negb obind]. split; reflexivity.
Qed.

Lemma execute_update_overflow (conn : connection) (t : table) (e : dict) (z : Z) :
  view conn = Some t -> employees_table t ->
  e <> [] -> incl (keys e) (attributes t) -> in_int64 (Integer z) = false ->
  execute conn (update_sql (keys e)) (values e ++ [Integer z])%list
  = Raised OverflowError (begin conn).
Proof.
  intros Hv Hwf Hne Hin Hz.
  assert (Hk : keys e <> []) by (destruct e; [congruence | discriminate]).
  unfold execute.
  rewrite (parse_update_sql _ Hk (attributes_idents _ _ Hwf Hin)), Hv.
  cbn [prepare]. destruct (resolve_all_attributes t _ Hin) as (refs & Hr & Hlen).
  rewrite Hr. cbn [obind omap prepare_atom]. rewrite (resolve_pk _ (et_pk _ Hwf)).
  cbn [obind is_dml]. unfold bind_check.
  assert (Hl : List.length (values e) = List.length refs).
  { unfold values, keys in *. now rewrite Hlen, !length_map. }
  cbn [nparams count_cmp filter List.length].
  rewrite length_app, Hl. cbn [List.length]. rewrite Nat.eqb_refl. cbn [negb].
  rewrite forallb_app. cbn [forallb]. rewrite Hz, andb_false_r. reflexivity.
Qed.

(** * INSERT under a chosen identifier *)

Lemma accepts_split (t : table) (e : dict) :
  forallb (accepts e) (cols t) = true ->
  forallb (fun c => storable (caff c) (field e c)) (cols t) = true
  /\ forallb (fun c => negb (cnotnull c && is_null (field e c))) (cols t) = true.
Proof.
  intros H. rewrite forallb_forall in H. split; apply forallb_forall; intros c Hc;
    specialize (H c Hc); unfold accepts in H; now apply andb_prop in H.
Qed.

Lemma execute_insert_as (conn : connection) (t : table) (e : dict) (k : Z) :
  view conn = Some t -> employees_table t ->
  incl (keys e) (attributes t) ->
  forallb (accepts e) (cols t) = true ->
  forallb in_int64 (values e) = true -> in_int64 (Integer k) = true ->
  execute conn (insert_sql (keys (("id", Integer k) :: e)))
          (values (("id", Integer k) :: e))
  = if has_rowid (rows t) k then Raised IntegrityError (begin conn)
    else Return {| fetched := []; lastrowid := Some k |}
                (set_view (begin conn) (Some (inserted_as t k e))).
Proof.
  intros Hv Hwf Hin Ha Hv64 Hk.
  destruct (resolve_all_attributes t _ Hin) as (refs & Hr & Hlen).
  destruct (accepts_split t e Ha) as [Hst Hnn].
  cbn [keys values map fst snd]. fold (keys e). fold (values e).
  unfold execute.
  rewrite parse_insert_sql;
    [|discriminate|constructor; [reflexivity|now apply (attributes_idents t)]].
  rewrite Hv. cbn [prepare resolve_all omap]. fold (resolve_all t (keys e)).
  rewrite (resolve_pk _ (et_pk _ Hwf)), Hr. cbn [obind]. rewrite Nat.eqb_refl.
  cbn [is_dml]. unfold bind_check. cbn [nparams List.length].
  assert (Hl : List.length (values e) = List.length refs).
  { unfold values, keys in *. now rewrite Hlen, !length_map. }
  rewrite Hl, Nat.eqb_refl. cbn [forallb negb]. rewrite Hk, Hv64.
  cbn [andb negb obind]. rewrite view_begin, Hv. cbn [step]. unfold run_insert.
  rewrite (store_values_map _ _ _ (field e)).
  - cbn [obind]. rewrite not_null_ok_map, Hnn. cbn [negb listed_rowid].
    rewrite (listed_rowid_none _ _ _ (resolve_all_attr_refs t Hwf _ _ Hin Hr)).
    cbn [as_rowid obind]. destruct (has_rowid (rows t) k); reflexivity.
  - intros j c Hj. cbn [Nat.add listed_value]. split.
    + now apply (listed_value_field t Hwf e refs j c).
    + rewrite forallb_forall in Hst. apply Hst. eapply nth_error_In; eassumption.
Qed.

Lemma select_by_id_inserted_as (t : table) (e : dict) (k : Z) :
  pkname t = "id" -> in_int64 (Integer k) = true -> has_rowid (rows t) k = false ->
  select_employee_by_id (open_db (inserted_as t k e)) (Integer k)
  = Return (Some (Integer k :: new_row t e)) (open_db (inserted_as t k e)).
Proof.
  intros Hpk Hk Hno.
  rewrite (select_by_id_rows (open_db (inserted_as t k e)) (inserted_as t k e) k eq_refl Hpk Hk).
  cbn [inserted_as rows]. rewrite filter_insert_row.
  - reflexivity.
  - cbn [fst]. apply Z.eqb_refl.
  - intros x Hx. apply Z.eqb_neq. now apply (proj1 (has_rowid_false _ _) Hno).
Qed.


(** * Calls with plain arguments: the model answers *)

Lemma ieq_sym (a b : string) : ieq a b = ieq b a.
Proof. unfold ieq. apply String.eqb_sym. Qed.

Lemma ieq_same (a b c : string) : ieq a b = true -> ieq a c = ieq b c.
Proof. unfold ieq. intros H. apply String.eqb_eq in H. now rewrite H. Qed.

Lemma omap_answers {A B} (f : A -> outcome B) (l : list A) :
  (forall a, In a l -> f a <> Unmodelled) -> omap f l <> Unmodelled.
Proof.
  induction l as [|a l IH]; intros H; cbn [omap]; [discriminate|].
  destruct (f a) as [b| |] eqn:Ea; cbn [obind]; [|discriminate|].
  - destruct (omap f l) as [bs| |] eqn:Eo; cbn [obind]; try discriminate.
    exfalso. apply IH; [|reflexivity]. intros x Hx. apply H. now right.
  - exfalso. apply (H a); [now left|assumption].
Qed.

Lemma resolve_all_answers (t : table) (ns : list string) : resolve_all t ns <> Unmodelled.
Proof.
  unfold resolve_all. apply omap_answers. intros n _. now destruct (resolve t n).
Qed.

Lemma prepare_atoms_answer (t : table) (c : list atom) :
  omap (prepare_atom t) c <> Unmodelled.
Proof.
  apply omap_answers. intros [|n op] _; cbn [prepare_atom]; [discriminate|].
  now destruct (resolve t n).
Qed.

Lemma prepare_answers (db : database) (s : stmt) : prepare db s <> Unmodelled.
Proof.
  destruct s, db as [t|]; cbn [prepare]; try discriminate.
  - pose proof (resolve_all_answers t names) as H.
    destruct (resolve_all t names); cbn [obind]; try discriminate; [|contradiction].
    now destruct (_ =? _)%nat.
  - pose proof (resolve_all_answers t sets) as H.
    destruct (resolve_all t sets); cbn [obind]; try discriminate; [|contradiction].
    pose proof (prepare_atoms_answer t cond) as H'.
    destruct (omap (prepare_atom t) cond); cbn [obind]; try discriminate. contradiction.
  - pose proof (prepare_atoms_answer t cond) as H'.
    destruct (omap (prepare_atom t) cond); cbn [obind]; try discriminate. contradiction.
  - pose proof (prepare_atoms_answer t cond) as H'.
    destruct (omap (prepare_atom t) cond); cbn [obind]; try discriminate. contradiction.
Qed.

(** A statement whose execution keeps [I] whenever it is compiled and its
    parameters are bound: the call of [execute] answers, and leaves a
    connection on which [I] holds. *)
Lemma execute_within (I : database -> Prop) (conn : connection) (sql : string)
      (ps : list value) (s : stmt) :
  parse_sql sql = Some s -> both I conn ->
  (forall p, prepare (view conn) s = Ok p ->
             List.length ps = nparams p -> forallb in_int64 ps = true ->
             match step p ps (view conn) with
             | Ok (db, _) => I db
             | Raise _ => True
             | Unmodelled => False
             end) ->
  exists conn', left_by (execute conn sql ps) = Some conn' /\ both I conn'.
Proof.
  intros Hs Hc Hstep. unfold execute. rewrite Hs.
  pose proof (prepare_answers (view conn) s) as Hp.
  destruct (prepare (view conn) s) as [p| |] eqn:Ep; [| |contradiction].
  - specialize (Hstep p eq_refl).
    set (conn1 := if is_dml p then begin conn else conn) in *.
    assert (Hc1 : both I conn1).
    { unfold conn1. destruct (is_dml p); [now apply both_begin|exact Hc]. }
    assert (Hv1 : view conn1 = view conn).
    { unfold conn1. destruct (is_dml p); [apply view_begin|reflexivity]. }
    unfold bind_check.
    destruct (Nat.eqb_spec (List.length ps) (nparams p)) as [Hn|Hn]; cbn [negb];
      [|cbn [obind left_by]; now exists conn1].
    destruct (forallb in_int64 ps) eqn:Eps; cbn [negb obind];
      [|cbn [left_by]; now exists conn1].
    rewrite Hv1. specialize (Hstep Hn eq_refl).
    destruct (step p ps (view conn)) as [[db cur]| |]; cbn [left_by];
      [|now exists conn1|contradiction].
    exists (set_view conn1 db). split; [reflexivity|]. now apply both_set_view.
  - cbn [left_by]. now exists conn.
Qed.

(** * Values that fit their columns *)

Lemma index_of_sound (n : string) (cs : list column) (i : nat) :
  index_of n cs = Some i ->
  exists c, nth_error cs i = Some c /\ ieq (cname c) n = true.
Proof.
  revert i. induction cs as [|x cs IH]; intros i H; [discriminate|].
  cbn [index_of] in H. destruct (ieq (cname x) n) eqn:E.
  - injection H as <-. now exists x.
  - destruct (index_of n cs) as [j|]; [|discriminate]. cbn [option_map] in H.
    injection H as <-. destruct (IH j eq_refl) as (c & H1 & H2). now exists c.
Qed.

Lemma id_key_not_salary (k : string) :
  ieq k "id" || is_rowid_alias k = true -> ieq k "salary" = false.
Proof.
  unfold is_rowid_alias, ieq. intros H.
  destruct (String.eqb_spec (upper k) (upper "salary")) as [E|_]; [|reflexivity].
  rewrite E in H. discriminate H.
Qed.

Lemma id_value_fits (a : affinity) (v : value) :
  id_value v = true -> a = AffText -> apply_affinity a v <> Unmodelled.
Proof. intros H ->. destruct v; try discriminate; cbn; discriminate. Qed.

Lemma not_float_fits (v : value) : not_float v = true -> apply_affinity AffText v <> Unmodelled.
Proof. destruct v; try discriminate; cbn; discriminate. Qed.

Lemma resolve_fits (t : table) (k : string) (v : value) (r : colref) :
  employees_table t -> text_columns t ->
  plain_value k v = true -> resolve t k = Some r -> param_fits t r v.
Proof.
  intros Hwf Htc Hv Hr. unfold resolve in Hr. rewrite (et_pk _ Hwf) in Hr.
  unfold plain_value in Hv.
  destruct (ieq "id" k) eqn:Eid.
  - injection Hr as <-. cbn [param_fits]. rewrite ieq_sym, Eid in Hv. exact Hv.
  - destruct (index_of k (cols t)) as [i|] eqn:Ei.
    + injection Hr as <-. cbn [param_fits]. intros c Hc.
      destruct (index_of_sound _ _ _ Ei) as (c' & Hc' & Hk).
      assert (c' = c) by congruence. subst c'.
      unfold text_columns in Htc. rewrite Forall_forall in Htc.
      pose proof (Htc c (nth_error_In _ _ Hc)) as Ha.
      rewrite (ieq_same _ _ "salary" Hk) in Ha.
      destruct (ieq k "id" || is_rowid_alias k) eqn:Ek.
      * rewrite (id_key_not_salary k Ek) in Ha. now apply id_value_fits.
      * destruct (ieq k "salary"); rewrite Ha.
        -- rewrite (apply_affinity_storable _ _ Hv). discriminate.
        -- now apply not_float_fits.
    + destruct (is_rowid_alias k) eqn:Ea; [|discriminate]. injection Hr as <-.
      cbn [param_fits]. now rewrite orb_true_r in Hv.
Qed.

Lemma resolve_all_fits (t : table) (e : dict) :
  employees_table t -> text_columns t ->
  forallb (fun kv => is_ident (fst kv) && plain_value (fst kv) (snd kv)) e = true ->
  forall refs, resolve_all t (keys e) = Ok refs -> Forall2 (param_fits t) refs (values e).
Proof.
  intros Hwf Htc. unfold resolve_all.
  induction e as [|[k v] e IH]; intros He refs Hr; cbn [keys values map fst snd omap] in *.
  - injection Hr as <-. constructor.
  - apply andb_prop in He as [Hkv He]. apply andb_prop in Hkv as [_ Hv]. cbn [fst snd] in Hv.
    destruct (resolve t k) as [r|] eqn:Er; [|discriminate]. cbn [obind] in Hr.
    destruct (omap _ (map fst e)) as [rs| |] eqn:Eo; try discriminate.
    cbn [obind] in Hr. injection Hr as <-. constructor.
    + now apply (resolve_fits t k).
    + now apply IH.
Qed.

Lemma plain_record_keys (e : dict) :
  plain_record e = true ->
  e <> [] /\ idents (keys e) /\
  forallb (fun kv => is_ident (fst kv) && plain_value (fst kv) (snd kv)) e = true.
Proof.
  destruct e as [|kv e]; [discriminate|]. cbn [plain_record]. intros H.
  split; [discriminate|]. split; [|exact H].
  unfold idents. apply Forall_forall. intros k Hk. unfold keys in Hk.
  apply in_map_iff in Hk as (x & <- & Hx). rewrite forallb_forall in H.
  specialize (H x Hx). now apply andb_prop in H as [H _].
Qed.

(** * INSERT and UPDATE of values that fit *)

Lemma apply_affinity_no_raise (a : affinity) (v : value) (e : error) :
  apply_affinity a v <> Raise e.
Proof.
  destruct a, v; cbn; try discriminate;
    repeat match goal with |- context [if ?b then _ else _] => destruct b end;
    discriminate.
Qed.

Lemma apply_affinity_null (a : affinity) : apply_affinity a Null = Ok Null.
Proof. now destruct a. Qed.

Lemma listed_value_fits (t : table) (refs : list colref) (ps : list value)
      (i : nat) (c : column) :
  Forall2 (param_fits t) refs ps -> nth_error (cols t) i = Some c ->
  apply_affinity (caff c) (listed_value refs ps i) <> Unmodelled.
Proof.
  intros H Hc. induction H as [|r p refs ps Hrp H IH]; cbn [listed_value].
  - rewrite apply_affinity_null. discriminate.
  - destruct r as [|j]; [exact IH|].
    destruct (Nat.eqb_spec j i) as [->|_]; [|exact IH]. now apply Hrp.
Qed.

Lemma store_values_answers (cs : list column) :
  forall i get,
    (forall j c, nth_error cs j = Some c ->
                 apply_affinity (caff c) (get (i + j)%nat) <> Unmodelled) ->
    exists vs, store_values cs i get = Ok vs.
Proof.
  induction cs as [|c cs IH]; intros i get H; cbn [store_values]; [now exists []|].
  pose proof (H 0%nat c eq_refl) as H0. rewrite Nat.add_0_r in H0.
  destruct (apply_affinity (caff c) (get i)) as [v|e|] eqn:Ea;
    [|now destruct (apply_affinity_no_raise _ _ _ Ea)|contradiction].
  cbn [obind]. destruct (IH (S i) get) as [vs ->].
  - intros j c' Hj. replace (S i + j)%nat with (i + S j)%nat by lia. now apply H.
  - cbn [obind]. now exists (v :: vs).
Qed.

Lemma listed_rowid_fits (t : table) (refs : list colref) (ps : list value) :
  Forall2 (param_fits t) refs ps ->
  forall acc v, listed_rowid refs ps acc = Some v -> acc = Some v \/ id_value v = true.
Proof.
  intros H. induction H as [|r p refs ps Hrp H IH]; intros acc v Hl;
    cbn [listed_rowid] in Hl; [now left|].
  destruct r as [|j].
  - destruct (IH _ _ Hl) as [E|E]; [|now right]. injection E as <-. now right.
  - now apply IH.
Qed.

Lemma fold_max_le (l : list Z) (a n : Z) :
  a <= n -> Forall (fun x => x <= n) l -> fold_left Z.max l a <= n.
Proof.
  revert a. induction l as [|x l IH]; intros a Ha Hl; cbn [fold_left]; [exact Ha|].
  inversion Hl; subst. apply IH; [lia|assumption].
Qed.

Lemma max_rowid_up_to (rs : list row) (n m : Z) :
  Forall (fun r : row => fst r <= n) rs -> max_rowid rs = Some m -> m <= n.
Proof.
  intros H Hm. destruct rs as [|r rs]; [discriminate|]. cbn [max_rowid] in Hm.
  injection Hm as <-. inversion H; subst. apply fold_max_le; [assumption|].
  apply Forall_forall. intros x Hx. apply in_map_iff in Hx as (y & <- & Hy).
  rewrite Forall_forall in *. auto.
Qed.

Lemma new_rowid_up_to (rs : list row) (n : Z) :
  Forall (fun r : row => fst r <= n) rs -> 0 <= n -> n < max_int64 ->
  exists z, new_rowid rs = Ok z /\ z <= n + 1.
Proof.
  intros H H0 Hn. unfold new_rowid. destruct (max_rowid rs) as [m|] eqn:Em.
  - pose proof (max_rowid_up_to rs n m H Em) as Hm.
    destruct (Z.ltb_spec m max_int64); [|lia]. exists (m + 1). split; [reflexivity|lia].
  - exists 1. split; [reflexivity|lia].
Qed.

Lemma run_insert_within (t : table) (refs : list colref) (ps : list value) (n : Z) :
  plain_table n t -> 2 ^ 62 <= n -> n < max_int64 ->
  forallb in_int64 ps = true -> Forall2 (param_fits t) refs ps ->
  match run_insert t refs ps with
  | Ok (t', _) => plain_table (n + 1) t'
  | Raise _ => True
  | Unmodelled => False
  end.
Proof.
  intros (Hs & Htc & Hup) Hlo Hhi Hps Hfit.
  destruct (run_insert t refs ps) as [[t' id]|e|] eqn:E; [|exact I|].
  - split; [now apply (run_insert_ok t t' refs ps id)|].
    unfold run_insert in E.
    destruct (store_values (cols t) 0 (listed_value refs ps)) as [vs| |]; try discriminate.
    cbn [obind] in E. destruct (negb (not_null_ok (cols t) vs)); [discriminate|].
    destruct (match listed_rowid refs ps None with
              | Some Null | None => new_rowid (rows t)
              | Some v => as_rowid v
              end) as [z| |] eqn:Ez; try discriminate.
    cbn [obind] in E. destruct (has_rowid (rows t) z); [discriminate|].
    injection E as <- <-. split; [exact Htc|].
    unfold rowids_up_to in *. cbn [rows]. apply Forall_forall. intros x Hx.
    apply insert_row_in in Hx as [->|Hx].
    + cbn [fst]. destruct (new_rowid_up_to (rows t) n Hup) as (z' & Hz' & Hle); try lia.
      destruct (listed_rowid refs ps None) as [v|] eqn:El.
      * destruct (listed_rowid_fits t refs ps Hfit _ _ El) as [?|Hv]; [discriminate|].
        destruct v; try discriminate; [congruence|].
        cbn in Ez, Hv. injection Ez as <-. apply Z.leb_le in Hv. lia.
      * congruence.
    + rewrite Forall_forall in Hup. specialize (Hup x Hx). lia.
  - unfold run_insert in E.
    destruct (store_values_answers (cols t) 0 (listed_value refs ps)) as [vs Evs].
    { intros j c Hj. cbn [Nat.add]. now apply (listed_value_fits t). }
    rewrite Evs in E. cbn [obind] in E.
    destruct (negb (not_null_ok (cols t) vs)); [discriminate|].
    destruct (new_rowid_up_to (rows t) n Hup) as (z' & Hz' & Hle); try lia.
    destruct (listed_rowid refs ps None) as [v|] eqn:El.
    + destruct (listed_rowid_fits t refs ps Hfit _ _ El) as [?|Hv]; [discriminate|].
      destruct v; try discriminate.
      * rewrite Hz' in E. cbn [obind] in E. now destruct (has_rowid (rows t) z').
      * cbn [as_rowid obind] in E. now destruct (has_rowid (rows t) z).
    + rewrite Hz' in E. cbn [obind] in E. now destruct (has_rowid (rows t) z').
Qed.

Lemma assigned_fits (t : table) (refs : list colref) (ps : list value) :
  Forall2 (param_fits t) refs ps ->
  forall r acc v, assigned refs ps r acc = Some v -> acc = Some v \/ param_fits t r v.
Proof.
  intros H. induction H as [|x p refs ps Hxp H IH]; intros r acc v Ha;
    cbn [assigned] in Ha; [now left|].
  destruct (IH _ _ _ Ha) as [E|E]; [|now right].
  destruct x as [|j], r as [|i]; try (now left).
  - injection E as <-. now right.
  - destruct (Nat.eqb_spec j i) as [->|_]; [|now left]. injection E as <-. now right.
Qed.

Lemma update_values_answers (cs : list column) :
  forall i old set,
    (forall j c p, nth_error cs j = Some c -> set (i + j)%nat = Some p ->
                   apply_affinity (caff c) p <> Unmodelled) ->
    exists vs, update_values cs i old set = Ok vs.
Proof.
  induction cs as [|c cs IH]; intros i old set H; cbn [update_values]; [now exists []|].
  assert (H0 : exists v, match set i with
                         | Some p => apply_affinity (caff c) p
                         | None => Ok (nth 0 old Null)
                         end = Ok v).
  { destruct (set i) as [p|] eqn:Es; [|now eexists].
    pose proof (H 0%nat c p eq_refl) as Hp. rewrite Nat.add_0_r in Hp. specialize (Hp Es).
    destruct (apply_affinity (caff c) p) as [v|e|] eqn:Ea;
      [now exists v|now destruct (apply_affinity_no_raise _ _ _ Ea)|contradiction]. }
  destruct H0 as [v ->]. cbn [obind]. destruct (IH (S i) (tl old) set) as [vs ->].
  - intros j c' p Hj. replace (S i + j)%nat with (i + S j)%nat by lia. now apply H.
  - cbn [obind]. now exists (v :: vs).
Qed.

Lemma update_row_within (t : table) (refs : list colref) (ps : list value)
      (r : row) (n : Z) :
  Forall2 (param_fits t) refs ps -> 2 ^ 62 <= n -> fst r <= n ->
  match update_row t refs ps r with
  | Ok r' => fst r' <= n
  | Raise _ => True
  | Unmodelled => False
  end.
Proof.
  intros Hfit Hlo Hr. unfold update_row.
  destruct (update_values_answers (cols t) 0 (snd r)
              (fun i => assigned refs ps (AttrRef i) None)) as [vs ->].
  { intros j c p Hj Ha. cbn [Nat.add] in Ha.
    destruct (assigned_fits t refs ps Hfit _ _ _ Ha) as [?|Hp]; [discriminate|].
    now apply Hp. }
  cbn [obind]. destruct (negb (not_null_ok (cols t) vs)); [exact I|].
  destruct (assigned refs ps RowidRef None) as [v|] eqn:Ea; cbn [obind fst]; [|exact Hr].
  destruct (assigned_fits t refs ps Hfit _ _ _ Ea) as [?|Hp]; [discriminate|].
  cbn [param_fits] in Hp. destruct v; try discriminate; cbn [as_rowid obind fst]; [exact I|].
  cbn in Hp. apply Z.leb_le in Hp. lia.
Qed.

Lemma omap_within {A B} (f : A -> outcome B) (P : B -> Prop) (l : list A) :
  (forall a, In a l -> match f a with
                       | Ok b => P b
                       | Raise _ => True
                       | Unmodelled => False
                       end) ->
  match omap f l with
  | Ok bs => Forall P bs
  | Raise _ => True
  | Unmodelled => False
  end.
Proof.
  induction l as [|a l IH]; intros H; cbn [omap]; [constructor|].
  pose proof (H a (or_introl eq_refl)) as Ha.
  destruct (f a) as [b| |]; cbn [obind]; [|exact I|contradiction].
  assert (Hl : forall x, In x l -> match f x with
                                   | Ok b => P b
                                   | Raise _ => True
                                   | Unmodelled => False
                                   end) by (intros x Hx; apply H; now right).
  specialize (IH Hl). destruct (omap f l) as [bs| |]; cbn [obind]; [|exact I|contradiction].
  now constructor.
Qed.

Lemma run_update_within (t : table) (refs : list colref)
      (c : list (colref * cmp * value)) (ps : list value) (n : Z) :
  plain_table n t -> 2 ^ 62 <= n ->
  forallb in_int64 ps = true -> Forall2 (param_fits t) refs ps ->
  match run_update t refs c ps with
  | Ok t' => plain_table n t'
  | Raise _ => True
  | Unmodelled => False
  end.
Proof.
  intros (Hs & Htc & Hup) Hlo Hps Hfit.
  assert (Hrows : forall a, In a (rows t) ->
             match (if row_matches c a then update_row t refs ps a else Ok a) with
             | Ok r' => fst r' <= n
             | Raise _ => True
             | Unmodelled => False
             end).
  { intros a Ha. unfold rowids_up_to in Hup. rewrite Forall_forall in Hup.
    destruct (row_matches c a); [|now apply Hup].
    apply update_row_within; auto. }
  pose proof (omap_within _ (fun r' : row => fst r' <= n) (rows t) Hrows) as Hom.
  destruct (run_update t refs c ps) as [t'| |] eqn:E; [|exact I|].
  - split; [now apply (run_update_ok t t' refs c ps)|].
    unfold run_update in E.
    destruct (omap _ (rows t)) as [rs| |]; try discriminate. cbn [obind] in E.
    destruct (distinct_rowids rs); [|discriminate]. injection E as <-.
    split; [exact Htc|].
    unfold rowids_up_to. cbn [rows]. apply Forall_forall. intros x Hx.
    apply (proj1 (rebuild_in _ _)) in Hx. rewrite Forall_forall in Hom. now apply Hom.
  - unfold run_update in E.
    destruct (omap _ (rows t)) as [rs| |]; try discriminate; [|contradiction].
    cbn [obind] in E. now destruct (distinct_rowids rs).
Qed.

(** * Every call with plain arguments answers and keeps the store *)

Lemma plain_table_mono (n m : Z) (t : table) : n <= m -> plain_table n t -> plain_table m t.
Proof.
  intros Hnm (Hs & Htc & Hup). split; [exact Hs|]. split; [exact Htc|].
  unfold rowids_up_to in *. rewrite Forall_forall in *. intros r Hr. specialize (Hup r Hr). lia.
Qed.

Lemma omap_length {A B} (f : A -> outcome B) (l : list A) (l' : list B) :
  omap f l = Ok l' -> List.length l' = List.length l.
Proof.
  revert l'. induction l as [|a l IH]; intros l' H; cbn [omap] in H.
  - now injection H as <-.
  - destruct (f a); try discriminate. cbn [obind] in H.
    destruct (omap f l) as [bs| |]; try discriminate. cbn [obind] in H.
    injection H as <-. cbn [List.length]. now rewrite (IH bs eq_refl).
Qed.

Lemma bind_cond_by_id (t : table) (v : value) :
  no_numeral v = true -> exists c', bind_cond t [PCmp RowidRef CEq] [v] = Ok c'.
Proof.
  intros H. cbn [bind_cond ref_affinity].
  destruct v; cbn [compare_affinity obind]; try (now eexists).
  cbn [no_numeral] in H. apply negb_true_iff in H. rewrite H. now eexists.
Qed.

Lemma prepare_by_id (t : table) :
  employees_table t ->
  omap (prepare_atom t) [ACmp "id" CEq] = Ok [PCmp RowidRef CEq].
Proof. intros Hwf. cbn [omap prepare_atom]. now rewrite (resolve_pk t (et_pk _ Hwf)). Qed.

Lemma run_delete_within (t : table) (c : list (colref * cmp * value)) (n : Z) :
  plain_table n t -> plain_table n (run_delete t c).
Proof.
  intros (Hs & Htc & Hup). split; [now apply run_delete_ok|]. split; [exact Htc|].
  unfold rowids_up_to in *. cbn [run_delete rows]. now apply forall_filter.
Qed.

Lemma select_all_answers (conn : connection) : execute conn select_all_sql [] <> NoModel.
Proof.
  unfold execute. rewrite parse_select_all_sql.
  destruct (view conn) as [t|] eqn:Ev; cbn; [rewrite Ev; cbn|]; discriminate.
Qed.

Lemma pragma_answers (conn : connection) : execute conn pragma_sql [] <> NoModel.
Proof.
  unfold execute. rewrite parse_pragma_sql.
  destruct (view conn) as [t|] eqn:Ev; cbn; rewrite Ev; cbn; discriminate.
Qed.

Lemma compare_affinity_text (d : value) :
  not_float d = true -> exists p, compare_affinity AffText d = Ok p.
Proof. destruct d; try discriminate; intros _; cbn; now eexists. Qed.

Lemma compare_affinity_real (v : value) :
  no_numeral v = true -> exists p, compare_affinity AffReal v = Ok p.
Proof.
  destruct v; intros H; cbn; try (now eexists).
  cbn in H. apply negb_true_iff in H. rewrite H. now eexists.
Qed.

Lemma bind_cond_filter (t : table) (d lo hi : value) :
  employees_table t ->
  not_float d = true -> no_numeral lo = true -> no_numeral hi = true ->
  exists c', bind_cond t (filter_patoms (truthy d) (truthy lo) (truthy hi))
                       (filter_params d lo hi) = Ok c'.
Proof.
  intros Hwf Hd Hlo Hhi. destruct (et_base _ Hwf) as [extra E].
  destruct (compare_affinity_text d Hd) as [pd Ed].
  destruct (compare_affinity_real lo Hlo) as [pl El].
  destruct (compare_affinity_real hi Hhi) as [ph Eh].
  unfold filter_patoms, filter_params.
  destruct (truthy d), (truthy lo), (truthy hi);
    cbn [app bind_cond ref_affinity]; rewrite ?E; cbn [base_cols app nth_error caff];
    rewrite ?Ed, ?El, ?Eh; cbn [obind];
    rewrite ?Ed, ?El, ?Eh; cbn [obind];
    rewrite ?Ed, ?El, ?Eh; cbn [obind]; now eexists.
Qed.

Lemma salary_column (t : table) :
  employees_table t -> exists c, In c (cols t) /\ cname c = "salary".
Proof.
  intros Hwf. destruct (et_base _ Hwf) as [extra E]. rewrite E.
  eexists. split; [right; right; left; reflexivity|reflexivity].
Qed.

Lemma run_alter_within (t : table) (c : string) (n : Z) :
  is_ident c = true -> plain_table n t ->
  match run_alter t (added_column [c]) with
  | Ok t' => plain_table n t'
  | Raise _ => True
  | Unmodelled => False
  end.
Proof.
  intros Hid Hp. pose proof Hp as (Hs & Htc & Hup).
  destruct (run_alter t (added_column [c])) as [t'| |] eqn:E; [|exact I|].
  - split; [now apply (run_alter_ok t t' (added_column [c]))|].
    rewrite run_alter_cases in E.
    destruct (has_column t (dname (added_column [c]))) eqn:Eh; [discriminate|].
    cbn [orb] in E. destruct (max_columns <=? column_count t)%nat; [discriminate|].
    injection E as <-. split.
    + unfold text_columns, with_column. cbn [cols]. apply Forall_app. split; [exact Htc|].
      constructor; [|constructor]. rewrite added_column_plain. cbn [text_column caff cname].
      destruct (salary_column t (proj1 Hs)) as (sc & Hsc & Hname).
      unfold has_column in Eh. cbn [added_column app hd dname] in Eh.
      apply orb_false_elim in Eh as [_ Eh].
      assert (Hx : ieq (cname sc) c = false).
      { destruct (ieq (cname sc) c) eqn:Ex; [|reflexivity].
        assert (existsb (fun x => ieq (cname x) c) (cols t) = true); [|congruence].
        apply existsb_exists. now exists sc. }
      rewrite Hname, ieq_sym in Hx. now rewrite Hx.
    + unfold rowids_up_to, with_column in *. cbn [rows]. rewrite Forall_forall in *.
      intros x Hx. apply in_map_iff in Hx as (r & <- & Hr). cbn [fst]. now apply Hup.
  - rewrite run_alter_cases in E.
    now destruct (has_column t (dname (added_column [c])) || (max_columns <=? column_count t)%nat).
Qed.

Lemma employees0_plain (n : Z) : plain_table n employees0.
Proof.
  split; [split; [exact employees0_ok|constructor]|]. split; [|constructor].
  unfold text_columns. cbn [employees0 cols base_cols]. repeat constructor.
Qed.

(** A query that answers leaves the connection as it was. *)
Lemma query_within {A} (I : database -> Prop) (conn : connection) (sql : string)
      (ps : list value) (s : stmt) (f : cursor -> A) :
  parse_sql sql = Some s ->
  match s with SSelect _ | SPragma => True | _ => False end ->
  both I conn ->
  execute conn sql ps <> NoModel ->
  exists conn', left_by (bind (execute conn sql ps) (fun cur c => Return (f cur) c))
                = Some conn' /\ both I conn'.
Proof.
  intros Hs Hq Hc Hne. pose proof (execute_query_unchanged conn sql ps s Hs Hq) as Hu.
  destruct (execute conn sql ps) as [cur c|err c|]; [| |contradiction];
    cbn [unchanged_by] in Hu; subst c; cbn [bind left_by]; now exists conn.
Qed.

Section Within.

(** [ok n]: what is asked of the database; with a table, that it is a
    plain table whose identifiers are at most [n]. *)
Variable ok : Z -> database -> Prop.
Hypothesis ok_some : forall n t, ok n (Some t) <-> plain_table n t.
Hypothesis ok_none : forall n m, ok n None -> ok m None.

Lemma ok_mono (n m : Z) (conn : connection) :
  n <= m -> both (ok n) conn -> both (ok m) conn.
Proof.
  intros Hnm [H1 H2]. split.
  - destruct (committed conn); [|now apply (ok_none n)].
    apply ok_some. apply (plain_table_mono n); [exact Hnm|now apply ok_some].
  - destruct (view conn); [|now apply (ok_none n)].
    apply ok_some. apply (plain_table_mono n); [exact Hnm|now apply ok_some].
Qed.

Lemma insert_employee_within (conn : connection) (e : dict) (n : Z) :
  plain_record e = true -> both (ok n) conn ->
  2 ^ 62 <= n -> n < max_int64 ->
  exists conn', left_by (insert_employee conn e) = Some conn' /\ both (ok (n + 1)) conn'.
Proof.
  intros He Hc Hlo Hhi. destruct (plain_record_keys e He) as (Hne & Hid & Hvals).
  assert (Hc' : both (ok (n + 1)) conn) by (apply (ok_mono n); [lia|exact Hc]).
  destruct (execute_within (ok (n + 1)) conn (insert_sql (keys e)) (values e) _
              (parse_insert_sql _ (keys_nonempty _ Hne) Hid) Hc') as (c1 & H1 & H2).
  { intros p Hp Hn Hps. destruct Hc as [_ Hv].
    destruct (view conn) as [t|]; [|discriminate]. apply ok_some in Hv. cbn [prepare] in Hp.
    destruct (resolve_all t (keys e)) as [refs| |] eqn:Er; try discriminate.
    cbn [obind] in Hp. rewrite Nat.eqb_refl in Hp. injection Hp as <-. cbn [step].
    pose proof Hv as ((Hwf & _) & Htc & _).
    pose proof (run_insert_within t refs (values e) n Hv Hlo Hhi Hps
                  (resolve_all_fits t e Hwf Htc Hvals refs Er)) as Hr.
    destruct (run_insert t refs (values e)) as [[t' id]| |]; cbn [obind fst]; auto.
    now apply ok_some. }
  unfold insert_employee. destruct (execute conn _ _) as [cur c|err c|]; try discriminate.
  - cbn [left_by] in H1. injection H1 as ->. cbn [bind commit left_by].
    eexists. split; [reflexivity|]. now apply both_commit.
  - cbn [left_by] in H1. injection H1 as ->. cbn [bind left_by]. now exists c1.
Qed.

Lemma update_employee_within (conn : connection) (e : dict) (id : value) (n : Z) :
  plain_record e = true -> no_numeral id = true -> both (ok n) conn ->
  2 ^ 62 <= n ->
  exists conn', left_by (update_employee conn e id) = Some conn' /\ both (ok n) conn'.
Proof.
  intros He Hidv Hc Hlo. destruct (plain_record_keys e He) as (Hne & Hid & Hvals).
  destruct (execute_within (ok n) conn (update_sql (keys e))
              (values e ++ [id])%list _
              (parse_update_sql _ (keys_nonempty _ Hne) Hid) Hc) as (c1 & H1 & H2).
  { intros p Hp Hn Hps. destruct Hc as [_ Hv].
    destruct (view conn) as [t|]; [|discriminate]. apply ok_some in Hv. cbn [prepare] in Hp.
    pose proof Hv as ((Hwf & _) & Htc & _).
    destruct (resolve_all t (keys e)) as [refs| |] eqn:Er; try discriminate.
    cbn [obind] in Hp. rewrite (prepare_by_id t Hwf) in Hp. cbn [obind] in Hp.
    injection Hp as <-. cbn [step].
    assert (Hl : List.length refs = List.length (values e)).
    { unfold resolve_all in Er. rewrite (omap_length _ _ _ Er). unfold keys, values.
      now rewrite !length_map. }
    rewrite Hl, skipn_app, skipn_all, Nat.sub_diag, firstn_app, firstn_all, Nat.sub_diag.
    cbn [skipn firstn app]. rewrite app_nil_r.
    destruct (bind_cond_by_id t id Hidv) as [c' ->]. cbn [obind].
    rewrite forallb_app in Hps. apply andb_prop in Hps as [Hps _].
    pose proof (run_update_within t refs c' (values e) n Hv Hlo Hps
                  (resolve_all_fits t e Hwf Htc Hvals refs Er)) as Hr.
    destruct (run_update t refs c' (values e)) as [t'| |]; cbn [obind no_rows]; auto.
    now apply ok_some. }
  unfold update_employee. destruct (execute conn _ _) as [cur c|err c|]; try discriminate.
  - cbn [left_by] in H1. injection H1 as ->. cbn [bind commit left_by].
    eexists. split; [reflexivity|]. now apply both_commit.
  - cbn [left_by] in H1. injection H1 as ->. cbn [bind left_by]. now exists c1.
Qed.

Lemma delete_employee_within (conn : connection) (id : value) (n : Z) :
  no_numeral id = true -> both (ok n) conn ->
  exists conn', left_by (delete_employee conn id) = Some conn' /\ both (ok n) conn'.
Proof.
  intros Hidv Hc.
  destruct (execute_within (ok n) conn delete_sql [id] _
              parse_delete_sql Hc) as (c1 & H1 & H2).
  { intros p Hp Hn Hps. destruct Hc as [_ Hv].
    destruct (view conn) as [t|]; [|discriminate]. apply ok_some in Hv. cbn [prepare] in Hp.
    pose proof Hv as ((Hwf & _) & _).
    rewrite (prepare_by_id t Hwf) in Hp. cbn [obind] in Hp. injection Hp as <-. cbn [step].
    destruct (bind_cond_by_id t id Hidv) as [c' ->]. cbn [obind no_rows].
    apply ok_some. now apply run_delete_within. }
  unfold delete_employee. destruct (execute conn _ _) as [cur c|err c|]; try discriminate.
  - cbn [left_by] in H1. injection H1 as ->. cbn [bind commit left_by].
    eexists. split; [reflexivity|]. now apply both_commit.
  - cbn [left_by] in H1. injection H1 as ->. cbn [bind left_by]. now exists c1.
Qed.

Lemma select_by_id_answers (conn : connection) (id : value) (n : Z) :
  no_numeral id = true -> both (ok n) conn ->
  execute conn select_by_id_sql [id] <> NoModel.
Proof.
  intros Hidv Hc.
  destruct (execute_within (ok n) conn select_by_id_sql [id] _
              parse_select_by_id_sql Hc) as (c1 & H1 & _).
  { intros p Hp Hn Hps. destruct Hc as [_ Hv].
    destruct (view conn) as [t|]; [|discriminate]. cbn [prepare] in Hp.
    pose proof (proj1 (ok_some n t) Hv) as ((Hwf & _) & _).
    rewrite (prepare_by_id t Hwf) in Hp. cbn [obind] in Hp. injection Hp as <-. cbn [step].
    destruct (bind_cond_by_id t id Hidv) as [c' ->]. cbn [obind]. exact Hv. }
  intros E. rewrite E in H1. discriminate.
Qed.

Lemma filtered_answers (conn : connection) (d lo hi : value) (n : Z) :
  not_float d = true -> no_numeral lo = true -> no_numeral hi = true ->
  both (ok n) conn ->
  execute conn (filter_query (truthy d) (truthy lo) (truthy hi)) (filter_params d lo hi)
  <> NoModel.
Proof.
  intros Hd Hlo Hhi Hc.
  destruct (execute_within (ok n) conn _ (filter_params d lo hi) _
              (parse_filter_query (truthy d) (truthy lo) (truthy hi)) Hc) as (c1 & H1 & _).
  { intros p Hp Hn Hps. destruct Hc as [_ Hv].
    destruct (view conn) as [t|]; [|discriminate]. cbn [prepare] in Hp.
    pose proof (proj1 (ok_some n t) Hv) as ((Hwf & _) & _).
    rewrite (prepare_filter_atoms t _ _ _ Hwf) in Hp. cbn [obind] in Hp.
    injection Hp as <-. cbn [step].
    destruct (bind_cond_filter t d lo hi Hwf Hd Hlo Hhi) as [c' ->]. cbn [obind].
    exact Hv. }
  intros E. rewrite E in H1. discriminate.
Qed.

Lemma add_each_within (n : Z) (cs : list string) :
  forall conn,
    forallb is_ident cs = true -> both (ok n) conn ->
    exists conn', left_by (add_each conn cs) = Some conn' /\ both (ok n) conn'.
Proof.
  induction cs as [|c cs IH]; intros conn Hcs Hc; cbn [add_each].
  - now exists conn.
  - cbn [forallb] in Hcs. apply andb_prop in Hcs as [Hid Hcs].
    destruct (execute_within (ok n) conn (alter_sql c) [] _
                (parse_alter_words c [c] (name_words_ident c Hid)) Hc) as (c1 & H1 & H2).
    { intros p Hp Hn Hps. destruct Hc as [_ Hv].
      destruct (view conn) as [t|]; [|discriminate]. apply ok_some in Hv.
      cbn [prepare] in Hp. injection Hp as <-. cbn [step].
      pose proof (run_alter_within t c n Hid Hv) as Hr.
      destruct (run_alter t (added_column [c])); cbn [obind no_rows]; auto.
      now apply ok_some. }
    destruct (execute conn (alter_sql c) []) as [cur c'|err c'|]; try discriminate;
      cbn [left_by] in H1; injection H1 as ->; cbn [bind].
    + now apply IH.
    + cbn [left_by]. now exists c1.
Qed.

Lemma add_extra_columns_within (n : Z) (cs : list string) (conn : connection) :
  forallb is_ident cs = true -> both (ok n) conn ->
  exists conn', left_by (add_extra_columns conn cs) = Some conn' /\ both (ok n) conn'.
Proof.
  intros Hcs Hc. destruct (add_each_within n cs conn Hcs Hc) as (c1 & H1 & H2).
  unfold add_extra_columns. destruct (add_each conn cs) as [[] c|err c|]; try discriminate;
    cbn [left_by] in H1; injection H1 as ->; cbn [bind commit left_by].
  - eexists. split; [reflexivity|]. now apply both_commit.
  - now exists c1.
Qed.

Lemma create_table_within (n : Z) (conn : connection) :
  both (ok n) conn ->
  exists conn', left_by (create_table conn) = Some conn' /\ both (ok n) conn'.
Proof.
  intros Hc. rewrite create_table_value. cbn [left_by]. eexists. split; [reflexivity|].
  destruct (view conn) as [t|] eqn:Ev; [exact Hc|].
  apply both_set_view; [exact Hc|]. apply ok_some. apply employees0_plain.
Qed.

Lemma do_call_within (c : call) (conn : connection) (n : Z) :
  plain_call c = true -> both (ok n) conn -> 2 ^ 62 <= n -> n < max_int64 ->
  exists conn', do_call c conn = Some conn' /\ both (ok (n + 1)) conn'.
Proof.
  intros Hp Hc Hlo Hhi.
  assert (Hup : forall conn', both (ok n) conn' -> both (ok (n + 1)) conn')
    by (intros conn'; apply ok_mono; lia).
  destruct c; cbn [do_call plain_call] in *.
  - destruct (create_table_within n conn Hc) as (c' & H1 & H2). exists c'. auto.
  - now apply insert_employee_within.
  - apply andb_prop in Hp as [H1 H2].
    destruct (update_employee_within conn employee employee_id n H1 H2 Hc Hlo)
      as (c' & H3 & H4). exists c'. auto.
  - destruct (delete_employee_within conn id n Hp Hc) as (c' & H3 & H4). exists c'. auto.
  - destruct (query_within (ok n) conn select_all_sql [] _ fetched
                parse_select_all_sql I Hc (select_all_answers conn)) as (c' & H3 & H4).
    exists c'. auto.
  - destruct (query_within (ok n) conn select_by_id_sql [id] _
                (fun cur => hd_error (fetched cur))
                parse_select_by_id_sql I Hc (select_by_id_answers conn id n Hp Hc))
      as (c' & H3 & H4). exists c'. auto.
  - apply andb_prop in Hp as [Hp H3]. apply andb_prop in Hp as [H1 H2].
    rewrite select_employees_filtered_unfold.
    destruct (query_within (ok n) conn _ (filter_params department min_salary max_salary)
                _ fetched (parse_filter_query _ _ _) I Hc
                (filtered_answers conn _ _ _ n H1 H2 H3 Hc)) as (c' & H4 & H5).
    exists c'. auto.
  - destruct (add_extra_columns_within n columns conn Hp Hc) as (c' & H3 & H4).
    exists c'. auto.
  - unfold get_columns.
    destruct (query_within (ok n) conn pragma_sql [] _
                (fun cur => map (fun info => nth 1 info Null)
                                (filter (fun info => negb (py_eq (nth 1 info Null) (Text "id")))
                                        (fetched cur)))
                parse_pragma_sql I Hc (pragma_answers conn)) as (c' & H3 & H4).
    exists c'. auto.
  - eexists. split; [reflexivity|]. apply Hup. destruct Hc as [H1 _]. split; exact H1.
Qed.

Lemma do_calls_within (cs : list call) :
  forall conn n,
    forallb plain_call cs = true -> both (ok n) conn ->
    2 ^ 62 <= n -> n + Z.of_nat (List.length cs) <= max_int64 ->
    exists conn', do_calls cs conn = Some conn'
                  /\ both (ok (n + Z.of_nat (List.length cs))) conn'.
Proof.
  induction cs as [|c cs IH]; intros conn n Hp Hc Hlo Hhi.
  - exists conn. split; [reflexivity|]. cbn [List.length Z.of_nat]. now rewrite Z.add_0_r.
  - cbn [forallb] in Hp. apply andb_prop in Hp as [Hp Hps].
    cbn [List.length] in *. rewrite Nat2Z.inj_succ in *.
    destruct (do_call_within c conn n Hp Hc Hlo) as (c1 & H1 & H2); [lia|].
    destruct (IH c1 (n + 1) Hps H2) as (c2 & H3 & H4); [lia|lia|].
    exists c2. cbn [do_calls]. rewrite H1. split; [exact H3|].
    replace (n + Z.succ (Z.of_nat (List.length cs)))
      with (n + 1 + Z.of_nat (List.length cs)) by lia.
    exact H4.
Qed.

End Within.

(** * The store across calls: what holds after any calls with plain arguments *)




Lemma sound_row_shape (t : table) (r : row) :
  sound_table t -> In r (rows t) -> record_shape (output_row r).
Proof.
  intros [Hwf Hrec] Hr. unfold records_ok in Hrec. rewrite Forall_forall in Hrec.
  specialize (Hrec r Hr). destruct (et_base _ Hwf) as [extra E]. rewrite E in Hrec.
  unfold output_row, record_shape. destruct (snd r) as [|v1 [|v2 vs]]; try discriminate.
  - cbn in Hrec. now rewrite andb_false_r in Hrec.
  - cbn in Hrec. destruct v1, v2; cbn in Hrec; try discriminate; exact I.
Qed.

(** X2.  Once [create_table] has run on a new database, and whatever calls
    with plain arguments follow it, fewer than 2^62 of them, the calls all
    return or raise, and after them [select_all_employees] returns,
    changing nothing; its records come in strictly ascending order of
    identifier, so no identifier occurs twice; each starts with an integer
    identifier, a name and a department that are text; and each has one
    field for [id] and one for each name that [get_columns] returns, which
    is what the table built from them needs. *)
Theorem records_well_formed (cs : list call) :
  forallb plain_call cs = true -> Z.of_nat (List.length cs) < 2 ^ 62 ->
  exists conn rs columns,
    do_calls (CreateTable :: cs) create_connection = Some conn /\
    select_all_employees conn = Return rs conn /\
    get_columns conn = Return columns conn /\
    StronglySorted Z.lt (map record_id rs) /\
    Forall record_shape rs /\
    Forall (fun r => List.length r = List.length (Text "id" :: columns)) rs.
Proof.
  intros Hp Hlen. cbn [do_calls do_call]. rewrite create_table_new. cbn [left_by].
  destruct (do_calls_within plain_stored (fun n t => iff_refl _) (fun _ _ H => False_ind _ H)
              cs (open_db employees0) (2 ^ 62) Hp) as (conn & H1 & _ & H2).
  - split; apply employees0_plain.
  - lia.
  - unfold max_int64. lia.
  - destruct (view conn) as [t|] eqn:Ev; [|contradiction].
    cbn [plain_stored] in H2. destruct H2 as (Hs & _). pose proof Hs as [Hwf Hrec].
    exists conn, (map output_row (rows t)), (map Text (attributes t)).
    repeat apply conj.
    + exact H1.
    + now apply select_all_rows.
    + now apply get_columns_attributes.
    + rewrite map_map. cbn [output_row record_id]. apply (et_sorted _ Hwf).
    + apply Forall_forall. intros x Hx. apply in_map_iff in Hx as (r & <- & Hr).
      now apply (sound_row_shape t).
    + apply Forall_forall. intros x Hx. apply in_map_iff in Hx as (r & <- & Hr).
      pose proof (et_width _ Hwf) as Hw. rewrite Forall_forall in Hw.
      cbn [output_row List.length]. unfold attributes. now rewrite !length_map, (Hw r Hr).
Qed.

(** X2, at work: after two insertions, a new column and an update that
    moves the first record behind the second. *)
Lemma records_well_formed_witness :
  exists conn rs columns,
    do_calls [CreateTable; InsertEmployee ana; InsertEmployee bo; AddExtraColumns ["bonus"];
              UpdateEmployee [("id", Integer 5)] (Integer 1)] create_connection
    = Some conn /\
    select_all_employees conn = Return rs conn /\
    get_columns conn = Return columns conn /\
    StronglySorted Z.lt (map record_id rs) /\
    Forall record_shape rs /\
    Forall (fun r => List.length r = List.length (Text "id" :: columns)) rs.
Proof.
  apply (records_well_formed
           [InsertEmployee ana; InsertEmployee bo; AddExtraColumns ["bonus"];
            UpdateEmployee [("id", Integer 5)] (Integer 1)]).
  - vm_compute. reflexivity.
  - vm_compute. reflexivity.
Defined.

(** * [create_table], whatever the connection holds *)

(** X3.  [create_table] returns on every connection, and never raises.
    Where the connection sees a table already, whatever its columns and
    rows, nothing changes at all; where it sees none, the table of
    [create_table] is there afterwards, empty.  Called again right after, it
    changes nothing. *)
Theorem create_table_idempotent (conn : connection) :
  exists conn',
    create_table conn = Return tt conn' /\
    match view conn with
    | Some _ => conn' = conn
    | None => view conn' = Some employees0
    end /\
    create_table conn' = Return tt conn'.
Proof.
  rewrite create_table_value. eexists. split; [reflexivity|].
  destruct (view conn) as [t|] eqn:Ev.
  - split; [reflexivity|]. now rewrite create_table_value, Ev.
  - split; [apply view_set_view|]. now rewrite create_table_value, view_set_view.
Qed.

(** * New columns *)

(** X4.  [add_extra_columns] with plain names that differ, case ignored,
    from [id], from the attributes and from each other, while the table has
    room for them, returns with everything committed, and [get_columns]
    then returns the attributes it returned before followed by the new
    names, in the order given.  Before and after, its list starts with
    [name], [department], [salary] and does not hold [id]. *)
Theorem added_columns_are_listed (conn : connection) (t : table) (cs : list string) :
  view conn = Some t -> employees_table t -> idents cs ->
  distinct_names ((pkname t :: attributes t) ++ cs) = true ->
  (column_count t + List.length cs <= max_columns)%nat ->
  exists conn' extra,
    get_columns conn
    = Return (map Text ("name" :: "department" :: "salary" :: extra)) conn /\
    add_extra_columns conn cs = Return tt conn' /\
    pending conn' = None /\
    get_columns conn'
    = Return (map Text (("name" :: "department" :: "salary" :: extra) ++ cs)) conn' /\
    ~ In "id" (("name" :: "department" :: "salary" :: extra) ++ cs).
Proof.
  intros Hv Hwf Hid Hd Hn.
  pose proof (with_columns_table t cs Hwf Hid Hd) as Hwf'.
  destruct (et_base _ Hwf) as [extra E].
  assert (Ha : attributes t = "name" :: "department" :: "salary" :: map cname extra).
  { unfold attributes. rewrite E, map_app. reflexivity. }
  exists (open_db (with_columns t cs)), (map cname extra).
  rewrite <- Ha. repeat apply conj.
  - now apply get_columns_attributes.
  - now apply add_extra_columns_new.
  - reflexivity.
  - rewrite (get_columns_attributes (open_db (with_columns t cs)) (with_columns t cs) eq_refl Hwf').
    do 2 f_equal. unfold attributes, with_columns. cbn [cols].
    rewrite map_app, map_map. cbn [text_column cname]. now rewrite map_id.
  - intros Hin. rewrite (et_pk _ Hwf) in Hd. cbn [app distinct_names] in Hd.
    apply andb_prop in Hd as [Hd _]. apply negb_true_iff in Hd.
    assert (existsb (ieq "id") (attributes t ++ cs) = true); [|congruence].
    apply existsb_exists. exists "id". split; [exact Hin|reflexivity].
Qed.

(** X4, at work: [bonus] and [grade] on the table of two employees. *)
Lemma added_columns_are_listed_witness :
  exists conn' extra,
    get_columns (open_db employees2)
    = Return (map Text ("name" :: "department" :: "salary" :: extra)) (open_db employees2) /\
    add_extra_columns (open_db employees2) ["bonus"; "grade"] = Return tt conn' /\
    pending conn' = None /\
    get_columns conn'
    = Return (map Text (("name" :: "department" :: "salary" :: extra) ++ ["bonus"; "grade"]))
             conn' /\
    ~ In "id" (("name" :: "department" :: "salary" :: extra) ++ ["bonus"; "grade"]).
Proof.
  apply (added_columns_are_listed (open_db employees2) employees2 ["bonus"; "grade"]).
  - reflexivity.
  - exact employees2_ok.
  - repeat constructor.
  - reflexivity.
  - unfold column_count, max_columns. cbn. lia.
Defined.

(** X5.  After [add_extra_columns] with such names, every record that was
    stored reads None in each new column and is otherwise as it was:
    [select_all_employees] returns the records it returned before, in the
    same order, each followed by one None for each new name. *)
Theorem added_columns_read_null (conn : connection) (t : table) (cs : list string) :
  view conn = Some t -> employees_table t -> idents cs ->
  distinct_names ((pkname t :: attributes t) ++ cs) = true ->
  (column_count t + List.length cs <= max_columns)%nat ->
  exists conn' before,
    select_all_employees conn = Return before conn /\
    add_extra_columns conn cs = Return tt conn' /\
    select_all_employees conn'
    = Return (map (fun r => r ++ repeat Null (List.length cs))%list before) conn'.
Proof.
  intros Hv Hwf Hid Hd Hn.
  exists (open_db (with_columns t cs)), (map output_row (rows t)).
  repeat apply conj.
  - now apply select_all_rows.
  - now apply add_extra_columns_new.
  - rewrite (select_all_rows (open_db (with_columns t cs)) (with_columns t cs) eq_refl).
    unfold with_columns. cbn [rows]. now rewrite !map_map.
Qed.

(** X5, at work: [nickname] on the table of two employees. *)
Lemma added_columns_read_null_witness :
  exists conn' before,
    select_all_employees (open_db employees2) = Return before (open_db employees2) /\
    add_extra_columns (open_db employees2) ["nickname"] = Return tt conn' /\
    select_all_employees conn'
    = Return (map (fun r => r ++ repeat Null (List.length ["nickname"]))%list before) conn'.
Proof.
  apply (added_columns_read_null (open_db employees2) employees2 ["nickname"]).
  - reflexivity.
  - exact employees2_ok.
  - repeat constructor.
  - reflexivity.
  - unfold column_count, max_columns. cbn. lia.
Defined.

(** * One record inserted, deleted, updated *)



(** X7.  [delete_employee] removes the record with the identifier and
    nothing else: [select_all_employees] then returns the records it
    returned before without that one, the others unchanged and in the same
    order; when no record has the identifier, it returns them all. *)
Theorem delete_removes_one_record (conn : connection) (t : table) (id : Z) :
  view conn = Some t -> employees_table t -> in_int64 (Integer id) = true ->
  exists conn1 before,
    select_all_employees conn = Return before conn /\
    delete_employee conn (Integer id) = Return tt conn1 /\
    select_all_employees conn1
    = Return (filter (fun r => negb (record_id r =? id)) before) conn1 /\
    (List.length before
     <= S (List.length (filter (fun r => negb (record_id r =? id)%Z) before)))%nat /\
    ((forall r, In r before -> record_id r <> id) ->
     filter (fun r => negb (record_id r =? id)) before = before).
Proof.
  intros Hv Hwf Hid.
  exists (open_db (without t id)), (map output_row (rows t)).
  assert (Hf : filter (fun r => negb (record_id r =? id)) (map output_row (rows t))
               = map output_row (filter (fun r => negb (fst r =? id)) (rows t))).
  { apply filter_output_rows. }
  repeat apply conj.
  - now apply select_all_rows.
  - apply delete_employee_record; [assumption|apply (et_pk _ Hwf)|assumption].
  - rewrite (select_all_rows (open_db (without t id)) (without t id) eq_refl).
    now rewrite Hf.
  - rewrite Hf, !length_map.
    pose proof (et_sorted _ Hwf) as Hs. clear - Hs.
    induction (rows t) as [|r rs IH]; [cbn; lia|].
    cbn [map] in Hs. inversion Hs as [|? ? Hs' Hall]; subst.
    cbn [filter]. destruct (Z.eqb_spec (fst r) id) as [Heq|Hne]; cbn [negb List.length].
    + rewrite filter_all; [lia|]. intros x Hx. rewrite Forall_forall in Hall.
      apply negb_true_iff, Z.eqb_neq. specialize (Hall (fst x) (in_map fst _ _ Hx)). lia.
    + specialize (IH Hs'). lia.
  - intros Hno. apply filter_all. intros x Hx. apply negb_true_iff, Z.eqb_neq.
    now apply Hno.
Qed.

(** X7, at work: the first of two employees. *)
Lemma delete_removes_one_record_witness :
  exists conn1 before,
    select_all_employees (open_db employees2) = Return before (open_db employees2) /\
    delete_employee (open_db employees2) (Integer 1) = Return tt conn1 /\
    select_all_employees conn1
    = Return (filter (fun r => negb (record_id r =? 1)) before) conn1 /\
    (List.length before
     <= S (List.length (filter (fun r => negb (record_id r =? 1)%Z) before)))%nat /\
    ((forall r, In r before -> record_id r <> 1) ->
     filter (fun r => negb (record_id r =? 1)) before = before).
Proof.
  apply (delete_removes_one_record (open_db employees2) employees2 1).
  - reflexivity.
  - exact employees2_ok.
  - reflexivity.
Defined.

(** X8.  [update_employee] on the identifier of a stored record, with a
    record whose keys are attributes, no key twice, and whose values the
    columns take (no None for [name] or [department]), returns, and
    afterwards [select_employee_by_id] returns that record with the same
    identifier, each attribute the record names holding what its column
    keeps of the new value, every other attribute holding what it held;
    [select_all_employees] returns the records it returned before, in the
    same order, all but this one unchanged. *)
Theorem update_overwrites_named_attributes
        (conn : connection) (t : table) (e : dict) (id : Z) (vs : list value) :
  view conn = Some t -> sound_table t ->
  e <> [] -> NoDup (keys e) -> incl (keys e) (attributes t) ->
  assignable t e = true ->
  forallb in_int64 (values e) = true ->
  In (id, vs) (rows t) ->
  exists conn1 before,
    select_all_employees conn = Return before conn /\
    update_employee conn e (Integer id) = Return tt conn1 /\
    select_employee_by_id conn1 (Integer id)
    = Return (Some (Integer id :: updated_values (cols t) e vs)) conn1 /\
    select_all_employees conn1
    = Return (map (fun r => if record_id r =? id
                            then Integer id :: updated_values (cols t) e vs
                            else r) before) conn1 /\
    (forall i c, nth_error (cols t) i = Some c ->
                 nth_error (updated_values (cols t) e vs) i
                 = match lookup (cname c) e with
                   | Some x => Some (stored (caff c) x)
                   | None => nth_error vs i
                   end).
Proof.
  intros Hv Hs Hne Hnd Hin Ha Hv64 Hrow. pose proof Hs as [Hwf Hrec].
  assert (Hid : in_int64 (Integer id) = true).
  { pose proof (et_rowids _ Hwf) as H. rewrite Forall_forall in H. apply (H _ Hrow). }
  exists (open_db (updated t e id)), (map output_row (rows t)).
  repeat apply conj.
  - now apply select_all_rows.
  - now apply update_employee_record.
  - rewrite (select_by_id_rows (open_db (updated t e id)) (updated t e id) id eq_refl
               (et_pk _ Hwf) Hid).
    unfold updated. cbn [rows].
    rewrite (filter_map_fst _ _ id) by (intros r; now destruct (fst r =? id)).
    pose proof (filter_by_id_sorted _ _ (et_sorted _ Hwf) Hrow) as H1.
    cbn [fst] in H1. rewrite H1.
    cbn [map fst snd hd_error output_row]. now rewrite Z.eqb_refl.
  - rewrite (select_all_rows (open_db (updated t e id)) (updated t e id) eq_refl).
    unfold updated. cbn [rows]. rewrite !map_map. f_equal.
    apply map_ext_in. intros r Hr. cbn [output_row record_id].
    destruct (Z.eqb_spec (fst r) id) as [Heq|]; [|reflexivity].
    cbn [output_row fst snd]. rewrite Heq. do 2 f_equal.
    assert (r = (id, vs)); [|now subst r].
    pose proof (filter_by_id_sorted _ _ (et_sorted _ Hwf) Hrow) as H1.
    pose proof (filter_by_id_sorted _ _ (et_sorted _ Hwf) Hr) as H2.
    cbn [fst] in H1. rewrite Heq, H1 in H2. now injection H2.
  - pose proof (et_width _ Hwf) as Hw. rewrite Forall_forall in Hw.
    specialize (Hw _ Hrow). cbn [snd] in Hw. clear - Hw.
    revert vs Hw. induction (cols t) as [|c cs IH]; intros vs Hw i c' Hi.
    + now destruct i.
    + destruct vs as [|v vs]; [discriminate|]. cbn [updated_values].
      destruct i as [|i]; cbn [nth_error] in *.
      * injection Hi as <-. now destruct (lookup (cname c) e).
      * apply IH; [|exact Hi]. cbn [List.length] in Hw. lia.
Qed.

(** X8, at work: a new salary for the second of two employees. *)
Lemma update_overwrites_named_attributes_witness :
  exists conn1 before,
    select_all_employees (open_db employees2) = Return before (open_db employees2) /\
    update_employee (open_db employees2) [("salary", Integer 90000)] (Integer 2)
    = Return tt conn1 /\
    select_employee_by_id conn1 (Integer 2)
    = Return (Some (Integer 2 :: updated_values (cols employees2)
                                   [("salary", Integer 90000)] bo_row)) conn1 /\
    select_all_employees conn1
    = Return (map (fun r => if record_id r =? 2
                            then Integer 2 :: updated_values (cols employees2)
                                                [("salary", Integer 90000)] bo_row
                            else r) before) conn1 /\
    (forall i c, nth_error (cols employees2) i = Some c ->
                 nth_error (updated_values (cols employees2)
                              [("salary", Integer 90000)] bo_row) i
                 = match lookup (cname c) [("salary", Integer 90000)] with
                   | Some x => Some (stored (caff c) x)
                   | None => nth_error bo_row i
                   end).
Proof.
  apply (update_overwrites_named_attributes (open_db employees2) employees2
           [("salary", Integer 90000)] 2 bo_row).
  - reflexivity.
  - split; [exact employees2_ok|repeat constructor].
  - discriminate.
  - constructor; [intros []|constructor].
  - intros k [<-|[]]. vm_compute. tauto.
  - reflexivity.
  - reflexivity.
  - right. left. reflexivity.
Defined.

(** * Identifiers *)



(** X10.  [select_employee_by_id] agrees with [select_all_employees]: it
    returns the record of that list whose identifier is the one asked for,
    None when there is none; and the list has at most one such record. *)
Theorem select_by_id_is_lookup (conn : connection) (t : table) (id : Z) :
  view conn = Some t -> employees_table t -> in_int64 (Integer id) = true ->
  exists all,
    select_all_employees conn = Return all conn /\
    select_employee_by_id conn (Integer id)
    = Return (find (fun r => record_id r =? id) all) conn /\
    (List.length (filter (fun r => (record_id r =? id)%Z) all) <= 1)%nat.
Proof.
  intros Hv Hwf Hid. exists (map output_row (rows t)). repeat apply conj.
  - now apply select_all_rows.
  - rewrite (select_by_id_rows conn t id Hv (et_pk _ Hwf) Hid).
    now rewrite hd_error_filter_map.
  - pose proof (et_sorted _ Hwf) as Hs. clear - Hs.
    induction (rows t) as [|r rs IH]; [cbn; lia|].
    cbn [map] in Hs. inversion Hs as [|? ? Hs' Hall]; subst.
    cbn [map filter output_row record_id].
    destruct (Z.eqb_spec (fst r) id) as [Heq|Hne]; [|now apply IH].
    cbn [List.length]. replace (filter _ (map output_row rs)) with (@nil (list value));
      [cbn; lia|].
    symmetry. clear - Hall Heq. rewrite Forall_forall in Hall.
    induction rs as [|x rs IH]; [reflexivity|].
    cbn [map filter output_row record_id].
    assert (fst r < fst x) by (apply Hall; cbn; now left).
    destruct (Z.eqb_spec (fst x) id); [lia|].
    apply IH. intros z Hz. apply Hall. cbn. now right.
Qed.

(** X10, at work: identifier 2 on the table of two employees. *)
Lemma select_by_id_is_lookup_witness :
  exists all,
    select_all_employees (open_db employees2) = Return all (open_db employees2) /\
    select_employee_by_id (open_db employees2) (Integer 2)
    = Return (find (fun r => record_id r =? 2) all) (open_db employees2) /\
    (List.length (filter (fun r => (record_id r =? 2)%Z) all) <= 1)%nat.
Proof.
  apply (select_by_id_is_lookup (open_db employees2) employees2 2).
  - reflexivity.
  - exact employees2_ok.
  - reflexivity.
Defined.

(** X11.  The four reading functions, [select_all_employees],
    [select_employee_by_id], [select_employees_filtered] and
    [get_columns], leave the connection exactly as they found it, whatever
    their arguments and whether they return or raise: nothing is written,
    no transaction is opened and none is committed. *)
Theorem queries_change_nothing (conn : connection) (id d lo hi : value) :
  unchanged_by conn (select_all_employees conn) /\
  unchanged_by conn (select_employee_by_id conn id) /\
  unchanged_by conn (select_employees_filtered conn d lo hi) /\
  unchanged_by conn (get_columns conn).
Proof.
  repeat apply conj.
  - apply (bind_query_unchanged conn _ _ _ _ parse_select_all_sql I).
  - apply (bind_query_unchanged conn _ _ _ _ parse_select_by_id_sql I).
  - rewrite select_employees_filtered_unfold.
    apply (bind_query_unchanged conn _ _ _ _ (parse_filter_query _ _ _) I).
  - apply (bind_query_unchanged conn _ _ _ _ parse_pragma_sql I).
Qed.

(** X12.  An identifier that does not fit in 64 bits is refused when it is
    bound: [select_employee_by_id], [delete_employee] and
    [update_employee] raise OverflowError, which is no [sqlite3.Error], and
    the store is as before. *)
Theorem oversized_identifier_rejected (conn : connection) (t : table) (z : Z) :
  view conn = Some t -> employees_table t -> in_int64 (Integer z) = false ->
  select_employee_by_id conn (Integer z) = Raised OverflowError conn /\
  is_sqlite_error OverflowError = false /\
  (exists conn',
      delete_employee conn (Integer z) = Raised OverflowError conn' /\
      view conn' = view conn /\ committed conn' = committed conn) /\
  (forall e, e <> [] -> incl (keys e) (attributes t) ->
     exists conn',
       update_employee conn e (Integer z) = Raised OverflowError conn' /\
       view conn' = view conn /\ committed conn' = committed conn).
Proof.
  intros Hv Hwf Hz.
  destruct (execute_overflow_by_id conn t z Hv (et_pk _ Hwf) Hz) as [H1 H2].
  repeat apply conj.
  - unfold select_employee_by_id. now rewrite H1.
  - reflexivity.
  - exists (begin conn). unfold delete_employee. rewrite H2.
    repeat split; [apply view_begin|apply committed_begin].
  - intros e Hne Hin. exists (begin conn). unfold update_employee.
    rewrite (execute_update_overflow conn t e z Hv Hwf Hne Hin Hz).
    repeat split; [apply view_begin|apply committed_begin].
Qed.

(** X12, at work: the identifier 2^63. *)
Lemma oversized_identifier_rejected_witness :
  select_employee_by_id (open_db employees2) (Integer (2 ^ 63))
  = Raised OverflowError (open_db employees2) /\
  is_sqlite_error OverflowError = false /\
  (exists conn',
      delete_employee (open_db employees2) (Integer (2 ^ 63)) = Raised OverflowError conn' /\
      view conn' = view (open_db employees2) /\
      committed conn' = committed (open_db employees2)) /\
  (forall e, e <> [] -> incl (keys e) (attributes employees2) ->
     exists conn',
       update_employee (open_db employees2) e (Integer (2 ^ 63))
       = Raised OverflowError conn' /\
       view conn' = view (open_db employees2) /\
       committed conn' = committed (open_db employees2)).
Proof.
  apply (oversized_identifier_rejected (open_db employees2) employees2 (2 ^ 63)).
  - reflexivity.
  - exact employees2_ok.
  - reflexivity.
Defined.

(** X13.  The identifier is the caller's to choose: a record with the key
    [id] is inserted under the integer it gives there when no stored record
    has it, and [select_employee_by_id] finds it under that identifier;
    when a stored record has it, [insert_employee] raises IntegrityError
    and the store is as before. *)
Theorem insert_under_chosen_identifier
        (conn : connection) (t : table) (e : dict) (k : Z) :
  view conn = Some t -> employees_table t ->
  incl (keys e) (attributes t) ->
  forallb (accepts e) (cols t) = true ->
  forallb in_int64 (values e) = true -> in_int64 (Integer k) = true ->
  exists conn1,
    if has_rowid (rows t) k
    then insert_employee conn (("id", Integer k) :: e) = Raised IntegrityError conn1 /\
         view conn1 = view conn /\ committed conn1 = committed conn
    else insert_employee conn (("id", Integer k) :: e) = Return (Some k) conn1 /\
         select_employee_by_id conn1 (Integer k)
         = Return (Some (Integer k :: map (fun c => stored (caff c) (field e c)) (cols t)))
                  conn1.
Proof.
  intros Hv Hwf Hin Ha Hv64 Hk.
  pose proof (execute_insert_as conn t e k Hv Hwf Hin Ha Hv64 Hk) as He.
  destruct (has_rowid (rows t) k) eqn:Eh.
  - exists (begin conn). rewrite insert_employee_execute, He.
    repeat split; [apply view_begin|apply committed_begin].
  - exists (open_db (inserted_as t k e)). rewrite insert_employee_execute, He.
    cbn [lastrowid]. rewrite view_set_view_begin. split; [reflexivity|].
    apply (select_by_id_inserted_as t e k (et_pk _ Hwf) Hk Eh).
Qed.

(** X13, at work: Ana under the identifier 7, on the table of two
    employees. *)
Lemma insert_under_chosen_identifier_witness :
  exists conn1,
    insert_employee (open_db employees2) (("id", Integer 7) :: ana) = Return (Some 7) conn1 /\
    select_employee_by_id conn1 (Integer 7)
    = Return (Some (Integer 7 :: map (fun c => stored (caff c) (field ana c))
                                     (cols employees2))) conn1.
Proof.
  apply (insert_under_chosen_identifier (open_db employees2) employees2 ana 7).
  - reflexivity.
  - exact employees2_ok.
  - intros k [<-|[<-|[<-|[]]]]; vm_compute; tauto.
  - reflexivity.
  - reflexivity.
  - reflexivity.
Defined.

(** * [split] and [strip] *)

Lemma split_nonempty (sep : ascii) (s : string) : split sep s <> [].
Proof.
  induction s as [|c s IH]; cbn [split]; [discriminate|].
  destruct (c =? sep)%char; [discriminate|]. now destruct (split sep s).
Qed.

Lemma split_no_comma (c : string) : no_comma c = true -> split "," c = [c].
Proof.
  induction c as [|a c IH]; intros H; [reflexivity|].
  cbn [no_comma all_chars] in H. apply andb_prop in H as [Ha Hc].
  cbn [split]. apply negb_true_iff in Ha. rewrite Ha.
  unfold no_comma in IH. now rewrite (IH Hc).
Qed.

Lemma split_app_comma (c rest : string) :
  no_comma c = true -> split "," (c ++ String "," rest) = c :: split "," rest.
Proof.
  induction c as [|a c IH]; intros H.
  - reflexivity.
  - cbn [no_comma all_chars] in H. apply andb_prop in H as [Ha Hc].
    cbn [append split]. apply negb_true_iff in Ha. rewrite Ha.
    unfold no_comma in IH. now rewrite (IH Hc).
Qed.

Lemma split_join (cs : list string) :
  cs <> [] -> forallb no_comma cs = true -> split "," (join "," cs) = cs.
Proof.
  induction cs as [|c cs IH]; intros Hne H; [congruence|].
  cbn [forallb] in H. apply andb_prop in H as [Hc Hcs].
  destruct cs as [|c2 cs].
  - cbn. now apply split_no_comma.
  - change (join "," (c :: c2 :: cs)) with (c ++ String "," (join "," (c2 :: cs))).
    rewrite (split_app_comma _ _ Hc), IH; [reflexivity|discriminate|assumption].
Qed.

Lemma lstrip_spaces (l x : string) :
  all_chars py_space l = true -> lstrip (l ++ x) = lstrip x.
Proof.
  induction l as [|a l IH]; intros H; [reflexivity|].
  cbn [all_chars] in H. apply andb_prop in H as [Ha Hl].
  cbn [append lstrip]. rewrite Ha. now apply IH.
Qed.

Lemma lstrip_all_spaces (r : string) : all_chars py_space r = true -> lstrip r = EmptyString.
Proof.
  induction r as [|a r IH]; intros H; [reflexivity|].
  cbn [all_chars] in H. apply andb_prop in H as [Ha Hr].
  cbn [lstrip]. rewrite Ha. now apply IH.
Qed.

Lemma rstrip_all_spaces (r : string) : all_chars py_space r = true -> rstrip r = EmptyString.
Proof.
  induction r as [|a r IH]; intros H; [reflexivity|].
  cbn [all_chars] in H. apply andb_prop in H as [Ha Hr].
  cbn [rstrip]. now rewrite (IH Hr), Ha.
Qed.

Lemma rstrip_spaces (x r : string) :
  all_chars py_space r = true -> rstrip (x ++ r) = rstrip x.
Proof.
  intros H. induction x as [|a x IH].
  - cbn [append rstrip]. now apply rstrip_all_spaces.
  - cbn [append rstrip]. now rewrite IH.
Qed.

Lemma lstrip_fixed_app (c r : string) :
  lstrip c = c -> c <> EmptyString -> lstrip (c ++ r) = c ++ r.
Proof.
  destruct c as [|a c]; intros H Hne; [congruence|].
  cbn [lstrip append] in *. destruct (py_space a) eqn:Ea; [|reflexivity].
  exfalso. assert (Hlen : (String.length (lstrip c) <= String.length c)%nat).
  { clear. induction c as [|b c IH]; [cbn; lia|]. cbn [lstrip].
    destruct (py_space b); cbn [String.length]; lia. }
  rewrite H in Hlen. cbn [String.length] in Hlen. lia.
Qed.

Lemma strip_padded (l c r : string) :
  all_chars py_space l = true -> all_chars py_space r = true -> trimmed c ->
  strip (l ++ c ++ r) = c.
Proof.
  intros Hl Hr [H1 H2]. unfold strip. rewrite (lstrip_spaces _ _ Hl).
  destruct c as [|a c].
  - cbn [append]. now rewrite (lstrip_all_spaces _ Hr).
  - rewrite (lstrip_fixed_app _ r H1) by discriminate.
    now rewrite (rstrip_spaces _ _ Hr).
Qed.

Lemma word_not_space (a : ascii) : word_char a = true -> py_space a = false.
Proof.
  destruct a as [[] [] [] [] [] [] [] []]; vm_compute; intros H;
    first [reflexivity | discriminate H].
Qed.

Lemma word_trimmed (c : string) : all_chars word_char c = true -> trimmed c.
Proof.
  intros H. split.
  - destruct c as [|a c]; [reflexivity|]. cbn [all_chars] in H.
    apply andb_prop in H as [Ha _]. cbn [lstrip]. now rewrite (word_not_space a Ha).
  - induction c as [|a c IH]; [reflexivity|]. cbn [all_chars] in H.
    apply andb_prop in H as [Ha Hc]. cbn [rstrip]. rewrite (IH Hc).
    destruct c; [now rewrite (word_not_space a Ha)|reflexivity].
Qed.

Lemma word_no_comma (c : string) : all_chars word_char c = true -> no_comma c = true.
Proof.
  induction c as [|a c IH]; intros H; [reflexivity|].
  cbn [all_chars] in H. apply andb_prop in H as [Ha Hc].
  cbn [no_comma all_chars]. unfold no_comma in IH. rewrite (IH Hc), andb_true_r.
  clear - Ha. destruct a as [[] [] [] [] [] [] [] []]; vm_compute in *;
    first [reflexivity | discriminate Ha].
Qed.

(** * The forms *)

Lemma dict_set_fresh (k : string) (v : value) (d : dict) :
  ~ In k (keys d) -> dict_set k v d = (d ++ [(k, v)])%list.
Proof.
  induction d as [|[k' v'] d IH]; intros H; [reflexivity|].
  cbn [dict_set app]. cbn [keys map fst] in H.
  destruct (String.eqb_spec k' k) as [->|_]; [exfalso; apply H; now left|].
  rewrite IH; [reflexivity|]. intros Hin. apply H. now right.
Qed.

Lemma distinct_names_nodup (ns : list string) : distinct_names ns = true -> NoDup ns.
Proof.
  induction ns as [|n ns IH]; intros H; [constructor|].
  cbn [distinct_names] in H. apply andb_prop in H as [H1 H2].
  constructor; [|now apply IH].
  intros Hin. apply negb_true_iff in H1.
  assert (existsb (ieq n) ns = true); [|congruence].
  apply existsb_exists. exists n. split; [assumption|apply ieq_refl].
Qed.

Lemma attributes_nodup (t : table) : employees_table t -> NoDup (attributes t).
Proof.
  intros Hwf. pose proof (et_distinct _ Hwf) as H. cbn [distinct_names] in H.
  apply andb_prop in H as [_ H]. now apply distinct_names_nodup.
Qed.

Lemma keys_app (a b : dict) : keys (a ++ b)%list = (keys a ++ keys b)%list.
Proof. unfold keys. apply map_app. Qed.

Lemma keys_add_form (w : widgets) (names : list string) : keys (add_form w names) = names.
Proof. unfold keys, add_form. rewrite map_map. cbn [fst]. apply map_id. Qed.

Lemma add_fields_form (w : widgets) (names : list string) :
  forall d0,
    NoDup names -> (forall k, In k names -> ~ In k (keys d0)) ->
    add_fields w (map Text names) d0 = ret (d0 ++ add_form w names)%list.
Proof.
  induction names as [|n names IH]; intros d0 Hnd Hfresh.
  - cbn. now rewrite app_nil_r.
  - inversion Hnd as [|? ? Hn Hnd']; subst. cbn [map add_fields].
    rewrite dict_set_fresh by (apply Hfresh; now left).
    rewrite IH; [|assumption|].
    + cbn [add_form map]. now rewrite <- app_assoc.
    + intros k Hk. rewrite keys_app. cbn [keys map fst app]. intros Hin.
      apply in_app_or in Hin as [Hin|[<-|[]]].
      * apply (Hfresh k); [now right|assumption].
      * contradiction.
Qed.

Lemma keys_update_form (w : widgets) (names : list string) (fields : list value) :
  List.length names = List.length fields -> keys (update_form w names fields) = names.
Proof.
  intros H. unfold keys, update_form. rewrite map_map. cbn [fst].
  revert fields H. induction names as [|n names IH]; intros [|f fields] H;
    try discriminate; [reflexivity|].
  cbn [combine map fst]. f_equal. apply IH. now injection H.
Qed.

Lemma and_then_ret {A B} (a : A) (k : A -> ui B) : and_then (ret a) k = k a.
Proof. reflexivity. Qed.

Lemma salary_input_taken (w : widgets) (label : string) (v : value) :
  start_taken v = true -> salary_input w label v = ret (number_input w label (Some v)).
Proof.
  destruct v; cbn [start_taken salary_input]; try discriminate. now intros ->.
Qed.


Lemma skipn_nth_error {A} (idx : nat) (row : list A) (v : A) :
  nth_error row idx = Some v -> skipn idx row = v :: skipn (S idx) row.
Proof.
  revert row. induction idx as [|i IH]; intros [|x row] Ev; try discriminate.
  - now injection Ev as <-.
  - cbn [nth_error] in Ev. cbn [skipn]. rewrite (IH row Ev). reflexivity.
Qed.

Lemma update_fields_form (w : widgets) (row : list value) (names : list string) :
  forall idx d0,
    NoDup names -> (forall k, In k names -> ~ In k (keys d0)) ->
    (idx + List.length names <= List.length row)%nat ->
    (forall j, nth_error names j = Some "salary" ->
               start_taken (nth (idx + j) row Null) = true) ->
    update_fields w row idx (map Text names) d0
    = ret (d0 ++ update_form w names (skipn idx row))%list.
Proof.
  induction names as [|n names IH]; intros idx d0 Hnd Hfresh Hlen Hsal.
  - cbn. now rewrite app_nil_r.
  - inversion Hnd as [|? ? Hn Hnd']; subst. cbn [map update_fields].
    cbn [List.length] in Hlen.
    destruct (nth_error row idx) as [v|] eqn:Ev;
      [|apply nth_error_None in Ev; lia].
    assert (Hfield : (if (n =? "salary")%string
                      then salary_input w (capitalize n) v
                      else ret (text_input w (capitalize n) (Some v)))
                     = ret (if (n =? "salary")%string
                            then number_input w (capitalize n) (Some v)
                            else text_input w (capitalize n) (Some v))).
    { destruct (String.eqb_spec n "salary") as [->|_]; [|reflexivity].
      apply salary_input_taken. specialize (Hsal 0%nat eq_refl).
      rewrite Nat.add_0_r in Hsal. now rewrite (nth_error_nth _ _ _ Ev) in Hsal. }
    rewrite Hfield, and_then_ret.
    rewrite dict_set_fresh by (apply Hfresh; now left).
    rewrite IH; [|assumption| |lia|].
    + rewrite (skipn_nth_error _ _ _ Ev). unfold update_form. cbn [combine map fst snd].
      now rewrite <- app_assoc.
    + intros k Hk. rewrite keys_app. cbn [keys map fst app]. intros Hin.
      apply in_app_or in Hin as [Hin|[<-|[]]].
      * apply (Hfresh k); [now right|assumption].
      * contradiction.
    + intros j Hj. replace (S idx + j)%nat with (idx + S j)%nat by lia.
      apply Hsal. exact Hj.
Qed.

(** * The pages, computed *)

Lemma app_two {A} (l : list A) (a b : A) : ((l ++ [a]) ++ [b] = l ++ [a; b])%list.
Proof. now rewrite <- app_assoc. Qed.

Lemma add_page_value (w : widgets) (conn : connection) (t : table) (out : list message) :
  view conn = Some t -> employees_table t ->
  add_page w conn out
  = if form_submit_button w "Add Employee" then
      if forallb truthy (values (add_form w (attributes t))) then
        match insert_employee conn (add_form w (attributes t)) with
        | Return _ conn' =>
          Done tt conn' (out ++ [Subheader "Add Employee";
                                 Success "Employee added successfully!"])%list
        | Raised e conn' => Crashed (FromStore e) conn' (out ++ [Subheader "Add Employee"])%list
        | NoModel => Unknown
        end
      else Done tt conn (out ++ [Subheader "Add Employee";
                                 Warning "Please fill out all fields."])%list
    else Done tt conn (out ++ [Subheader "Add Employee"])%list.
Proof.
  intros Hv Hwf. unfold add_page, and_then, show, invoke.
  rewrite (get_columns_attributes conn t Hv Hwf).
  rewrite (add_fields_form w (attributes t) [] (attributes_nodup t Hwf))
    by (intros k _ []).
  cbn [app ret]. destruct (form_submit_button w "Add Employee"); [|reflexivity].
  destruct (forallb truthy (values (add_form w (attributes t)))).
  - destruct (insert_employee conn (add_form w (attributes t))); try reflexivity.
    now rewrite app_two.
  - now rewrite app_two.
Qed.

Lemma delete_page_value (w : widgets) (conn : connection) (out : list message) :
  delete_page w conn out
  = if button w "Delete" then
      match delete_employee conn (number_input w "Employee ID" None) with
      | Return _ conn' =>
        Done tt conn' (out ++ [Subheader "Delete Employee";
                               Success "Employee deleted successfully!"])%list
      | Raised e conn' => Crashed (FromStore e) conn' (out ++ [Subheader "Delete Employee"])%list
      | NoModel => Unknown
      end
    else Done tt conn (out ++ [Subheader "Delete Employee"])%list.
Proof.
  unfold delete_page, and_then, show, invoke, ret.
  destruct (button w "Delete"); [|reflexivity].
  destruct (delete_employee conn (number_input w "Employee ID" None)); try reflexivity.
  now rewrite app_two.
Qed.

Lemma filter_by_id_none (rs : list row) (id : Z) :
  (forall r, In r rs -> fst r <> id) -> filter (fun r => fst r =? id) rs = [].
Proof.
  induction rs as [|r rs IH]; intros H; [reflexivity|].
  cbn [filter]. destruct (Z.eqb_spec (fst r) id) as [Heq|_].
  - exfalso. apply (H r); [now left|assumption].
  - apply IH. intros x Hx. apply H. now right.
Qed.

Lemma update_page_absent (w : widgets) (conn : connection) (t : table)
      (out : list message) (id : Z) :
  view conn = Some t -> employees_table t ->
  number_input w "Employee ID" None = Integer id -> in_int64 (Integer id) = true ->
  (forall r, In r (rows t) -> fst r <> id) ->
  update_page w conn out
  = Done tt conn (out ++ [Subheader "Update Employee";
                          Warning "Employee ID not found."])%list.
Proof.
  intros Hv Hwf Hw Hid Hno. unfold update_page, and_then, show, invoke.
  rewrite Hw, (select_by_id_rows conn t id Hv (et_pk _ Hwf) Hid).
  rewrite (filter_by_id_none _ _ Hno). cbn [map hd_error]. now rewrite app_two.
Qed.

Lemma salary_position (t : table) (j : nat) :
  employees_table t -> nth_error (attributes t) j = Some "salary" -> j = 2%nat.
Proof.
  intros Hwf H. pose proof (attributes_nodup t Hwf) as Hnd.
  destruct (et_base _ Hwf) as [extra E]. unfold attributes in *. rewrite E in *.
  cbn [base_cols app map cname] in *.
  apply (proj1 (NoDup_nth_error _) Hnd); [|now rewrite H].
  apply nth_error_Some. now rewrite H.
Qed.

Lemma update_page_found (w : widgets) (conn : connection) (t : table)
      (out : list message) (id : Z) (vs : list value) :
  view conn = Some t -> employees_table t ->
  number_input w "Employee ID" None = Integer id ->
  In (id, vs) (rows t) ->
  start_taken (nth 2 vs Null) = true ->
  update_page w conn out
  = let e := update_form w (attributes t) vs in
    let shown := (out ++ [Subheader "Update Employee";
                          Written ("Selected Employee - ID: " ++ decimal id)])%list in
    if form_submit_button w "Update Employee" then
      if forallb truthy (values e) then
        match update_employee conn e (Integer id) with
        | Return _ conn' =>
          Done tt conn' (shown ++ [Success "Employee updated successfully!"])%list
        | Raised err conn' => Crashed (FromStore err) conn' shown
        | NoModel => Unknown
        end
      else Done tt conn (shown ++ [Warning "Please fill out all fields."])%list
    else Done tt conn shown.
Proof.
  intros Hv Hwf Hw Hrow Hsal.
  assert (Hid : in_int64 (Integer id) = true).
  { pose proof (et_rowids _ Hwf) as H. rewrite Forall_forall in H. apply (H _ Hrow). }
  assert (Hlen : List.length vs = List.length (attributes t)).
  { pose proof (et_width _ Hwf) as H. rewrite Forall_forall in H.
    unfold attributes. rewrite length_map. apply (H _ Hrow). }
  unfold update_page, and_then, show, invoke.
  rewrite Hw, (select_by_id_rows conn t id Hv (et_pk _ Hwf) Hid).
  pose proof (filter_by_id_sorted _ _ (et_sorted _ Hwf) Hrow) as Hf. cbn [fst] in Hf.
  rewrite Hf. cbn [map hd_error output_row fst snd].
  rewrite (get_columns_attributes conn t Hv Hwf). cbn [format_value].
  rewrite (update_fields_form w (Integer id :: vs) (attributes t) 1 []
             (attributes_nodup t Hwf)).
  - cbn [app ret skipn]. rewrite app_two. cbv zeta.
    destruct (form_submit_button w "Update Employee"); [|reflexivity].
    destruct (forallb truthy (values (update_form w (attributes t) vs))); [|reflexivity].
    now destruct (update_employee conn (update_form w (attributes t) vs) (Integer id)).
  - intros k _ [].
  - cbn [List.length]. lia.
  - intros j Hj. rewrite (salary_position t j Hwf Hj). exact Hsal.
Qed.


(** * The listing of the View page *)

Lemma max_length_same {A} (n : nat) (x : list A) (l : list (list A)) :
  Forall (fun r => List.length r = n) (x :: l) ->
  fold_right Nat.max 0%nat (map (@List.length A) (x :: l)) = n.
Proof.
  revert x. induction l as [|y l IH]; intros x H.
  - inversion H as [|? ? Hx _]; subst. cbn. lia.
  - inversion H as [|? ? Hx Hl]; subst. cbn [map fold_right] in *.
    rewrite (IH y Hl). lia.
Qed.

Lemma show_listing (conn : connection) (t : table) (out : list message)
      (employees : list (list value)) :
  view conn = Some t -> employees_table t ->
  Forall (fun r => List.length r = S (List.length (attributes t))) employees ->
  match employees with
  | _ :: _ =>
    names <~ invoke get_columns ;;
    let columns := Text "id" :: names in
    df <~ DataFrame employees columns ;;
    _ <~ show (Table (fst df) (snd df)) ;;
    show (DownloadButton "Download data as CSV" (fst df) (snd df)
                         "employees.csv" "text/csv")
  | [] => show (Warning "No employees found.")
  end conn out
  = Done tt conn (out ++ listing (Text "id" :: map Text (attributes t)) employees)%list.
Proof.
  intros Hv Hwf Hall. destruct employees as [|r rs]; [reflexivity|].
  unfold and_then, invoke, show. rewrite (get_columns_attributes conn t Hv Hwf).
  unfold DataFrame. rewrite (max_length_same _ r rs Hall).
  cbn [List.length]. rewrite length_map, Nat.eqb_refl.
  cbn [ret fst snd listing]. now rewrite app_two.
Qed.

Lemma output_rows_width (t : table) (rs : list row) :
  employees_table t -> incl rs (rows t) ->
  Forall (fun r => List.length r = S (List.length (attributes t))) (map output_row rs).
Proof.
  intros Hwf Hin. pose proof (et_width _ Hwf) as Hw. rewrite Forall_forall in Hw.
  apply Forall_forall. intros x Hx. apply in_map_iff in Hx as (r & <- & Hr).
  cbn [output_row List.length]. unfold attributes. rewrite length_map.
  now rewrite (Hw r (Hin r Hr)).
Qed.

Lemma filtered_rows (conn : connection) (t : table) (d lo hi : value) :
  view conn = Some t -> employees_table t ->
  str_arg d -> num_arg lo -> num_arg hi ->
  select_employees_filtered conn d lo hi
  = Return (map output_row (filter (row_matches (filter_conds d lo hi)) (rows t))) conn.
Proof.
  intros Hv Hwf Hd Hlo Hhi. rewrite select_employees_filtered_unfold.
  now rewrite (execute_filter conn t d lo hi Hv Hwf Hd Hlo Hhi).
Qed.

Lemma filter_conds_falsy (d lo hi : value) :
  truthy d = false -> truthy lo = false -> truthy hi = false -> filter_conds d lo hi = [].
Proof. intros H1 H2 H3. unfold filter_conds. now rewrite H1, H2, H3. Qed.

(** * What every piece of [main()] keeps *)

Section UiKeeps.

Variable ok : database -> Prop.
Hypothesis ok_some : forall t, ok (Some t) <-> sound_table t.

Lemma keeps_ret {A} (a : A) : ui_keeps ok (ret a).
Proof. intros conn out H. exact H. Qed.

Lemma keeps_show (m : message) : ui_keeps ok (show m).
Proof. intros conn out H. exact H. Qed.

Lemma keeps_raise {A} (e : exception) : ui_keeps ok (@raise A e).
Proof. intros conn out H. exact H. Qed.

Lemma keeps_unknown {A} : ui_keeps ok (@unknown A).
Proof. intros conn out H. exact I. Qed.

Lemma keeps_and_then {A B} (m : ui A) (k : A -> ui B) :
  ui_keeps ok m -> (forall a, ui_keeps ok (k a)) -> ui_keeps ok (and_then m k).
Proof.
  intros Hm Hk conn out H. unfold and_then. specialize (Hm conn out H).
  destruct (m conn out) as [a c o|e c o|]; [|exact Hm|exact I].
  apply (Hk a c o Hm).
Qed.

Lemma keeps_invoke {A} (f : connection -> result A) (c : call) :
  (forall conn, left_by (f conn) = do_call c conn) -> ui_keeps ok (invoke f).
Proof.
  intros Hf conn out H. unfold invoke. specialize (Hf conn).
  pose proof (do_call_keeps ok ok_some c conn) as Hk.
  destruct (f conn) as [a c'|e c'|]; cbn [left_by] in Hf; [| |exact I];
    apply Hk; auto.
Qed.

Lemma keeps_add_fields (w : widgets) (columns : list value) :
  forall d, ui_keeps ok (add_fields w columns d).
Proof.
  induction columns as [|c columns IH]; intros d; cbn [add_fields].
  - apply keeps_ret.
  - destruct c; try apply keeps_unknown. apply IH.
Qed.

Lemma keeps_update_fields (w : widgets) (row : list value) (columns : list value) :
  forall idx d, ui_keeps ok (update_fields w row idx columns d).
Proof.
  induction columns as [|c columns IH]; intros idx d; cbn [update_fields].
  - apply keeps_ret.
  - destruct c; try apply keeps_unknown.
    destruct (nth_error row idx) as [v|]; [|apply keeps_raise].
    apply keeps_and_then; [|intros x; apply IH].
    destruct (s =? "salary")%string; [|apply keeps_ret].
    unfold salary_input. destruct v; try apply keeps_raise; try apply keeps_unknown.
    + destruct (Qle_bool 0 q); [apply keeps_ret|apply keeps_raise].
    + destruct (_ =? "min")%string; [apply keeps_unknown|apply keeps_raise].
Qed.

Lemma keeps_add_page (w : widgets) : ui_keeps ok (add_page w).
Proof.
  unfold add_page. apply keeps_and_then; [apply keeps_show|intros _].
  apply keeps_and_then; [now apply (keeps_invoke _ GetColumns)|intros columns].
  apply keeps_and_then; [apply keeps_add_fields|intros e].
  destruct (form_submit_button w "Add Employee"); [|apply keeps_ret].
  destruct (forallb truthy (values e)); [|apply keeps_show].
  apply keeps_and_then; [now apply (keeps_invoke _ (InsertEmployee e))|intros _].
  apply keeps_show.
Qed.

Lemma keeps_update_page (w : widgets) : ui_keeps ok (update_page w).
Proof.
  unfold update_page. apply keeps_and_then; [apply keeps_show|intros _].
  apply keeps_and_then;
    [now apply (keeps_invoke _ (SelectEmployeeById (number_input w "Employee ID" None)))|].
  intros [[|first rest]|]; try apply keeps_show.
  apply keeps_and_then; [now apply (keeps_invoke _ GetColumns)|intros columns].
  apply keeps_and_then;
    [destruct (format_value first); [apply keeps_show|apply keeps_unknown]|intros _].
  apply keeps_and_then; [apply keeps_update_fields|intros e].
  destruct (form_submit_button w "Update Employee"); [|apply keeps_ret].
  destruct (forallb truthy (values e)); [|apply keeps_show].
  apply keeps_and_then;
    [now apply (keeps_invoke _ (UpdateEmployee e (number_input w "Employee ID" None)))|].
  intros _. apply keeps_show.
Qed.

Lemma keeps_delete_page (w : widgets) : ui_keeps ok (delete_page w).
Proof.
  unfold delete_page. apply keeps_and_then; [apply keeps_show|intros _].
  destruct (button w "Delete"); [|apply keeps_ret].
  apply keeps_and_then;
    [now apply (keeps_invoke _ (DeleteEmployee (number_input w "Employee ID" None)))|].
  intros _. apply keeps_show.
Qed.

Lemma keeps_view_page (w : widgets) : ui_keeps ok (view_page w).
Proof.
  unfold view_page. apply keeps_and_then; [apply keeps_show|intros _].
  cbv zeta. apply keeps_and_then.
  - destruct (button w "Add Columns" &&
              truthy (text_input w "Extra Columns (comma-separated)" None));
      [|apply keeps_ret].
    destruct (text_input w "Extra Columns (comma-separated)" None);
      try apply keeps_raise.
    apply keeps_and_then;
      [now apply (keeps_invoke _ (AddExtraColumns (extra_columns_list s)))|intros _].
    apply keeps_show.
  - intros _. apply keeps_and_then.
    + destruct (button w "Apply Filters").
      * now apply (keeps_invoke _ (SelectEmployeesFiltered
                                   (text_input w "Department" None)
                                   (number_input w "Minimum Salary" None)
                                   (number_input w "Maximum Salary" None))).
      * now apply (keeps_invoke _ SelectAllEmployees).
    + intros [|r rs]; [apply keeps_show|].
      apply keeps_and_then; [now apply (keeps_invoke _ GetColumns)|intros names].
      apply keeps_and_then.
      * unfold DataFrame. destruct (_ =? _)%nat; [apply keeps_ret|apply keeps_raise].
      * intros df. apply keeps_and_then; [apply keeps_show|intros _; apply keeps_show].
Qed.

End UiKeeps.

(** * The View page without a button pressed, and a run of [main()] *)


Lemma main_on_table (w : widgets) (t : table) :
  main w (Holding (Some t))
  = Ran ((if (selectbox w "Menu" menu =? "Add")%string then add_page w
          else if (selectbox w "Menu" menu =? "Update")%string then update_page w
          else if (selectbox w "Menu" menu =? "Delete")%string then delete_page w
          else if (selectbox w "Menu" menu =? "View")%string then view_page w
          else ret tt) (open_db t) [Title "Employee Management System"]).
Proof.
  unfold main, create_connection_on. cbv zeta.
  unfold and_then at 1, invoke at 1. now rewrite create_table_value.
Qed.

(** * [main()]: the names typed for new columns *)

(** X14.  The list [main()] makes of the text typed for new columns: for
    entries without a comma, joined by commas, it is the entries, each
    stripped of the white space at its ends; stripping gives back a name
    that has none there, whatever white space surrounds it; and a name made
    of letters, digits and underscores has none and has no comma.  So the
    names typed come out as typed, and an entry left empty, as after a
    last comma, comes out as the empty name. *)
Theorem extra_columns_list_reads_names (cs : list string) :
  cs <> [] -> forallb no_comma cs = true ->
  extra_columns_list (join "," cs) = map strip cs /\
  (forall l c r,
      all_chars py_space l = true -> all_chars py_space r = true -> trimmed c ->
      strip (l ++ c ++ r) = c) /\
  (forall c, all_chars word_char c = true -> trimmed c /\ no_comma c = true).
Proof.
  intros Hne Hc. repeat apply conj.
  - unfold extra_columns_list. now rewrite split_join.
  - intros l c r. apply strip_padded.
  - intros c Hw. split; [now apply word_trimmed|now apply word_no_comma].
Qed.

(** X14, at work: two names and a last comma. *)
Lemma extra_columns_list_reads_names_witness :
  extra_columns_list "bonus, grade ," = ["bonus"; "grade"; EmptyString].
Proof.
  destruct (extra_columns_list_reads_names ["bonus"; " grade "; EmptyString])
    as [H _]; [discriminate|reflexivity|]. exact H.
Defined.

(** * [main()]: the pages *)

(** X15.  The Add page makes its record from one widget for each name
    [get_columns] returns.  Submitted with a field left empty or a salary
    of zero, it warns and writes nothing; submitted with every field
    filled, and values the columns take, it inserts the record under the
    next identifier and reports success; not submitted, it does nothing. *)
Theorem add_page_requires_every_field
        (w : widgets) (conn : connection) (t : table) (out : list message) :
  view conn = Some t -> employees_table t ->
  (form_submit_button w "Add Employee" = true ->
   forallb truthy (values (add_form w (attributes t))) = false ->
   add_page w conn out
   = Done tt conn (out ++ [Subheader "Add Employee";
                           Warning "Please fill out all fields."])%list) /\
  (form_submit_button w "Add Employee" = true ->
   forallb truthy (values (add_form w (attributes t))) = true ->
   forallb (accepts (add_form w (attributes t))) (cols t) = true ->
   forallb in_int64 (values (add_form w (attributes t))) = true ->
   next_id t <= max_int64 ->
   add_page w conn out
   = Done tt (open_db (inserted t (add_form w (attributes t))))
          (out ++ [Subheader "Add Employee";
                   Success "Employee added successfully!"])%list) /\
  (form_submit_button w "Add Employee" = false ->
   add_page w conn out = Done tt conn (out ++ [Subheader "Add Employee"])%list) /\
  keys (add_form w (attributes t)) = attributes t.
Proof.
  intros Hv Hwf. rewrite (add_page_value w conn t out Hv Hwf). repeat apply conj.
  - intros -> ->. reflexivity.
  - intros -> -> Ha Hv64 Hroom.
    rewrite (insert_employee_record conn t _ Hv Hwf); try assumption.
    + reflexivity.
    + destruct (et_base _ Hwf) as [extra E]. unfold attributes. rewrite E. discriminate.
    + rewrite keys_add_form. apply incl_refl.
  - intros ->. reflexivity.
  - apply keys_add_form.
Qed.

(** X15, at work: the form submitted with the salary left at 0.0. *)
Lemma add_page_requires_every_field_witness :
  add_page salary_left_at_zero (open_db employees2) []
  = Done tt (open_db employees2)
         [Subheader "Add Employee"; Warning "Please fill out all fields."].
Proof.
  destruct (add_page_requires_every_field salary_left_at_zero (open_db employees2)
              employees2 [] eq_refl employees2_ok) as [H _].
  apply H; reflexivity.
Defined.



(** X17.  The Delete page, its button pressed, calls [delete_employee] and
    reports success whether or not a record has the identifier entered:
    when none has, the table is as it was and the page still says the
    employee was deleted.  Not pressed, it does nothing. *)
Theorem delete_page_reports_success
        (w : widgets) (conn : connection) (t : table) (out : list message) (id : Z) :
  view conn = Some t -> employees_table t ->
  number_input w "Employee ID" None = Integer id -> in_int64 (Integer id) = true ->
  (button w "Delete" = true ->
   delete_page w conn out
   = Done tt (open_db (without t id))
          (out ++ [Subheader "Delete Employee";
                   Success "Employee deleted successfully!"])%list) /\
  ((forall r, In r (rows t) -> fst r <> id) -> without t id = t) /\
  (button w "Delete" = false ->
   delete_page w conn out = Done tt conn (out ++ [Subheader "Delete Employee"])%list).
Proof.
  intros Hv Hwf Hw Hid. rewrite delete_page_value, Hw.
  rewrite (delete_employee_record conn t id Hv (et_pk _ Hwf) Hid).
  repeat apply conj.
  - now intros ->.
  - apply without_absent.
  - now intros ->.
Qed.

(** X17, at work: the identifier 7, which no employee has. *)
Lemma delete_page_reports_success_witness :
  delete_page {| selectbox := fun _ _ => "Delete";
                 text_input := fun _ _ => Text EmptyString;
                 number_input := fun _ _ => Integer 7;
                 button := fun _ => true;
                 form_submit_button := fun _ => false |} (open_db employees2) []
  = Done tt (open_db employees2)
         [Subheader "Delete Employee"; Success "Employee deleted successfully!"].
Proof.
  destruct (delete_page_reports_success
              {| selectbox := fun _ _ => "Delete";
                 text_input := fun _ _ => Text EmptyString;
                 number_input := fun _ _ => Integer 7;
                 button := fun _ => true;
                 form_submit_button := fun _ => false |}
              (open_db employees2) employees2 [] 7 eq_refl employees2_ok eq_refl eq_refl)
    as [H _].
  apply (H eq_refl).
Defined.

(** * The pages on the widgets as Streamlit gives them *)

Lemma distinct_ieq (ns : list string) (a b : string) :
  distinct_names ns = true -> In a ns -> In b ns -> ieq a b = true -> a = b.
Proof.
  induction ns as [|n ns IH]; intros Hd Ha Hb Hab; [contradiction|].
  cbn [distinct_names] in Hd. apply andb_prop in Hd as [Hn Hd].
  apply negb_true_iff in Hn.
  assert (Hno : forall x, In x ns -> ieq n x = false).
  { intros x Hx. destruct (ieq n x) eqn:E; [|reflexivity].
    assert (existsb (ieq n) ns = true); [|congruence].
    apply existsb_exists. now exists x. }
  destruct Ha as [->|Ha], Hb as [->|Hb].
  - reflexivity.
  - rewrite (Hno b Hb) in Hab. discriminate.
  - rewrite ieq_sym, (Hno a Ha) in Hab. discriminate.
  - now apply IH.
Qed.

Lemma column_kind (t : table) (c : column) :
  employees_table t -> text_columns t -> In c (cols t) ->
  caff c = if (cname c =? "salary")%string then AffReal else AffText.
Proof.
  intros Hwf Htc Hc. unfold text_columns in Htc. rewrite Forall_forall in Htc.
  rewrite (Htc c Hc). destruct (String.eqb_spec (cname c) "salary") as [->|Hne];
    [reflexivity|].
  destruct (ieq (cname c) "salary") eqn:E; [|reflexivity]. exfalso. apply Hne.
  destruct (salary_column t Hwf) as (sc & Hsc & Hname).
  pose proof (et_distinct _ Hwf) as Hd. cbn [distinct_names] in Hd.
  apply andb_prop in Hd as [_ Hd].
  apply (distinct_ieq _ _ _ Hd); [now apply in_map| |exact E].
  rewrite <- Hname. now apply in_map.
Qed.

Lemma usual_text_filled (w : widgets) (label : string) (initial : option value) :
  usual_widgets w -> truthy (text_input w label initial) = true ->
  exists s, text_input w label initial = Text s.
Proof.
  intros Hw Ht. pose proof (uw_text w Hw label initial) as H.
  destruct (text_input w label initial); try contradiction; try discriminate. now eexists.
Qed.

Lemma usual_number_filled (w : widgets) (label : string) (initial : option value) :
  usual_widgets w -> label <> "Employee ID" ->
  truthy (number_input w label initial) = true ->
  exists q, number_input w label initial = Real q /\ Qle_bool 0 q = true.
Proof.
  intros Hw Hl Ht. pose proof (uw_number w Hw label initial Hl) as H.
  destruct (number_input w label initial); try contradiction; try discriminate.
  now eexists.
Qed.

(** A value a form gives: the salary field for [salary], a text field for
    another name. *)
Lemma form_value_kept (w : widgets) (t : table) (c : column) (v : value) :
  employees_table t -> text_columns t -> usual_widgets w -> In c (cols t) ->
  (exists initial,
      v = if (cname c =? "salary")%string
          then number_input w (capitalize (cname c)) initial
          else text_input w (capitalize (cname c)) initial) ->
  truthy v = true ->
  storable (caff c) v = true /\ is_null v = false /\ in_int64 v = true /\
  ((cname c =? "salary")%string = true -> start_taken (stored (caff c) v) = true).
Proof.
  intros Hwf Htc Hw Hc [initial ->] Ht. rewrite (column_kind t c Hwf Htc Hc).
  destruct (String.eqb_spec (cname c) "salary") as [E|_].
  - rewrite E in *.
    destruct (usual_number_filled w (capitalize "salary") initial Hw) as (q & Eq & Hq);
      [discriminate|exact Ht|]. rewrite Eq. now repeat split.
  - destruct (usual_text_filled w _ initial Hw Ht) as (s & Es). rewrite Es.
    repeat split. intros H. discriminate H.
Qed.

Lemma lookup_in (k : string) (v : value) (e : dict) : lookup k e = Some v -> In (k, v) e.
Proof.
  induction e as [|[k' v'] e IH]; [discriminate|]. cbn [lookup].
  destruct (String.eqb_spec k' k) as [->|_].
  - intros H. injection H as ->. now left.
  - intros H. right. now apply IH.
Qed.

Lemma in_values (k : string) (v : value) (e : dict) : In (k, v) e -> In v (values e).
Proof. intros H. unfold values. apply in_map_iff. now exists (k, v). Qed.

Lemma add_form_entry (w : widgets) (names : list string) (k : string) (v : value) :
  In (k, v) (add_form w names) ->
  v = if (k =? "salary")%string
      then number_input w (capitalize k) None
      else text_input w (capitalize k) None.
Proof.
  unfold add_form. intros H. apply in_map_iff in H as (n & E & _). now injection E as <- <-.
Qed.

Lemma update_form_entry (w : widgets) (names : list string) (fields : list value)
      (k : string) (v : value) :
  In (k, v) (update_form w names fields) ->
  exists x, v = if (k =? "salary")%string
                then number_input w (capitalize k) (Some x)
                else text_input w (capitalize k) (Some x).
Proof.
  unfold update_form. intros H. apply in_map_iff in H as ([n x] & E & _).
  cbn [fst snd] in E. injection E as <- <-. now exists x.
Qed.

(** A form with every field filled gives each column a value it keeps. *)
Lemma form_kept (w : widgets) (t : table) (e : dict) :
  employees_table t -> text_columns t -> usual_widgets w ->
  (forall k v, In (k, v) e ->
               exists initial,
                 v = if (k =? "salary")%string
                     then number_input w (capitalize k) initial
                     else text_input w (capitalize k) initial) ->
  forallb truthy (values e) = true ->
  forall c, In c (cols t) ->
            match lookup (cname c) e with
            | Some v => storable (caff c) v = true /\ is_null v = false /\
                        ((cname c =? "salary")%string = true ->
                         start_taken (stored (caff c) v) = true)
            | None => True
            end.
Proof.
  intros Hwf Htc Hw He Ht c Hc. destruct (lookup (cname c) e) as [v|] eqn:El; [|exact I].
  apply lookup_in in El. rewrite forallb_forall in Ht.
  destruct (form_value_kept w t c v Hwf Htc Hw Hc (He _ _ El) (Ht v (in_values _ _ _ El)))
    as (H1 & H2 & _ & H4).
  auto.
Qed.

Lemma form_int64 (w : widgets) (e : dict) :
  usual_widgets w ->
  (forall k v, In (k, v) e ->
               exists initial,
                 v = if (k =? "salary")%string
                     then number_input w (capitalize k) initial
                     else text_input w (capitalize k) initial) ->
  forallb truthy (values e) = true -> forallb in_int64 (values e) = true.
Proof.
  intros Hw He Ht. rewrite forallb_forall in *. intros v Hv.
  unfold values in Hv. apply in_map_iff in Hv as ([k v'] & <- & Hin). cbn [snd].
  assert (Htv : truthy v' = true) by (apply Ht; now apply (in_values k)).
  destruct (He k v' Hin) as [initial ->].
  destruct (String.eqb_spec k "salary") as [->|_].
  - destruct (usual_number_filled w (capitalize "salary") initial Hw) as (q & Eq & _);
      [discriminate|exact Htv|]. now rewrite Eq.
  - destruct (usual_text_filled w _ initial Hw Htv) as (s & Es). now rewrite Es.
Qed.

Lemma kept_stored (t : table) : kept_by_main t -> both stored_database (open_db t).
Proof. intros (Hs & _). split; exact Hs. Qed.

Lemma attributes_nonempty (t : table) : employees_table t -> attributes t <> [].
Proof.
  intros Hwf. destruct (et_base _ Hwf) as [extra E]. unfold attributes. rewrite E.
  discriminate.
Qed.

Lemma salary_of_row (t : table) (f : column -> value) :
  employees_table t ->
  exists c, In c (cols t) /\ cname c = "salary" /\ nth 2 (map f (cols t)) Null = f c.
Proof.
  intros Hwf. destruct (et_base _ Hwf) as [extra E]. rewrite E.
  eexists. split; [right; right; left; reflexivity|]. split; reflexivity.
Qed.

Lemma add_page_kept (w : widgets) (t : table) (out : list message) :
  usual_widgets w -> kept_by_main t -> next_id t <= max_int64 ->
  ends_kept (add_page w (open_db t) out).
Proof.
  intros Hw Hk Hroom. pose proof Hk as ((Hwf & Hrec) & Htc & Hsal).
  pose proof (keeps_add_page stored_database (fun t => iff_refl _) w (open_db t) out
                (kept_stored t Hk)) as Hkeep.
  rewrite (add_page_value w (open_db t) t out eq_refl Hwf) in *.
  destruct (form_submit_button w "Add Employee"); [|now exists t].
  destruct (forallb truthy (values (add_form w (attributes t)))) eqn:Et; [|now exists t].
  set (e := add_form w (attributes t)) in *.
  assert (He : forall k v, In (k, v) e ->
                 exists initial,
                   v = if (k =? "salary")%string
                       then number_input w (capitalize k) initial
                       else text_input w (capitalize k) initial).
  { intros k v Hin. exists None. now apply (add_form_entry w (attributes t)). }
  assert (Hkeys : keys e = attributes t) by apply keys_add_form.
  pose proof (form_kept w t e Hwf Htc Hw He Et) as Hform.
  assert (Hfield : forall c, In c (cols t) ->
             exists v, lookup (cname c) e = Some v /\ field e c = v).
  { intros c Hc. destruct (lookup_in_keys (cname c) e) as [v Hv].
    - rewrite Hkeys. unfold attributes. now apply in_map.
    - exists v. split; [exact Hv|]. unfold field. now rewrite Hv. }
  assert (Hins : insert_employee (open_db t) e
                 = Return (Some (next_id t)) (open_db (inserted t e))).
  { apply (insert_employee_record (open_db t) t e eq_refl Hwf); try assumption.
    - intros Hnil. apply (attributes_nonempty t Hwf). rewrite <- Hkeys, Hnil. reflexivity.
    - rewrite Hkeys. apply incl_refl.
    - apply forallb_forall. intros c Hc. unfold accepts.
      destruct (Hfield c Hc) as (v & Hl & ->). specialize (Hform c Hc). rewrite Hl in Hform.
      destruct Hform as (H1 & H2 & _). now rewrite H1, H2, andb_false_r.
    - now apply (form_int64 w). }
  rewrite Hins in *.
  exists (inserted t e). split; [reflexivity|].
  destruct Hkeep as [Hkeep _]. split; [exact Hkeep|]. split; [exact Htc|].
  unfold salaries_taken. rewrite inserted_rows. apply Forall_app. split; [exact Hsal|].
  constructor; [|constructor]. cbn [snd]. unfold new_row.
  destruct (salary_of_row t (fun c => stored (caff c) (field e c)) Hwf)
    as (c & Hc & Hname & ->).
  destruct (Hfield c Hc) as (v & Hl & ->). specialize (Hform c Hc). rewrite Hl in Hform.
  apply Hform. now rewrite Hname.
Qed.

Lemma updated_salary (t : table) (e : dict) (vs : list value) :
  employees_table t -> List.length vs = List.length (cols t) ->
  exists c, In c (cols t) /\ cname c = "salary" /\
            nth 2 (updated_values (cols t) e vs) Null
            = match lookup "salary" e with
              | Some x => stored (caff c) x
              | None => nth 2 vs Null
              end.
Proof.
  intros Hwf Hlen. destruct (et_base _ Hwf) as [extra E]. rewrite E in *.
  destruct vs as [|v0 [|v1 [|v2 vs]]]; try discriminate.
  eexists. split; [right; right; left; reflexivity|]. split; [reflexivity|].
  cbn [base_cols app updated_values nth cname caff]. reflexivity.
Qed.

Lemma update_page_kept (w : widgets) (t : table) (out : list message) :
  usual_widgets w -> kept_by_main t -> ends_kept (update_page w (open_db t) out).
Proof.
  intros Hw Hk. pose proof Hk as ((Hwf & Hrec) & Htc & Hsal).
  pose proof (keeps_update_page stored_database (fun t => iff_refl _) w (open_db t) out
                (kept_stored t Hk)) as Hkeep.
  destruct (uw_id w Hw) as (id & Hid & Hrange).
  assert (Hid64 : in_int64 (Integer id) = true).
  { cbn [in_int64]. unfold min_int64, max_int64. apply andb_true_iff.
    split; apply Z.leb_le; lia. }
  destruct (filter (fun r : row => fst r =? id) (rows t)) as [|[z vs] rest] eqn:Ef.
  - rewrite (update_page_absent w (open_db t) t out id eq_refl Hwf Hid Hid64); [now exists t|].
    intros r Hr Heq.
    assert (Hin : In r (filter (fun r : row => fst r =? id) (rows t))).
    { apply filter_In. split; [exact Hr|]. now apply Z.eqb_eq. }
    rewrite Ef in Hin. contradiction.
  - assert (Hrow : In (id, vs) (rows t)).
    { assert (Hin : In (z, vs) (filter (fun r : row => fst r =? id) (rows t)))
        by (rewrite Ef; now left).
      apply filter_In in Hin as [Hin Hz]. cbn [fst] in Hz. apply Z.eqb_eq in Hz.
      now subst z. }
    assert (Hstart : start_taken (nth 2 vs Null) = true).
    { unfold salaries_taken in Hsal. rewrite Forall_forall in Hsal. apply (Hsal _ Hrow). }
    assert (Hlen : List.length vs = List.length (cols t)).
    { pose proof (et_width _ Hwf) as H. rewrite Forall_forall in H. apply (H _ Hrow). }
    rewrite (update_page_found w (open_db t) t out id vs eq_refl Hwf Hid Hrow Hstart) in *.
    cbv zeta in *.
    destruct (form_submit_button w "Update Employee"); [|now exists t].
    destruct (forallb truthy (values (update_form w (attributes t) vs))) eqn:Et;
      [|now exists t].
    set (e := update_form w (attributes t) vs) in *.
    assert (He : forall k v, In (k, v) e ->
                   exists initial,
                     v = if (k =? "salary")%string
                         then number_input w (capitalize k) initial
                         else text_input w (capitalize k) initial).
    { intros k v Hin. destruct (update_form_entry w _ _ k v Hin) as [x ->]. now eexists. }
    assert (Hkeys : keys e = attributes t).
    { apply keys_update_form. unfold attributes. now rewrite length_map. }
    pose proof (form_kept w t e Hwf Htc Hw He Et) as Hform.
    assert (Hupd : update_employee (open_db t) e (Integer id)
                   = Return tt (open_db (updated t e id))).
    { apply (update_employee_record (open_db t) t e id eq_refl (conj Hwf Hrec));
        try assumption.
      - intros Hnil. apply (attributes_nonempty t Hwf). rewrite <- Hkeys, Hnil. reflexivity.
      - rewrite Hkeys. now apply attributes_nodup.
      - rewrite Hkeys. apply incl_refl.
      - unfold assignable. apply forallb_forall. intros c Hc. specialize (Hform c Hc).
        destruct (lookup (cname c) e); [|reflexivity].
        destruct Hform as (H1 & H2 & _). now rewrite H1, H2, andb_false_r.
      - now apply (form_int64 w). }
    rewrite Hupd in *.
    exists (updated t e id). split; [reflexivity|].
    destruct Hkeep as [Hkeep _]. split; [exact Hkeep|]. split; [exact Htc|].
    unfold salaries_taken, updated. cbn [rows]. apply Forall_forall. intros x Hx.
    apply in_map_iff in Hx as (r & <- & Hr).
    unfold salaries_taken in Hsal. rewrite Forall_forall in Hsal.
    destruct (fst r =? id); [|now apply Hsal]. cbn [snd].
    assert (Hlr : List.length (snd r) = List.length (cols t)).
    { pose proof (et_width _ Hwf) as H. rewrite Forall_forall in H. apply (H _ Hr). }
    destruct (updated_salary t e (snd r) Hwf Hlr) as (c & Hc & Hname & ->).
    specialize (Hform c Hc). rewrite Hname in Hform.
    destruct (lookup "salary" e); [|now apply Hsal]. now apply Hform.
Qed.

Lemma delete_page_kept (w : widgets) (t : table) (out : list message) :
  usual_widgets w -> kept_by_main t -> ends_kept (delete_page w (open_db t) out).
Proof.
  intros Hw Hk. pose proof Hk as ((Hwf & Hrec) & Htc & Hsal).
  pose proof (keeps_delete_page stored_database (fun t => iff_refl _) w (open_db t) out
                (kept_stored t Hk)) as Hkeep.
  destruct (uw_id w Hw) as (id & Hid & Hrange).
  assert (Hid64 : in_int64 (Integer id) = true).
  { cbn [in_int64]. unfold min_int64, max_int64. apply andb_true_iff.
    split; apply Z.leb_le; lia. }
  rewrite delete_page_value, Hid in *.
  rewrite (delete_employee_record (open_db t) t id eq_refl (et_pk _ Hwf) Hid64) in *.
  destruct (button w "Delete"); [|now exists t].
  exists (without t id). split; [reflexivity|].
  destruct Hkeep as [Hkeep _]. split; [exact Hkeep|]. split; [exact Htc|].
  unfold salaries_taken, without in *. cbn [rows]. now apply forall_filter.
Qed.

Lemma view_page_parts (w : widgets) :
  view_page w
  = (_ <~ show (Subheader "View All Employees") ;; _ <~ view_columns w ;; view_listing w).
Proof. reflexivity. Qed.

Lemma usual_number_arg (w : widgets) (label : string) :
  usual_widgets w -> label <> "Employee ID" -> num_arg (number_input w label None).
Proof.
  intros Hw Hl. pose proof (uw_number w Hw label None Hl) as H.
  now destruct (number_input w label None).
Qed.

Lemma view_listing_done (w : widgets) (conn : connection) (t : table) (out : list message) :
  view conn = Some t -> employees_table t -> usual_widgets w ->
  exists out', view_listing w conn out = Done tt conn out'.
Proof.
  intros Hv Hwf Hw. unfold view_listing. cbv zeta.
  set (d := text_input w "Department" None).
  set (lo := number_input w "Minimum Salary" None).
  set (hi := number_input w "Maximum Salary" None).
  assert (Hq : exists rs, incl rs (rows t) /\
             (if button w "Apply Filters"
              then invoke (fun conn0 => select_employees_filtered conn0 d lo hi)
              else invoke select_all_employees) conn out
             = Done (map output_row rs) conn out).
  { destruct (button w "Apply Filters"); unfold invoke.
    - exists (filter (row_matches (filter_conds d lo hi)) (rows t)). split.
      + intros x Hx. now apply filter_In in Hx as [Hx _].
      + rewrite (filtered_rows conn t d lo hi Hv Hwf); [reflexivity| | |].
        * apply (uw_text w Hw).
        * apply usual_number_arg; [exact Hw|discriminate].
        * apply usual_number_arg; [exact Hw|discriminate].
    - exists (rows t). split; [apply incl_refl|]. now rewrite (select_all_rows conn t Hv). }
  destruct Hq as (rs & Hin & Hq). unfold and_then at 1. rewrite Hq.
  rewrite (show_listing conn t _ _ Hv Hwf (output_rows_width t rs Hwf Hin)). now eexists.
Qed.

Lemma open_set_view (t : table) (db : database) :
  set_view (open_db t) db = {| committed := db; pending := None |}.
Proof. reflexivity. Qed.

(** A batch of plain names on a connection with nothing pending: it leaves
    the table with the first of them added, as many as were accepted. *)
Lemma add_each_open (cs : list string) :
  forallb is_ident cs = true ->
  forall t, exists k,
    left_by (add_each (open_db t) cs) = Some (open_db (with_columns t (firstn k cs))).
Proof.
  induction cs as [|c cs IH]; intros Hcs t.
  - exists 0%nat. cbn [add_each left_by firstn]. now rewrite with_columns_nil.
  - cbn [forallb] in Hcs. apply andb_prop in Hcs as [Hid Hcs]. cbn [add_each].
    rewrite (execute_alter (open_db t) t c [c] eq_refl (name_words_ident c Hid)).
    rewrite run_alter_cases.
    destruct (has_column t (dname (added_column [c]))
              || (max_columns <=? column_count t)%nat).
    + exists 0%nat. cbn [bind left_by firstn]. now rewrite with_columns_nil.
    + cbn [bind]. rewrite open_set_view.
      destruct (IH Hcs (with_column t (added_column [c]))) as [k Hk].
      exists (S k). cbn [firstn]. rewrite <- with_columns_cons. exact Hk.
Qed.

Lemma rowids_fit (t : table) : employees_table t -> rowids_up_to max_int64 t.
Proof.
  intros Hwf. pose proof (et_rowids _ Hwf) as H. unfold rowids_up_to.
  rewrite Forall_forall in *. intros r Hr. specialize (H r Hr). cbn [in_int64] in H.
  apply andb_prop in H as [_ H]. now apply Z.leb_le in H.
Qed.

Lemma with_columns_salaries (t : table) (cs : list string) :
  employees_table t -> salaries_taken t -> salaries_taken (with_columns t cs).
Proof.
  intros Hwf Hsal. unfold salaries_taken, with_columns in *. cbn [rows].
  rewrite Forall_forall in *. intros x Hx. apply in_map_iff in Hx as (r & <- & Hr).
  cbn [snd]. rewrite app_nth1; [now apply Hsal|].
  pose proof (et_width _ Hwf) as Hw. rewrite Forall_forall in Hw. rewrite (Hw r Hr).
  destruct (et_base _ Hwf) as [extra E]. rewrite E, length_app. cbn. lia.
Qed.

Lemma add_extra_columns_kept (t : table) (cs : list string) :
  forallb is_ident cs = true -> kept_by_main t ->
  exists t', left_by (add_extra_columns (open_db t) cs) = Some (open_db t')
             /\ kept_by_main t'.
Proof.
  intros Hcs Hk. pose proof Hk as ((Hwf & Hrec) & Htc & Hsal).
  destruct (add_each_open cs Hcs t) as [k Hk'].
  destruct (add_extra_columns_within plain_stored (fun n t => iff_refl _)
              max_int64 cs (open_db t) Hcs) as (c' & H1 & H2).
  { assert (plain_table max_int64 t)
      by (split; [split; assumption|split; [assumption|now apply rowids_fit]]).
    split; assumption. }
  assert (Hl : left_by (add_extra_columns (open_db t) cs)
               = Some (open_db (with_columns t (firstn k cs)))).
  { unfold add_extra_columns.
    destruct (add_each (open_db t) cs) as [[] c|err c|]; try discriminate;
      cbn [left_by] in Hk'; injection Hk' as ->; reflexivity. }
  exists (with_columns t (firstn k cs)). split; [exact Hl|].
  rewrite Hl in H1. injection H1 as <-. destruct H2 as [_ H2].
  cbn [view open_db pending committed plain_stored] in H2. destruct H2 as (H3 & H4 & _).
  split; [exact H3|]. split; [exact H4|]. now apply with_columns_salaries.
Qed.

Lemma view_columns_kept (w : widgets) (t : table) (out : list message) :
  usual_widgets w -> plain_names_typed w -> kept_by_main t ->
  ends_kept (view_columns w (open_db t) out).
Proof.
  intros Hw Hn Hk. unfold view_columns. cbv zeta.
  destruct (button w "Add Columns") eqn:Eb; cbn [andb]; [|now exists t].
  destruct (truthy (text_input w "Extra Columns (comma-separated)" None)) eqn:Et;
    [|now exists t].
  destruct (usual_text_filled w _ None Hw Et) as (s & Es). rewrite Es in *.
  assert (Hs : s <> EmptyString).
  { intros ->. discriminate Et. }
  destruct (add_extra_columns_kept t (extra_columns_list s) (Hn Eb s Es Hs) Hk)
    as (t' & H1 & H2).
  unfold and_then, invoke, show.
  destruct (add_extra_columns (open_db t) (extra_columns_list s)) as [[] c|err c|];
    try discriminate; cbn [left_by] in H1; injection H1 as ->; now exists t'.
Qed.

Lemma view_page_kept (w : widgets) (t : table) (out : list message) :
  usual_widgets w -> plain_names_typed w -> kept_by_main t ->
  ends_kept (view_page w (open_db t) out).
Proof.
  intros Hw Hn Hk. rewrite view_page_parts. unfold and_then at 1, show at 1.
  unfold and_then at 1.
  pose proof (view_columns_kept w t (out ++ [Subheader "View All Employees"]) Hw Hn Hk) as H.
  destruct (view_columns w (open_db t) (out ++ [Subheader "View All Employees"])%list)
    as [[] c o|e c o|]; [|exact H|exact H].
  destruct H as (t' & -> & Hk').
  destruct (view_listing_done w (open_db t') t' o eq_refl (proj1 (proj1 Hk')) Hw) as [o' ->].
  now exists t'.
Qed.

Lemma employees0_kept : kept_by_main employees0.
Proof.
  split; [split; [exact employees0_ok|constructor]|]. split; [|constructor].
  unfold text_columns. cbn [employees0 cols base_cols]. repeat constructor.
Qed.

Lemma main_on_new (w : widgets) :
  main w (Holding None)
  = Ran ((if (selectbox w "Menu" menu =? "Add")%string then add_page w
          else if (selectbox w "Menu" menu =? "Update")%string then update_page w
          else if (selectbox w "Menu" menu =? "Delete")%string then delete_page w
          else if (selectbox w "Menu" menu =? "View")%string then view_page w
          else ret tt) (open_db employees0) [Title "Employee Management System"]).
Proof.
  unfold main, create_connection_on. cbv zeta.
  unfold and_then at 1, invoke at 1. now rewrite create_table_value.
Qed.

Lemma pages_kept (w : widgets) (t : table) (out : list message) :
  usual_widgets w -> plain_names_typed w -> kept_by_main t -> next_id t <= max_int64 ->
  ends_kept ((if (selectbox w "Menu" menu =? "Add")%string then add_page w
              else if (selectbox w "Menu" menu =? "Update")%string then update_page w
              else if (selectbox w "Menu" menu =? "Delete")%string then delete_page w
              else if (selectbox w "Menu" menu =? "View")%string then view_page w
              else ret tt) (open_db t) out).
Proof.
  intros Hw Hn Hk Hroom.
  destruct (selectbox w "Menu" menu =? "Add")%string; [now apply add_page_kept|].
  destruct (selectbox w "Menu" menu =? "Update")%string; [now apply update_page_kept|].
  destruct (selectbox w "Menu" menu =? "Delete")%string; [now apply delete_page_kept|].
  destruct (selectbox w "Menu" menu =? "View")%string; [now apply view_page_kept|].
  now exists t.
Qed.

(** X18.  The View page, when it adds no column (the button not pressed,
    or nothing typed), writes nothing and shows the records of one query:
    [select_employees_filtered] on the three filter widgets when Apply
    Filters is pressed, [select_all_employees] otherwise.  With records to
    show, it shows the table under the header [id] followed by what
    [get_columns] returns, every record having one field for each header,
    so that building the table never fails, and offers the same as CSV;
    with none it warns that no employees were found.  With the filters
    left as they start, an empty department and bounds of 0.0, pressing
    Apply Filters shows every record. *)
Theorem view_page_lists_records
        (w : widgets) (conn : connection) (t : table) (out : list message) :
  view conn = Some t -> employees_table t ->
  (button w "Add Columns"
   && truthy (text_input w "Extra Columns (comma-separated)" None)) = false ->
  str_arg (text_input w "Department" None) ->
  num_arg (number_input w "Minimum Salary" None) ->
  num_arg (number_input w "Maximum Salary" None) ->
  exists employees,
    (if button w "Apply Filters"
     then select_employees_filtered conn (text_input w "Department" None)
            (number_input w "Minimum Salary" None) (number_input w "Maximum Salary" None)
     else select_all_employees conn) = Return employees conn /\
    view_page w conn out
    = Done tt conn
           (out ++ Subheader "View All Employees"
                :: listing (Text "id" :: map Text (attributes t)) employees)%list /\
    Forall (fun r => List.length r = List.length (Text "id" :: map Text (attributes t)))
           employees /\
    (truthy (text_input w "Department" None) = false ->
     truthy (number_input w "Minimum Salary" None) = false ->
     truthy (number_input w "Maximum Salary" None) = false ->
     employees = map output_row (rows t)).
Proof.
  intros Hv Hwf Hadd Hd Hlo Hhi.
  set (d := text_input w "Department" None) in *.
  set (lo := number_input w "Minimum Salary" None) in *.
  set (hi := number_input w "Maximum Salary" None) in *.
  assert (Hq : exists rs, incl rs (rows t) /\
             (if button w "Apply Filters"
              then select_employees_filtered conn d lo hi
              else select_all_employees conn) = Return (map output_row rs) conn /\
             (truthy d = false -> truthy lo = false -> truthy hi = false ->
              rs = rows t)).
  { destruct (button w "Apply Filters").
    - exists (filter (row_matches (filter_conds d lo hi)) (rows t)). repeat apply conj.
      + intros x Hx. now apply filter_In in Hx as [Hx _].
      + now apply filtered_rows.
      + intros H1 H2 H3. now rewrite (filter_conds_falsy d lo hi H1 H2 H3), filter_all.
    - exists (rows t). repeat apply conj.
      + apply incl_refl.
      + now apply select_all_rows.
      + reflexivity. }
  destruct Hq as (rs & Hin & Hq & Hall).
  pose proof (output_rows_width t rs Hwf Hin) as Hwd.
  exists (map output_row rs). repeat apply conj.
  - exact Hq.
  - unfold view_page. cbv zeta. fold d lo hi. rewrite Hadd.
    unfold and_then at 1, show at 1. unfold and_then at 1, ret at 1.
    unfold and_then at 1.
    replace ((if button w "Apply Filters"
              then invoke (fun conn0 => select_employees_filtered conn0 d lo hi)
              else invoke select_all_employees) conn (out ++ [Subheader "View All Employees"])%list)
      with (Done (map output_row rs) conn (out ++ [Subheader "View All Employees"])%list).
    + rewrite (show_listing conn t _ _ Hv Hwf Hwd). now rewrite <- app_assoc.
    + destruct (button w "Apply Filters"); unfold invoke; now rewrite Hq.
  - cbn [List.length]. rewrite length_map. exact Hwd.
  - intros H1 H2 H3. now rewrite (Hall H1 H2 H3).
Qed.

(** X18, at work: Apply Filters pressed with the filters as they start. *)
Lemma view_page_lists_records_witness :
  exists employees,
    select_employees_filtered (open_db employees2) (Text EmptyString) (Real 0) (Real 0)
    = Return employees (open_db employees2) /\
    view_page {| selectbox := fun _ _ => "View";
                 text_input := fun _ _ => Text EmptyString;
                 number_input := fun _ _ => Real 0;
                 button := fun label => (label =? "Apply Filters")%string;
                 form_submit_button := fun _ => false |} (open_db employees2) []
    = Done tt (open_db employees2)
           ([] ++ Subheader "View All Employees"
               :: listing (Text "id" :: map Text (attributes employees2)) employees)%list /\
    Forall (fun r => List.length r
                     = List.length (Text "id" :: map Text (attributes employees2)))
           employees /\
    (truthy (Text EmptyString) = false -> truthy (Real 0) = false ->
     truthy (Real 0) = false -> employees = map output_row (rows employees2)).
Proof.
  apply (view_page_lists_records
           {| selectbox := fun _ _ => "View";
              text_input := fun _ _ => Text EmptyString;
              number_input := fun _ _ => Real 0;
              button := fun label => (label =? "Apply Filters")%string;
              form_submit_button := fun _ => false |}
           (open_db employees2) employees2 []).
  - reflexivity.
  - exact employees2_ok.
  - reflexivity.
  - exact I.
  - exact I.
  - exact I.
Defined.



(** * [main()]: every run *)

(** X20.  Every run of [main()] keeps the file in order.  With the
    widgets as Streamlit gives them (text fields a [str], number fields a
    float that is not negative, or None for a field left empty, the
    identifier field an [int] from 1 up), and plain names typed when
    columns are added: on a file that holds no database yet, or the table
    as the pages keep it (well formed, every column but [salary] a TEXT
    column, every salary a float that is not negative) with room for one
    more identifier, the run ends, by return or by the exception of a
    database call, and leaves such a table committed in the file, whatever
    page is chosen and whatever is entered.  So the Update form can always
    be shown for a record the pages have written. *)
Theorem main_keeps_file (w : widgets) (db : database) :
  usual_widgets w -> plain_names_typed w ->
  match db with
  | None => True
  | Some t => kept_by_main t /\ next_id t <= max_int64
  end ->
  exists t',
    file_after (Holding db) (main w (Holding db)) = Some (Holding (Some t')) /\
    kept_by_main t'.
Proof.
  intros Hw Hn Hdb.
  assert (H : exists t, kept_by_main t /\ next_id t <= max_int64 /\
                        main w (Holding db)
                        = Ran ((if (selectbox w "Menu" menu =? "Add")%string then add_page w
                                else if (selectbox w "Menu" menu =? "Update")%string
                                     then update_page w
                                else if (selectbox w "Menu" menu =? "Delete")%string
                                     then delete_page w
                                else if (selectbox w "Menu" menu =? "View")%string
                                     then view_page w
                                else ret tt) (open_db t) [Title "Employee Management System"])).
  { destruct db as [t|].
    - exists t. destruct Hdb as [H1 H2].
      split; [exact H1|]. split; [exact H2|apply main_on_table].
    - exists employees0. split; [exact employees0_kept|]. split; [|apply main_on_new].
      vm_compute. intros H. discriminate H. }
  destruct H as (t & Hk & Hroom & ->).
  pose proof (pages_kept w t [Title "Employee Management System"] Hw Hn Hk Hroom) as He.
  destruct ((if (selectbox w "Menu" menu =? "Add")%string then add_page w
             else if (selectbox w "Menu" menu =? "Update")%string then update_page w
             else if (selectbox w "Menu" menu =? "Delete")%string then delete_page w
             else if (selectbox w "Menu" menu =? "View")%string then view_page w
             else ret tt) (open_db t) [Title "Employee Management System"])
    as [[] c o|e c o|]; [| |contradiction];
    destruct He as (t' & -> & Hk'); exists t'; now split.
Qed.

(** X20, at work: Cy of Ops joins the two employees. *)
Lemma main_keeps_file_witness :
  exists t',
    file_after (Holding (Some employees2)) (main cy_joins (Holding (Some employees2)))
    = Some (Holding (Some t')) /\
    kept_by_main t'.
Proof.
  apply (main_keeps_file cy_joins (Some employees2)).
  - constructor.
    + intros label initial. cbn [cy_joins text_input].
      destruct (label =? "Name")%string; [exact I|].
      destruct (label =? "Department")%string; exact I.
    + intros label initial Hl. cbn [cy_joins number_input].
      destruct (String.eqb_spec label "Employee ID"); [contradiction|reflexivity].
    + exists 1. split; [reflexivity|lia].
  - intros H. discriminate H.
  - split.
    + split; [split; [exact employees2_ok|repeat constructor]|].
      split; repeat constructor.
    + vm_compute. intros H. discriminate H.
Defined.



(** * UPDATE that is refused *)

Lemma resolve_all_raises (t : table) (ks : list string) (k : string) :
  In k ks -> resolve t k = None -> resolve_all t ks = Raise OperationalError.
Proof.
  unfold resolve_all. induction ks as [|x ks IH]; [contradiction|].
  intros Hk Hr. cbn [omap].
  destruct (resolve t x) as [r|] eqn:Ex; [|reflexivity].
  destruct Hk as [->|Hk]; [congruence|]. cbn [obind]. now rewrite (IH Hk Hr).
Qed.

Lemma execute_update_unknown_key (conn : connection) (t : table) (e : dict)
      (ps : list value) (k : string) :
  view conn = Some t ->
  e <> [] -> idents (keys e) ->
  In k (keys e) -> has_column t k = false -> is_rowid_alias k = false ->
  execute conn (update_sql (keys e)) ps = Raised OperationalError conn.
Proof.
  intros Hv Hne Hid Hk Hc Ha.
  unfold execute. rewrite (parse_update_sql _ (keys_nonempty _ Hne) Hid), Hv.
  cbn [prepare]. now rewrite (resolve_all_raises t _ k Hk (resolve_unknown _ _ Hc Ha)).
Qed.

Lemma omap_raises {A B} (f : A -> outcome B) (l : list A) (a : A) (e : error) :
  In a l -> f a = Raise e ->
  (forall x, In x l -> f x = Raise e \/ exists b, f x = Ok b) ->
  omap f l = Raise e.
Proof.
  induction l as [|x l IH]; intros Hin Ha Hall; [contradiction|].
  cbn [omap]. destruct (Hall x (or_introl eq_refl)) as [Hx|[b Hx]]; rewrite Hx;
    [reflexivity|]. cbn [obind].
  destruct Hin as [->|Hin]; [congruence|].
  rewrite IH; [reflexivity|assumption|assumption|].
  intros y Hy. apply Hall. now right.
Qed.

Lemma updated_values_null (e : dict) (c : column) :
  forall cs old,
    List.length old = List.length cs ->
    In c cs -> cnotnull c = true -> lookup (cname c) e = Some Null ->
    not_null_ok cs (updated_values cs e old) = false.
Proof.
  induction cs as [|x cs IH]; intros [|o old] Hlen Hin Hnn Hl; try discriminate;
    try contradiction.
  cbn [updated_values not_null_ok]. destruct Hin as [->|Hin].
  - rewrite Hl, Hnn. now destruct (caff c).
  - rewrite (IH old); [apply andb_false_r| |assumption..].
    cbn [List.length] in Hlen. lia.
Qed.

Lemma run_update_not_null (t : table) (e : dict) (refs : list colref) (id : Z)
      (vs : list value) (c : column) :
  employees_table t ->
  incl (keys e) (attributes t) -> NoDup (keys e) ->
  resolve_all t (keys e) = Ok refs ->
  forallb (fun c => match lookup (cname c) e with
                    | Some v => storable (caff c) v
                    | None => true
                    end) (cols t) = true ->
  In (id, vs) (rows t) ->
  In c (cols t) -> cnotnull c = true -> lookup (cname c) e = Some Null ->
  run_update t refs (by_id id) (values e) = Raise IntegrityError.
Proof.
  intros Hwf Hin Hnd Hr Hst Hrow Hc Hnn Hl. unfold run_update.
  assert (Hup : forall r, In r (rows t) ->
                  update_row t refs (values e) r = Raise IntegrityError).
  { intros r Hrr. unfold update_row.
    pose proof (et_width _ Hwf) as Hw. rewrite Forall_forall in Hw.
    rewrite (update_values_record e).
    - cbn [obind]. now rewrite (updated_values_null e c _ _ (Hw r Hrr) Hc Hnn Hl).
    - intros j c' Hj. cbn [Nat.add].
      rewrite (assigned_lookup t Hwf e j c' Hj Hin Hnd refs None Hr).
      now destruct (lookup (cname c') e).
    - intros c' v Hc' Hl'. rewrite forallb_forall in Hst. specialize (Hst c' Hc').
      now rewrite Hl' in Hst.
    - apply (Hw r Hrr). }
  rewrite (omap_raises _ _ (id, vs) IntegrityError Hrow).
  - reflexivity.
  - rewrite row_matches_by_id. cbn [fst]. rewrite Z.eqb_refl. now apply Hup.
  - intros x Hx. destruct (row_matches (by_id id) x); [left; now apply Hup|].
    right. now exists x.
Qed.

(** * [update_employee] refused *)

(** X22.  [update_employee] checks nothing itself and fails as the engine
    does.  With a key that is no column of the table it raises
    OperationalError, whatever the identifier, and the connection is as it
    was.  With None for a NOT NULL attribute ([name], [department]) on the
    identifier of a stored record it raises IntegrityError, and what the
    connection sees and what is committed are as before; on an identifier
    no record has, the same call returns and changes nothing. *)
Theorem update_refused_by_the_engine
        (conn : connection) (t : table) (e : dict) (id : Z) :
  view conn = Some t -> employees_table t -> e <> [] ->
  (forall k v,
      idents (keys e) -> In k (keys e) ->
      has_column t k = false -> is_rowid_alias k = false ->
      update_employee conn e v = Raised OperationalError conn)
  /\
  (forall c,
      NoDup (keys e) -> incl (keys e) (attributes t) ->
      forallb in_int64 (values e) = true ->
      forallb (fun c => match lookup (cname c) e with
                        | Some v => storable (caff c) v
                        | None => true
                        end) (cols t) = true ->
      In c (cols t) -> cnotnull c = true -> lookup (cname c) e = Some Null ->
      ((exists vs, In (id, vs) (rows t)) ->
       exists conn',
         update_employee conn e (Integer id) = Raised IntegrityError conn' /\
         view conn' = view conn /\ committed conn' = committed conn)
      /\
      (in_int64 (Integer id) = true -> (forall r, In r (rows t) -> fst r <> id) ->
       update_employee conn e (Integer id) = Return tt (open_db t))).
Proof.
  intros Hv Hwf Hne. split.
  - intros k v Hid Hk Hc Ha. unfold update_employee.
    now rewrite (execute_update_unknown_key conn t e _ k Hv Hne Hid Hk Hc Ha).
  - intros c Hnd Hin Hv64 Hst Hc Hnn Hl. split.
    + intros [vs Hrow].
      assert (Hid : in_int64 (Integer id) = true).
      { pose proof (et_rowids _ Hwf) as H. rewrite Forall_forall in H. apply (H _ Hrow). }
      destruct (execute_update_by_id conn t e id Hv Hwf Hne Hin Hv64 Hid)
        as (refs & Hr & He).
      exists (begin conn). unfold update_employee. rewrite He.
      rewrite (run_update_not_null t e refs id vs c Hwf Hin Hnd Hr Hst Hrow Hc Hnn Hl).
      repeat split; [apply view_begin|apply committed_begin].
    + intros Hid Hno. unfold update_employee.
      rewrite (execute_update_absent conn t e id Hv Hwf Hne Hin Hv64 Hid Hno).
      cbn [bind]. unfold commit. now rewrite view_set_view_begin.
Qed.

(** X22, at work: the unknown key [age], and None as [name], on the first
    of two employees. *)
Lemma update_refused_by_the_engine_witness :
  update_employee (open_db employees2) [("age", Integer 30)] (Integer 1)
  = Raised OperationalError (open_db employees2)
  /\ exists conn',
      update_employee (open_db employees2) [("name", Null)] (Integer 1)
      = Raised IntegrityError conn' /\
      view conn' = view (open_db employees2) /\
      committed conn' = committed (open_db employees2).
Proof.
  split.
  - destruct (update_refused_by_the_engine (open_db employees2) employees2
                [("age", Integer 30)] 1 eq_refl employees2_ok) as [H _]; [discriminate|].
    apply (H "age"); [repeat constructor|now left|reflexivity|reflexivity].
  - destruct (update_refused_by_the_engine (open_db employees2) employees2
                [("name", Null)] 1 eq_refl employees2_ok) as [_ H]; [discriminate|].
    destruct (H {| cname := "name"; caff := AffText; cnotnull := true |}) as [H1 _].
    + constructor; [intros []|constructor].
    + intros k [<-|[]]. now left.
    + reflexivity.
    + reflexivity.
    + now left.
    + reflexivity.
    + reflexivity.
    + apply H1. exists ana_row. now left.
Defined.
